(** * NexPath thermal simulator: a shallow embedding and its properties

    The development follows [src/engine/thermal_sim/thermal_simulator.py].
    The class [ThermalSimulator] becomes a record, its methods become
    computations in a state-and-exception monad over that record, numpy
    arrays become a shape with a row-major list of cells, and Python's
    floating-point numbers are kept abstract behind the interface
    [PyFloat], instantiated with binary64, the numbers of the program,
    and with the rationals where a run is evaluated exactly. Whether
    the machine grants the memory of a new grid is a parameter of the
    model ([Machine]); that memory runs out at another point, which
    Python may report anywhere, is outside the model. *)

From Stdlib Require Import ZArith QArith Qcanon String Lia.
From Stdlib Require Import PrimFloat Uint63 FloatOps SpecFloat FloatAxioms.
From stdpp Require Import base option list.

Local Open Scope Z_scope.

(** ** Exceptions and the two monads *)

Inductive exn : Type :=
  | ValueError (msg : string)
  | IndexError
  | TypeError
  | ZeroDivisionError
  | OverflowError
  | MemoryError.

(** A computation without access to [self]: a value or a raised exception. *)
Inductive res (A : Type) : Type :=
  | Ok (a : A)
  | Err (e : exn).
Arguments Ok {A} a.
Arguments Err {A} e.

#[global] Instance res_ret : MRet res := λ A a, Ok a.
#[global] Instance res_bind : MBind res := λ A B f m,
  match m with
  | Ok a => f a
  | Err e => Err e
  end.

#[global] Instance res_fmap : FMap res := λ A B f m,
  match m with
  | Ok a => Ok (f a)
  | Err e => Err e
  end.

Ltac res_simpl := cbn [mbind res_bind mret res_ret].

(** The loops of the source: [for x in l: acc = body(acc, x)]. *)
Fixpoint foldM {A B : Type} (body : B → A → res B) (acc : B) (l : list A) : res B :=
  match l with
  | [] => Ok acc
  | x :: l' => acc' ← body acc x; foldM body acc' l'
  end.

(** [range(a, b)] *)
Definition range (a b : Z) : list Z :=
  (λ n : nat, a + Z.of_nat n) <$> seq 0 (Z.to_nat (b - a)).

(** ** Floating-point numbers

    Only the operations the simulator applies are named; no algebraic law
    is part of the interface, so what is proved of the embedding without
    further hypotheses holds of any arithmetic, rounding included. *)
Class PyFloat (F : Type) : Type := {
  lit : Q → F;              (* a literal, or an int converted to float *)
  fadd : F → F → F;
  fsub : F → F → F;
  fmul : F → F → F;
  fquot : F → F → F;        (* the quotient by a divisor that is not zero *)
  flt : F → F → bool;       (* a < b *)
  feqb : F → F → bool;      (* a == b *)
  ftrunc : F → res Z;       (* int(a): truncation toward zero; raises on
                               an infinity and on NaN *)
}.

Declare Scope pyfloat_scope.
Delimit Scope pyfloat_scope with F.
Infix "+" := fadd : pyfloat_scope.
Infix "-" := fsub : pyfloat_scope.
Infix "*" := fmul : pyfloat_scope.
Infix "/" := fquot : pyfloat_scope.

Definition of_int `{PyFloat F} (z : Z) : F := lit (inject_Z z).

(** [a / b] on Python floats raises when the divisor is zero. *)
Definition pydiv `{PyFloat F} (a b : F) : res F :=
  if feqb b (lit 0) then Err ZeroDivisionError else Ok (a / b)%F.

(** [a > b] *)
Definition fgt `{PyFloat F} (a b : F) : bool := flt b a.

(** ** numpy arrays of rank three

    An array is its shape and its cells in row-major (C) order, which is
    the order in which numpy stores and reduces them. *)
Record ndarray (A : Type) : Type := NdArray {
  shape : nat * nat * nat;
  data : list A;
}.
Arguments NdArray {A} shape data.
Arguments shape {A} _.
Arguments data {A} _.

Definition size_of (sh : nat * nat * nat) : nat :=
  let '(nx, ny, nz) := sh in (nx * ny * nz)%nat.

Definition offset (sh : nat * nat * nat) (i j k : nat) : nat :=
  let '(_, ny, nz) := sh in ((i * ny + j) * nz + k)%nat.

Definition array_wf {A} (a : ndarray A) : Prop :=
  length (data a) = size_of (shape a).

(** The cell an index addresses along an axis of length [n]: a negative
    index counts from the end; nothing is addressed outside [-n, n). *)
Definition wrap_index (n : nat) (z : Z) : option nat :=
  if (0 <=? z) && (z <? Z.of_nat n) then Some (Z.to_nat z)
  else if (- Z.of_nat n <=? z) && (z <? 0) then Some (Z.to_nat (z + Z.of_nat n))
  else None.

(** numpy converts an index to a C index ([npy_intp], 64 bits). *)
Definition fits_intp (z : Z) : bool := (- 2 ^ 63 <=? z) && (z <? 2 ^ 63).

(** The exception of an index that addresses no cell: [OverflowError]
    when it does not fit a C index, [IndexError] otherwise. *)
Definition index_error (z : Z) : exn :=
  if fits_intp z then IndexError else OverflowError.

(** Index normalisation along an axis of a numpy array. An axis has
    fewer than [2 ^ 63] cells, so an index that addresses a cell fits. *)
Definition norm_index (n : nat) (z : Z) : res nat :=
  match wrap_index n z with
  | Some p => Ok p
  | None => Err (index_error z)
  end.

Definition locate (sh : nat * nat * nat) (i j k : Z) : res nat :=
  let '(nx, ny, nz) := sh in
  i' ← norm_index nx i;
  j' ← norm_index ny j;
  k' ← norm_index nz k;
  mret (offset sh i' j' k').

(** [a[i, j, k]] *)
Definition getitem {A} (a : ndarray A) (i j k : Z) : res A :=
  p ← locate (shape a) i j k;
  match data a !! p with
  | Some x => Ok x
  | None => Err IndexError
  end.

(** [a[i, j, k] = v] *)
Definition setitem {A} (a : ndarray A) (i j k : Z) (v : A) : res (ndarray A) :=
  p ← locate (shape a) i j k;
  mret (NdArray (shape a) (<[p := v]> (data a))).

(** The check numpy makes of a shape before it allocates, the
    dimensions taken in order: a dimension 0 is passed over, a negative
    one is refused, and so is a size in bytes beyond the largest C index. *)
Fixpoint check_dims (nbytes : Z) (dims : list Z) : res Z :=
  match dims with
  | [] => Ok nbytes
  | d :: dims' =>
    if d =? 0 then check_dims nbytes dims'
    else if d <? 0 then Err (ValueError "negative dimensions are not allowed")
    else if 2 ^ 63 <=? nbytes * d
    then Err (ValueError "array is too big; `arr.size * arr.dtype.itemsize` is larger than the maximum possible size.")
    else check_dims (nbytes * d) dims'
  end.

(** The machine the program runs on: [allocates nx ny nz] says whether
    it grants the memory of an array of that shape. *)
Class Machine : Type := { allocates : Z → Z → Z → bool }.

(** [np.zeros(shape)], [np.ones(shape) * v]: an array of 8-byte cells
    that all hold [v]. A dimension that does not fit a C index is
    refused first, then a shape that fails the check, and last a shape
    for which the machine has no memory. *)
Definition np_full `{Machine} {A} (nx ny nz : Z) (v : A) : res (ndarray A) :=
  if negb (fits_intp nx && fits_intp ny && fits_intp nz)
  then Err (ValueError "Maximum allowed dimension exceeded")
  else
    _ ← check_dims 8 [nx; ny; nz];
    if allocates nx ny nz then
      let sh := (Z.to_nat nx, Z.to_nat ny, Z.to_nat nz) in
      Ok (NdArray sh (replicate (size_of sh) v))
    else Err MemoryError.

(** The occupancy grid holds 0 for air and 1 for material (numpy keeps
    them as floats; no other value is ever written); the source tests
    [> 0] for material and [== 0] for air. *)
Definition is_material (g : Z) : bool := 0 <? g.
Definition is_air (g : Z) : bool := g =? 0.

(** [a[mask > 0]]: the cells of [a] where the grid holds material, in
    row-major order; the two shapes must agree. *)
Definition material_cells {A} (a : ndarray A) (g : ndarray Z) : list A :=
  (filter (λ p, is_material p.2 = true) (zip (data a) (data g))).*1.

Definition select_material {A} (a : ndarray A) (g : ndarray Z) : res (list A) :=
  if decide (shape a = shape g)
  then Ok (material_cells a g)
  else Err IndexError.

(** [np.any(grid > 0)] *)
Definition any_material (g : ndarray Z) : bool := existsb is_material (data g).

Section Reductions.
Context `{PyFloat F}.

(** [a >= b], [a <= b] and [isnan(a)]; the first two are false when an
    operand is NaN, the one number that is not equal to itself. *)
Definition fge (a b : F) : bool := flt b a || feqb a b.
Definition fle (a b : F) : bool := flt a b || feqb a b.
Definition isnan (a : F) : bool := negb (feqb a a).

(** [np.maximum], [np.minimum] as the reductions apply them: a NaN is
    kept once it is met. *)
Definition np_maximum (m x : F) : F := if fge m x || isnan m then m else x.
Definition np_minimum (m x : F) : F := if fle m x || isnan m then m else x.

(** [np.max], [np.min]: a reduction without identity, started from the
    first cell and refused on an empty array. *)
Definition np_max (l : list F) : res F :=
  match l with
  | [] => Err (ValueError "zero-size array to reduction operation maximum which has no identity")
  | x :: l' => Ok (fold_left np_maximum l' x)
  end.

Definition np_min (l : list F) : res F :=
  match l with
  | [] => Err (ValueError "zero-size array to reduction operation minimum which has no identity")
  | x :: l' => Ok (fold_left np_minimum l' x)
  end.

(** The sum of a list from the left, starting from zero. *)
Definition fsum (l : list F) : F := fold_left fadd l (lit 0).

(** numpy's pairwise summation of a contiguous array. Fewer than 8
    cells are added from the left. Up to 128 cells are added into eight
    accumulators, cell [i] into accumulator [i mod 8], which are then
    added two by two, and the cells after the last whole group of eight
    are added one by one. A longer array is split in two, the first half
    shortened to a multiple of eight, and the two sums are added. *)
Fixpoint accumulate8 (rows : nat) (r l : list F) : list F * list F :=
  match rows with
  | O => (r, l)
  | S rows' => accumulate8 rows' (zip_with fadd r (take 8 l)) (drop 8 l)
  end.

Definition combine8 (r : list F) : F :=
  match r with
  | [r0; r1; r2; r3; r4; r5; r6; r7] =>
    ((r0 + r1) + (r2 + r3)) + ((r4 + r5) + (r6 + r7))
  | _ => lit 0
  end%F.

Definition block_sum (l : list F) : F :=
  let '(r, rest) := accumulate8 (length l / 8 - 1) (take 8 l) (drop 8 l) in
  fold_left fadd rest (combine8 r).

(** The recursion halves the length; [fuel] bounds its depth, and the
    length itself is more than enough ([pairwise_sum_fuel]). *)
Fixpoint pairwise_sum (fuel : nat) (l : list F) : F :=
  let n := length l in
  if (n <? 8)%nat then fsum l
  else if (n <=? 128)%nat then block_sum l
  else
    match fuel with
    | O => lit 0
    | S fuel' =>
      let n2 := (n / 2 - (n / 2) mod 8)%nat in
      (pairwise_sum fuel' (take n2 l) + pairwise_sum fuel' (drop n2 l))%F
    end.

(** [np.add.reduce]: the pairwise sum added to the identity of the
    reduction. *)
Definition np_sum (l : list F) : F := (lit 0 + pairwise_sum (length l) l)%F.

(** [np.mean]: the sum of the cells over their number. *)
Definition np_mean (l : list F) : F :=
  (np_sum l / of_int (Z.of_nat (length l)))%F.

(** The step of the builtin [max]: the later item replaces the earlier
    when it is greater. *)
Definition fmax2 (m x : F) : F := if flt m x then x else m.

(** The builtin [max(l)] of a non-empty list. *)
Definition py_max (x : F) (l : list F) : F := fold_left fmax2 l x.
End Reductions.

(** ** The simulator object *)

Section Simulator.
Context {F : Type} `{PyFloat F} `{Machine}.

(** [config["material"]] *)
Record Material : Type := {
  thermal_conductivity : option F;
  specific_heat : option F;
  density : option F;
}.

(** The configuration dictionary; an absent key is [None], and
    [config.get(key, d)] is [default d]. *)
Record Config : Type := {
  time_step : option F;
  material : option Material;
  ambient_temperature : option F;
  convection_coefficient : option F;
  extrusion_temperature : option F;
  cooling_rate_threshold : option F;
  max_temp_threshold : option F;
}.

Definition empty_material : Material :=
  {| thermal_conductivity := None; specific_heat := None; density := None |}.

(** One entry of [self.history]. *)
Record Sample : Type := {
  sample_time : F;
  max_temp : F;
  min_temp : F;
  avg_temp : F;
}.

Record ThermalSimulator : Type := {
  config : Config;
  grid : option (ndarray Z);
  temperature : option (ndarray F);
  time : F;
  history : list Sample;
}.

(** [ThermalSimulator(config)] *)
Definition init (cfg : Config) : ThermalSimulator :=
  {| config := cfg; grid := None; temperature := None;
     time := lit 0; history := [] |}.

Definition set_grid (g : option (ndarray Z)) (self : ThermalSimulator) :=
  {| config := config self; grid := g; temperature := temperature self;
     time := time self; history := history self |}.
Definition set_temperature (t : option (ndarray F)) (self : ThermalSimulator) :=
  {| config := config self; grid := grid self; temperature := t;
     time := time self; history := history self |}.
Definition set_time (t : F) (self : ThermalSimulator) :=
  {| config := config self; grid := grid self; temperature := temperature self;
     time := t; history := history self |}.
Definition set_history (h : list Sample) (self : ThermalSimulator) :=
  {| config := config self; grid := grid self; temperature := temperature self;
     time := time self; history := h |}.

(** A method call either returns a value or raises; in both cases the
    object is left in some state. *)
Inductive outcome (A : Type) : Type :=
  | Return (a : A) (self : ThermalSimulator)
  | Raise (e : exn) (self : ThermalSimulator).
Arguments Return {A} a self.
Arguments Raise {A} e self.

Definition M (A : Type) : Type := ThermalSimulator → outcome A.

#[global] Instance M_ret : MRet M := λ A a self, Return a self.
#[global] Instance M_bind : MBind M := λ A B f m self,
  match m self with
  | Return a self' => f a self'
  | Raise e self' => Raise e self'
  end.

Definition get_self : M ThermalSimulator := λ self, Return self self.
Definition modify (f : ThermalSimulator → ThermalSimulator) : M unit :=
  λ self, Return tt (f self).
Definition raise {A} (e : exn) : M A := λ self, Raise e self.
Definition lift {A} (r : res A) : M A := λ self,
  match r with
  | Ok a => Return a self
  | Err e => Raise e self
  end.

(** [for x in l: body(x)] with the effects of [body] on [self]. *)
Fixpoint for_each {A} (l : list A) (body : A → M unit) : M unit :=
  match l with
  | [] => mret tt
  | x :: l' => _ ← body x; for_each l' body
  end.

(** *** initialize_grid *)

(** The message printed at the end is left out. *)
Definition initialize_grid (dimensions : F * F * F) (resolution : F) : M unit :=
  let '(dx, dy, dz) := dimensions in
  qx ← lift (pydiv dx resolution);
  tx ← lift (ftrunc qx);
  let nx := tx + 1 in
  qy ← lift (pydiv dy resolution);
  ty ← lift (ftrunc qy);
  let ny := ty + 1 in
  qz ← lift (pydiv dz resolution);
  tz ← lift (ftrunc qz);
  let nz := tz + 1 in
  self ← get_self;
  let ambient_temp := default (lit 25) (ambient_temperature (config self)) in
  t ← lift (np_full nx ny nz (lit 1 * ambient_temp)%F);
  _ ← modify (set_temperature (Some t));
  g ← lift (np_full nx ny nz 0);
  modify (set_grid (Some g)).

(** *** add_layer *)

(** [np.sqrt(n) <= radius] for integers [n >= 0] and [radius]: the
    square root is not negative, it is monotone and it is exact on
    squares, so the test holds exactly when [0 <= radius] and
    [n <= radius * radius]. *)
Definition within_radius (n radius : Z) : bool :=
  (0 <=? radius) && (n <=? radius * radius).

(** The two assignments made for a cell within the radius. *)
Definition deposit_cell (i j z_level : Z) : M unit :=
  self ← get_self;
  match grid self with
  | None => raise TypeError
  | Some g =>
    g' ← lift (setitem g i j z_level 1);
    _ ← modify (set_grid (Some g'));
    self ← get_self;
    let extrusion_temp := default (lit 200) (extrusion_temperature (config self)) in
    match temperature self with
    | None => raise TypeError
    | Some t =>
      t' ← lift (setitem t i j z_level extrusion_temp);
      modify (set_temperature (Some t'))
    end
  end.

Definition add_layer {L : Type} (layer_data : L) (z_level : Z) : M unit :=
  self ← get_self;
  match grid self with
  | None => raise (ValueError "Grid not initialized")
  | Some g =>
    let '(nx, ny, _) := shape g in
    let center_x := Z.of_nat nx / 2 in
    let center_y := Z.of_nat ny / 2 in
    let radius := Z.min center_x center_y - 5 in
    for_each (range 0 (Z.of_nat nx)) (λ i,
      for_each (range 0 (Z.of_nat ny)) (λ j,
        let dist2 := (i - center_x) ^ 2 + (j - center_y) ^ 2 in
        if within_radius dist2 radius
        then deposit_cell i j z_level
        else mret tt))
  end.

(** *** simulate_step *)

Definition neighbour_offsets : list (Z * Z * Z) :=
  [(1, 0, 0); (-1, 0, 0); (0, 1, 0); (0, -1, 0); (0, 0, 1); (0, 0, -1)].

(** The scan for an air neighbour, leaving the loop at the first one. *)
Fixpoint surface_scan (g : ndarray Z) (nx ny nz i j k : Z)
    (ds : list (Z * Z * Z)) : res bool :=
  match ds with
  | [] => Ok false
  | (di, dj, dk) :: ds' =>
    let ni := i + di in
    let nj := j + dj in
    let nk := k + dk in
    if (0 <=? ni) && (ni <? nx) && (0 <=? nj) && (nj <? ny)
       && (0 <=? nk) && (nk <? nz)
    then
      gv ← getitem g ni nj nk;
      if is_air gv then Ok true else surface_scan g nx ny nz i j k ds'
    else surface_scan g nx ny nz i j k ds'
  end.

Section Step.
Variables (dt conductivity heat rho ambient_temp convection_coeff : F).
Variables (g : ndarray Z) (T : ndarray F) (nx ny nz : Z).

(** The body of the innermost loop at cell [(i, j, k)]. The division for
    [alpha] is one of Python floats and raises on a zero divisor; the
    later one, on a numpy scalar, is reached with the same divisor only
    when that one has returned. *)
Definition update_cell (new_temp : ndarray F) (i j k : Z) : res (ndarray F) :=
  gv ← getitem g i j k;
  if is_material gv then
    t1 ← getitem T (i + 1) j k;
    t2 ← getitem T (i - 1) j k;
    t3 ← getitem T i (j + 1) k;
    t4 ← getitem T i (j - 1) k;
    t5 ← getitem T i j (k + 1);
    t6 ← getitem T i j (k - 1);
    c ← getitem T i j k;
    let laplacian := (t1 + t2 + t3 + t4 + t5 + t6 - of_int 6 * c)%F in
    alpha ← pydiv conductivity (rho * heat)%F;
    old ← getitem new_temp i j k;
    new_temp ← setitem new_temp i j k (old + alpha * dt * laplacian)%F;
    is_surface ← surface_scan g nx ny nz i j k neighbour_offsets;
    if is_surface : bool then
      c' ← getitem T i j k;
      let cooling := (convection_coeff * (ambient_temp - c'))%F in
      old' ← getitem new_temp i j k;
      setitem new_temp i j k (old' + cooling * dt / (rho * heat))%F
    else mret new_temp
  else mret new_temp.

Definition diffuse (new_temp : ndarray F) : res (ndarray F) :=
  foldM (λ nt i,
    foldM (λ nt j,
      foldM (λ nt k, update_cell nt i j k) nt (range 1 (nz - 1)))
      nt (range 1 (ny - 1)))
    new_temp (range 1 (nx - 1)).
End Step.

(** The history entry of the current state. *)
Definition take_sample (now ambient_temp : F) (g : ndarray Z) (T : ndarray F)
    : res Sample :=
  mx ← np_max (data T);
  mn ← np_min (data T);
  av ← (if any_material g
        then l ← select_material T g; mret (np_mean l)
        else mret ambient_temp);
  mret {| sample_time := now; max_temp := mx; min_temp := mn; avg_temp := av |}.

Definition simulate_step : M unit :=
  self ← get_self;
  match grid self, temperature self with
  | Some g, Some T =>
    let cfg := config self in
    let dt := default (lit 0.1) (time_step cfg) in
    let mat := default empty_material (material cfg) in
    let conductivity := default (lit 0.5) (thermal_conductivity mat) in
    let heat := default (lit 2000) (specific_heat mat) in
    let rho := default (lit 1) (density mat) in
    let ambient_temp := default (lit 25) (ambient_temperature cfg) in
    let convection_coeff := default (lit 10) (convection_coefficient cfg) in
    let '(nx, ny, nz) := shape g in
    new_temp ← lift (diffuse dt conductivity heat rho ambient_temp convection_coeff
                       g T (Z.of_nat nx) (Z.of_nat ny) (Z.of_nat nz) T);
    _ ← modify (set_temperature (Some new_temp));
    _ ← modify (λ self, set_time (time self + dt)%F self);
    self ← get_self;
    if (Z.of_nat (length (history self)) mod 10 =? 0) then
      entry ← lift (take_sample (time self) ambient_temp g new_temp);
      modify (λ self, set_history (history self ++ [entry]) self)
    else mret tt
  | _, _ => raise (ValueError "Grid not initialized")
  end.

(** *** analyze_results *)

(** [l[i]] on a Python list: an index that addresses no item is an
    [IndexError], however large it is. *)
Definition list_getitem {A} (l : list A) (i : Z) : res A :=
  match wrap_index (length l) i with
  | Some p =>
    match l !! p with
    | Some x => Ok x
    | None => Err IndexError
    end
  | None => Err IndexError
  end.

(** An entry of [potential_issues]; its message is the value printed
    with two decimals and is left out. *)
Record Issue : Type := {
  issue_type : string;
  value : F;
  threshold : F;
}.

Record TemperatureStats : Type := {
  final_max : F;
  final_min : F;
  final_avg : F;
}.

Record CoolingStats : Type := {
  max_cooling_rate : F;
  avg_cooling_rate : F;
}.

Record Report : Type := {
  simulation_time : F;
  num_steps : Z;
  temperature_stats : TemperatureStats;
  cooling_stats : CoolingStats;
  potential_issues : list Issue;
  report_history : list Sample;
}.

(** The body of the loop over [range(1, len(self.history))]. *)
Definition cooling_rate_at (h : list Sample) (cooling_rates : list F) (i : Z)
    : res (list F) :=
  cur ← list_getitem h i;
  prev ← list_getitem h (i - 1);
  let time_diff := (sample_time cur - sample_time prev)%F in
  if fgt time_diff (lit 0) then
    prev' ← list_getitem h (i - 1);
    cur' ← list_getitem h i;
    let temp_diff := (max_temp prev' - max_temp cur')%F in
    rate ← pydiv temp_diff time_diff;
    mret (cooling_rates ++ [rate])
  else mret cooling_rates.

Definition cooling_rates_of (h : list Sample) : res (list F) :=
  foldM (cooling_rate_at h) [] (range 1 (Z.of_nat (length h))).

Definition analyze_results : M Report :=
  self ← get_self;
  match grid self, temperature self with
  | Some g, Some T =>
    let cfg := config self in
    let rate_threshold := default (lit 5) (cooling_rate_threshold cfg) in
    let temp_threshold := default (lit 250) (max_temp_threshold cfg) in
    cooling_rates ← lift (cooling_rates_of (history self));
    let max_rate :=
      match cooling_rates with
      | [] => lit 0
      | r :: rs => py_max r rs
      end in
    let issues1 :=
      if fgt max_rate rate_threshold
      then [{| issue_type := "high_cooling_rate"; value := max_rate;
               threshold := rate_threshold |}]
      else [] in
    mx ← lift (np_max (data T));
    let issues2 :=
      if fgt mx temp_threshold
      then issues1 ++ [{| issue_type := "high_temperature"; value := mx;
                          threshold := temp_threshold |}]
      else issues1 in
    fmx ← lift (np_max (data T));
    fmn ← lift (np_min (data T));
    fav ← lift (if any_material g
                then l ← select_material T g; mret (np_mean l)
                else mret (lit 0));
    let avg_rate :=
      match cooling_rates with
      | [] => lit 0
      | _ => np_mean cooling_rates
      end in
    mret {| simulation_time := time self;
            num_steps := Z.of_nat (length (history self)) * 10;
            temperature_stats :=
              {| final_max := fmx; final_min := fmn; final_avg := fav |};
            cooling_stats :=
              {| max_cooling_rate := max_rate; avg_cooling_rate := avg_rate |};
            potential_issues := issues2;
            report_history := history self |}
  | _, _ => raise (ValueError "No simulation data available")
  end.

(** *** run_simulation *)

Definition run_steps (num_steps : Z) : M unit :=
  for_each (range 0 num_steps) (λ _, simulate_step).

Definition run_simulation (num_steps : Z) : M Report :=
  _ ← run_steps num_steps;
  analyze_results.
End Simulator.

Arguments Return {F A} a self.
Arguments Raise {F A} e self.

(** * Notions used in the statements *)

(** ** Cells and their addresses *)

(** The indices that address a cell directly, without wrap-around. *)
Definition in_range (sh : nat * nat * nat) (i j k : Z) : Prop :=
  let '(nx, ny, nz) := sh in
  0 ≤ i < Z.of_nat nx ∧ 0 ≤ j < Z.of_nat ny ∧ 0 ≤ k < Z.of_nat nz.

Definition pos (sh : nat * nat * nat) (i j k : Z) : nat :=
  offset sh (Z.to_nat i) (Z.to_nat j) (Z.to_nat k).

(** ** What a step computes *)

Section StepNotions.
Context {F : Type} `{PyFloat F}.
Variables (dt conductivity heat rho ambient_temp convection_coeff : F).
Variables (g : ndarray Z) (T : ndarray F) (sh : nat * nat * nat).

Local Abbreviation nx := (Z.of_nat sh.1.1).
Local Abbreviation ny := (Z.of_nat sh.1.2).
Local Abbreviation nz := (Z.of_nat sh.2).

(** The cells the three loops visit. *)
Definition interior (i j k : Z) : Prop :=
  1 ≤ i < nx - 1 ∧ 1 ≤ j < ny - 1 ∧ 1 ≤ k < nz - 1.

(** What one step stores at a material cell, read from the field [T]
    of the previous step alone. *)
Definition cell_target (i j k : Z) : res F :=
  t1 ← getitem T (i + 1) j k;
  t2 ← getitem T (i - 1) j k;
  t3 ← getitem T i (j + 1) k;
  t4 ← getitem T i (j - 1) k;
  t5 ← getitem T i j (k + 1);
  t6 ← getitem T i j (k - 1);
  c ← getitem T i j k;
  let laplacian := (t1 + t2 + t3 + t4 + t5 + t6 - of_int 6 * c)%F in
  alpha ← pydiv conductivity (rho * heat)%F;
  is_surface ← surface_scan g nx ny nz i j k neighbour_offsets;
  mret (if is_surface : bool
        then (c + alpha * dt * laplacian
              + convection_coeff * (ambient_temp - c) * dt / (rho * heat))%F
        else (c + alpha * dt * laplacian)%F).

(** The invariant of the loops: the buffer [nt] after the cells in
    [V] have been visited. Material cells in [V] hold their target, all
    other cells still hold the value of [T]. *)
Definition written (V : Z → Z → Z → Prop) (nt : ndarray F) : Prop :=
  shape nt = sh ∧ array_wf nt ∧
  ∀ i j k, in_range sh i j k →
    (V i j k → ∀ gv, getitem g i j k = Ok gv → is_material gv = true →
       ∃ v, cell_target i j k = Ok v ∧ getitem nt i j k = Ok v) ∧
    (¬ V i j k → getitem nt i j k = getitem T i j k) ∧
    (∀ gv, getitem g i j k = Ok gv → is_material gv = false →
       getitem nt i j k = getitem T i j k).

(** The sum of [f] over the cells the loops visit, in their order. *)
Definition interior_sum (f : Z → Z → Z → F) : F :=
  fsum ((λ i,
    fsum ((λ j,
      fsum ((λ k, f i j k) <$> range 1 (nz - 1)))
      <$> range 1 (ny - 1)))
    <$> range 1 (nx - 1)).

(** The sum of the temperatures of the material cells. *)
Definition total_heat (nt : ndarray F) : F := fsum (material_cells nt g).

Definition temperature_at (i j k : Z) : F :=
  match getitem T i j k with
  | Ok x => x
  | Err _ => lit 0
  end.

Definition laplacian_at (i j k : Z) : F :=
  (temperature_at (i + 1) j k + temperature_at (i - 1) j k
   + temperature_at i (j + 1) k + temperature_at i (j - 1) k
   + temperature_at i j (k + 1) + temperature_at i j (k - 1)
   - of_int 6 * temperature_at i j k)%F.

(** The heat a cell gains in one step of pure diffusion. *)
Definition diffusion_gain (i j k : Z) : F :=
  (conductivity / (rho * heat) * dt * laplacian_at i j k)%F.

Definition gain (i j k : Z) : F :=
  match getitem g i j k with
  | Ok gv => if is_material gv then diffusion_gain i j k else lit 0
  | Err _ => lit 0
  end.

(** The heat gained over the three loops. *)
Definition total_gain : F := interior_sum gain.

End StepNotions.

(** ** The disc of a layer *)

(** The disc [add_layer] draws: centre [(nx // 2, ny // 2)], radius
    [min(nx // 2, ny // 2) - 5]. *)
Definition disc_radius (sh : nat * nat * nat) : Z :=
  Z.min (Z.of_nat sh.1.1 / 2) (Z.of_nat sh.1.2 / 2) - 5.

Definition in_disc (sh : nat * nat * nat) (i j : Z) : bool :=
  within_radius ((i - Z.of_nat sh.1.1 / 2) ^ 2 + (j - Z.of_nat sh.1.2 / 2) ^ 2)
    (disc_radius sh).

(** ** Simulators *)

Section SimulatorNotions.
Context {F : Type} `{PyFloat F}.
Implicit Types (self s : ThermalSimulator (F:=F)) (cfg : Config (F:=F)).

(** The parameters [simulate_step] reads from the configuration. *)
Definition dt_of cfg : F := default (lit 0.1) (time_step cfg).
Definition conductivity_of cfg : F :=
  default (lit 0.5) (thermal_conductivity (default empty_material (material cfg))).
Definition heat_of cfg : F :=
  default (lit 2000) (specific_heat (default empty_material (material cfg))).
Definition rho_of cfg : F :=
  default (lit 1) (density (default empty_material (material cfg))).
Definition ambient_of cfg : F := default (lit 25) (ambient_temperature cfg).
Definition convection_of cfg : F := default (lit 10) (convection_coefficient cfg).
Definition extrusion_of cfg : F := default (lit 200) (extrusion_temperature cfg).

(** An initialized simulator: both arrays are present, of one shape,
    and hold as many cells as the shape says. *)
Definition initialized self (g : ndarray Z) (T : ndarray F) : Prop :=
  grid self = Some g ∧ temperature self = Some T ∧
  shape T = shape g ∧ array_wf g ∧ array_wf T.

Definition divisor_ok cfg : Prop :=
  feqb (rho_of cfg * heat_of cfg)%F (lit 0) = false.

(** The state after the assignments to [self.temperature] and
    [self.time]. *)
Definition stepped self (T' : ndarray F) : ThermalSimulator :=
  set_time (time self + dt_of (config self))%F (set_temperature (Some T') self).

(** A simulator on which [simulate_step] returns. *)
Definition steppable self : Prop :=
  ∃ g T, initialized self g T ∧ divisor_ok (config self) ∧ data T ≠ [].

(** The invariant of the two loops of [add_layer]: the state [s] after
    the columns [(i, j)] in [V] have been visited. *)
Definition deposited self (g : ndarray Z) (T : ndarray F) (z : Z)
    (V : Z → Z → Prop) s : Prop :=
  config s = config self ∧ time s = time self ∧ history s = history self ∧
  ∃ g' T', initialized s g' T' ∧ shape g' = shape g ∧
    ∀ i j k, in_range (shape g) i j k →
      (V i j → in_disc (shape g) i j = true → k = z →
         getitem g' i j k = Ok 1 ∧
         getitem T' i j k = Ok (extrusion_of (config self))) ∧
      (¬ V i j ∨ in_disc (shape g) i j = false ∨ k ≠ z →
         getitem g' i j k = getitem g i j k ∧
         getitem T' i j k = getitem T i j k).

(** The depth of both arrays, kept by every deposit. *)
Definition depth_is (nz : nat) s : Prop :=
  (∀ g, grid s = Some g → (shape g).2 = nz) ∧
  (∀ T, temperature s = Some T → (shape T).2 = nz).

End SimulatorNotions.

(** ** Laws of the numbers *)

Section Laws.
Context {F : Type} `{PyFloat F}.

(** The numbers of a list are ordered: none is NaN (each is equal to
    itself), equal numbers are not below one another, [<] is asymmetric
    and [>=] is transitive. The laws are asked of the numbers that occur
    and of no other: every list of rationals is ordered, and so is every
    list of binary64 numbers without a NaN ([binary64_ordered_on]). *)
Definition ordered_on (l : list F) : Prop :=
  (∀ a, a ∈ l → feqb a a = true) ∧
  (∀ a b, a ∈ l → b ∈ l → feqb a b = true → flt a b = false ∧ flt b a = false) ∧
  (∀ a b, a ∈ l → b ∈ l → flt a b = true → flt b a = false) ∧
  (∀ a b c, a ∈ l → b ∈ l → c ∈ l →
     flt a b = false → flt b c = false → flt a c = false).

(** A number above zero is not zero, so dividing by it is allowed. *)
Definition positive_nonzero : Prop :=
  ∀ a : F, flt (lit 0) a = true → feqb a (lit 0) = false.

(** The laws of exact arithmetic that the heat balance uses: addition
    is commutative and associative with zero as its unit, and zero is
    absorbing in products and quotients. They hold of the rationals; they
    do not hold of rounded arithmetic, where addition is not associative. *)
Definition exact_arithmetic : Prop :=
  (∀ a b : F, (a + b)%F = (b + a)%F) ∧
  (∀ a b c : F, (a + (b + c))%F = (a + b + c)%F) ∧
  (∀ a : F, (a + lit 0)%F = a) ∧
  (∀ a : F, (lit 0 * a)%F = lit 0) ∧
  (∀ a : F, (lit 0 / a)%F = lit 0).

End Laws.

(** ** The analysis, restated *)

Section AnalysisNotions.
Context {F : Type} `{PyFloat F}.
Implicit Types (self : ThermalSimulator (F:=F)) (h : list (Sample (F:=F))).

(** The cooling rates as the specification words them: one rate per
    pair of consecutive samples whose time difference is positive. *)
Fixpoint pair_rates h : list F :=
  match h with
  | prev :: rest =>
    match rest with
    | next :: _ =>
      let time_diff := (sample_time next - sample_time prev)%F in
      (if fgt time_diff (lit 0)
       then [((max_temp prev - max_temp next) / time_diff)%F]
       else []) ++ pair_rates rest
    | [] => []
    end
  | [] => []
  end.

Definition max_rate_of (rates : list F) : F :=
  match rates with
  | [] => lit 0
  | r :: rs => py_max r rs
  end.

Definition cooling_issue self (rates : list F) : list Issue :=
  let rate_threshold := default (lit 5) (cooling_rate_threshold (config self)) in
  if fgt (max_rate_of rates) rate_threshold
  then [{| issue_type := "high_cooling_rate"; value := max_rate_of rates;
           threshold := rate_threshold |}]
  else [].

Definition temperature_issue self (mx : F) : list Issue :=
  let temp_threshold := default (lit 250) (max_temp_threshold (config self)) in
  if fgt mx temp_threshold
  then [{| issue_type := "high_temperature"; value := mx;
           threshold := temp_threshold |}]
  else [].

End AnalysisNotions.

(** ** Exact arithmetic: the rationals in canonical form

    Used to run the embedding on concrete inputs. Every literal of the
    source is a rational, and on the rationals the operations are exact. *)
#[global] Instance Qc_float : PyFloat Qc := {
  lit := Q2Qc;
  fadd := Qcplus;
  fsub := Qcminus;
  fmul := Qcmult;
  fquot := Qcdiv;
  flt a b := negb (Qle_bool b a);
  feqb a b := Qeq_bool a b;
  ftrunc a := Ok (Z.quot (Qnum a) (Zpos (Qden a)));
}.

(** ** Binary64: the numbers of the source

    Python's floats are IEEE 754 binary64 numbers, as are the primitive
    floats used here. A literal [n / d] is the quotient of two integers
    that binary64 represents exactly (all those of the source are below
    2^53), correctly rounded: the double nearest to the literal. [int(x)]
    raises [OverflowError] on an infinity and [ValueError] on NaN. *)
Definition float_of_Z (z : Z) : float :=
  match z with
  | Z0 => PrimFloat.zero
  | Zpos _ => PrimFloat.of_uint63 (Uint63.of_Z z)
  | Zneg p => PrimFloat.opp (PrimFloat.of_uint63 (Uint63.of_Z (Zpos p)))
  end.

Definition Z_of_float (x : float) : res Z :=
  match Prim2SF x with
  | S754_finite s m e =>
    let magnitude :=
      if 0 <=? e then Z.shiftl (Zpos m) e else Z.shiftr (Zpos m) (- e) in
    Ok (if s then - magnitude else magnitude)
  | S754_zero _ => Ok 0
  | S754_infinity _ => Err OverflowError
  | S754_nan => Err (ValueError "cannot convert float NaN to integer")
  end.

#[global] Instance binary64 : PyFloat float := {
  lit q := PrimFloat.div (float_of_Z (Qnum q)) (float_of_Z (Zpos (Qden q)));
  fadd := PrimFloat.add;
  fsub := PrimFloat.sub;
  fmul := PrimFloat.mul;
  fquot := PrimFloat.div;
  flt := PrimFloat.ltb;
  feqb := PrimFloat.eqb;
  ftrunc := Z_of_float;
}.

(** A key of the binary64 numbers other than NaN on which the
    comparison of the format is the lexicographic one: the sign class
    first, then exponent and mantissa, reversed for negative numbers. *)
Definition sf_key (x : spec_float) : Z * Z * Z :=
  match x with
  | S754_nan => (0, 0, 0)
  | S754_infinity true => (-2, 0, 0)
  | S754_infinity false => (2, 0, 0)
  | S754_zero _ => (0, 0, 0)
  | S754_finite true m e => (-1, - e, - Zpos m)
  | S754_finite false m e => (1, e, Zpos m)
  end.

Definition lex_lt (a b : Z * Z * Z) : Prop :=
  a.1.1 < b.1.1 ∨ (a.1.1 = b.1.1 ∧ (a.1.2 < b.1.2 ∨ (a.1.2 = b.1.2 ∧ a.2 < b.2))).

(** ** Concrete simulators *)

(** Closed facts about a concrete run are settled by evaluation. *)
Ltac by_compute := vm_compute; repeat split; (reflexivity || discriminate).

Definition state_after {F A} (m : M (F:=F) A) (self : ThermalSimulator) : ThermalSimulator :=
  match m self with
  | Return _ self' => self'
  | Raise _ self' => self'
  end.

(** A machine that grants every request. *)
#[global] Instance roomy : Machine := {| allocates _ _ _ := true |}.

Section Scenarios.
Context (F : Type) `{PyFloat F}.

(** [ThermalSimulator({})] *)
Definition default_config_in : Config (F:=F) :=
  {| time_step := None; material := None; ambient_temperature := None;
     convection_coefficient := None; extrusion_temperature := None;
     cooling_rate_threshold := None; max_temp_threshold := None |}.

Definition fresh_in : ThermalSimulator (F:=F) := init default_config_in.

(** After [initialize_grid((10, 10, 10), 1)]: a grid of 11 x 11 x 11. *)
Definition with_grid_in : ThermalSimulator (F:=F) :=
  state_after (initialize_grid (lit 10, lit 10, lit 10) (lit 1)) fresh_in.

(** After [add_layer(layer, 5)]: the disc has radius 0, it is the single
    cell (5, 5, 5). *)
Definition with_layer_in : ThermalSimulator (F:=F) :=
  state_after (add_layer tt 5) with_grid_in.

(** A grid of 3 x 3 x 3: one interior cell, holding material at 200, in
    an outer layer at the ambient 25; no convection, and a diffusivity
    within the stability bound ([alpha * dt = 1/8 <= 1/6]). *)
Definition cube_config_in : Config (F:=F) :=
  {| time_step := Some (lit 0.125);
     material := Some {| thermal_conductivity := Some (lit 1);
                         specific_heat := Some (lit 1);
                         density := Some (lit 1) |};
     ambient_temperature := None;
     convection_coefficient := Some (lit 0);
     extrusion_temperature := None;
     cooling_rate_threshold := None;
     max_temp_threshold := None |}.

Definition cube_temperature_in : ndarray F :=
  NdArray (3, 3, 3)%nat (<[13%nat := lit 200]> (replicate 27 (lit 25))).

(** The outer layer is air. *)
Definition cube_in : ThermalSimulator (F:=F) :=
  {| config := cube_config_in;
     grid := Some (NdArray (3, 3, 3)%nat (<[13%nat := 1]> (replicate 27 0)));
     temperature := Some cube_temperature_in;
     time := lit 0;
     history := [] |}.


Definition the_grid (self : ThermalSimulator (F:=F)) : ndarray Z :=
  default (NdArray (0, 0, 0)%nat []) (grid self).
Definition the_temperature (self : ThermalSimulator (F:=F)) : ndarray F :=
  default (NdArray (0, 0, 0)%nat []) (temperature self).
End Scenarios.

Arguments the_grid {F} self.
Arguments the_temperature {F} self.

(** Over the rationals. *)
Definition default_config : Config (F:=Qc) := default_config_in Qc.
Definition fresh : ThermalSimulator (F:=Qc) := fresh_in Qc.
Definition with_grid : ThermalSimulator (F:=Qc) := with_grid_in Qc.
Definition with_layer : ThermalSimulator (F:=Qc) := with_layer_in Qc.
Definition cube : ThermalSimulator (F:=Qc) := cube_in Qc.

(** A history of three samples: the temperature falls by 10 in the first
    second, and the third sample repeats the time of the second. *)
Definition with_history_in (F : Type) `{PyFloat F} : ThermalSimulator (F:=F) :=
  set_history
    [ {| sample_time := lit 0.1; max_temp := lit 200; min_temp := lit 25; avg_temp := lit 200 |};
      {| sample_time := lit 1.1; max_temp := lit 190; min_temp := lit 25; avg_temp := lit 190 |};
      {| sample_time := lit 1.1; max_temp := lit 150; min_temp := lit 25; avg_temp := lit 150 |} ]
    (with_layer_in F).

Definition with_history : ThermalSimulator (F:=Qc) := with_history_in Qc.

(** ** The outcome of a step, and further simulators *)

Section OutcomeNotions.
Context {F : Type} `{PyFloat F}.
Implicit Types (self : ThermalSimulator (F:=F)).

(** What [simulate_step] does once the loops have ended with [r]: an
    exception raised in the loops leaves [self] as it was; otherwise the
    field and the clock are assigned before the sample is taken. *)
Definition after_loops self (g : ndarray Z) (r : res (ndarray F)) : outcome unit :=
  match r with
  | Err e => Raise e self
  | Ok T' =>
    if Z.of_nat (length (history self)) mod 10 =? 0
    then match take_sample (time self + dt_of (config self))%F
                 (ambient_of (config self)) g T' with
         | Ok entry =>
           Return tt (set_history (history self ++ [entry]) (stepped self T'))
         | Err e => Raise e (stepped self T')
         end
    else Return tt (stepped self T')
  end.

(** The state a call ends in, whether it returns or raises. *)
Definition final_state {A} (o : outcome (F:=F) A) : ThermalSimulator :=
  match o with
  | Return _ self' => self'
  | Raise _ self' => self'
  end.

(** The exception a call raises, if any. *)
Definition raised {A} (o : outcome (F:=F) A) : option exn :=
  match o with
  | Return _ _ => None
  | Raise e _ => Some e
  end.

(** A cell of the interior that holds material. *)
Definition interior_material (g : ndarray Z) (i j k : Z) : Prop :=
  interior (shape g) i j k ∧ ∃ gv, getitem g i j k = Ok gv ∧ is_material gv = true.

(** No cell of the interior holds material. *)
Definition interior_is_air (g : ndarray Z) : Prop :=
  ∀ i j k, interior (shape g) i j k →
    ∃ gv, getitem g i j k = Ok gv ∧ is_material gv = false.
End OutcomeNotions.

(** [ThermalSimulator({})] after [initialize_grid((-1, 10, 10), 1)]: the
    first axis has [int(-1.0) + 1 = 0] cells, the grid is empty. *)
Definition empty_grid_in (F : Type) `{PyFloat F} : ThermalSimulator (F:=F) :=
  state_after (initialize_grid (lit (-1), lit 10, lit 10) (lit 1)) (fresh_in F).

(** [ThermalSimulator({"material": {"density": 0.0}})] after
    [initialize_grid((10, 10, 10), 1)] and [add_layer(layer, 5)]. *)
Definition zero_density_config_in (F : Type) `{PyFloat F} : Config (F:=F) :=
  {| time_step := None;
     material := Some {| thermal_conductivity := None; specific_heat := None;
                         density := Some (lit 0) |};
     ambient_temperature := None; convection_coefficient := None;
     extrusion_temperature := None; cooling_rate_threshold := None;
     max_temp_threshold := None |}.

Definition zero_density_in (F : Type) `{PyFloat F} : ThermalSimulator (F:=F) :=
  state_after (add_layer tt 5)
    (state_after (initialize_grid (lit 10, lit 10, lit 10) (lit 1))
       (init (zero_density_config_in F))).

(** [ThermalSimulator({"extrusion_temperature": 25.0})] after
    [initialize_grid((10, 10, 10), 1)] and [add_layer(layer, 5)]: the
    material is laid at the ambient temperature. *)
Definition settled_config_in (F : Type) `{PyFloat F} : Config (F:=F) :=
  {| time_step := None; material := None;
     ambient_temperature := None; convection_coefficient := None;
     extrusion_temperature := Some (lit 25); cooling_rate_threshold := None;
     max_temp_threshold := None |}.

Definition settled_in (F : Type) `{PyFloat F} : ThermalSimulator (F:=F) :=
  state_after (add_layer tt 5)
    (state_after (initialize_grid (lit 10, lit 10, lit 10) (lit 1))
       (init (settled_config_in F))).

(** [ThermalSimulator({"extrusion_temperature": 260.0})] after
    [initialize_grid((10, 10, 10), 1)] and [add_layer(layer, 5)]: the
    material is laid above the default threshold of 250. *)
Definition hot_config_in (F : Type) `{PyFloat F} : Config (F:=F) :=
  {| time_step := None; material := None;
     ambient_temperature := None; convection_coefficient := None;
     extrusion_temperature := Some (lit 260); cooling_rate_threshold := None;
     max_temp_threshold := None |}.

Definition hot_in (F : Type) `{PyFloat F} : ThermalSimulator (F:=F) :=
  state_after (add_layer tt 5)
    (state_after (initialize_grid (lit 10, lit 10, lit 10) (lit 1))
       (init (hot_config_in F))).

Definition empty_grid : ThermalSimulator (F:=Qc) := empty_grid_in Qc.
Definition zero_density : ThermalSimulator (F:=Qc) := zero_density_in Qc.

(** * Properties *)

(** ** Ranges and indices *)

Lemma elem_of_range (a b x : Z) : x ∈ range a b ↔ a ≤ x < b.
Proof.
  unfold range. rewrite list_elem_of_fmap. split.
  - intros (n & -> & Hn). apply elem_of_seq in Hn. lia.
  - intros Hx. exists (Z.to_nat (x - a)). split; [lia|].
    apply elem_of_seq. lia.
Qed.

Lemma NoDup_range (a b : Z) : NoDup (range a b).
Proof.
  unfold range. apply NoDup_fmap_2; [|apply NoDup_seq].
  intros n m Hnm. lia.
Qed.

Lemma range_empty (a b : Z) : b ≤ a → range a b = [].
Proof. intros Hab. unfold range. replace (Z.to_nat (b - a)) with 0%nat by lia. done. Qed.

Lemma range_cons (a b : Z) : a < b → range a b = a :: range (a + 1) b.
Proof.
  intros Hab. unfold range.
  replace (Z.to_nat (b - a)) with (S (Z.to_nat (b - (a + 1)))) by lia.
  cbn [seq fmap list_fmap]. f_equal; [lia|].
  rewrite <- seq_shift, <- list_fmap_compose.
  apply list_fmap_ext. intros _ n _. simpl. lia.
Qed.

Lemma wrap_index_in_range (n : nat) (z : Z) :
  0 ≤ z < Z.of_nat n → wrap_index n z = Some (Z.to_nat z).
Proof.
  intros Hz. unfold wrap_index.
  destruct (0 <=? z) eqn:E1; [|lia]. destruct (z <? Z.of_nat n) eqn:E2; [done|lia].
Qed.

Lemma wrap_index_wrap (n : nat) (z : Z) :
  - Z.of_nat n ≤ z < 0 → wrap_index n z = wrap_index n (z + Z.of_nat n).
Proof.
  intros Hz. rewrite (wrap_index_in_range n (z + Z.of_nat n)) by lia.
  unfold wrap_index.
  destruct (0 <=? z) eqn:E1; [lia|]. simpl.
  destruct (- Z.of_nat n <=? z) eqn:E2; [|lia]. destruct (z <? 0) eqn:E3; [done|lia].
Qed.

Lemma wrap_index_outside (n : nat) (z : Z) :
  z < - Z.of_nat n ∨ Z.of_nat n ≤ z → wrap_index n z = None.
Proof.
  intros Hz. unfold wrap_index.
  destruct (0 <=? z) eqn:E1, (z <? Z.of_nat n) eqn:E2; simpl; try lia;
    destruct (- Z.of_nat n <=? z) eqn:E3, (z <? 0) eqn:E4; simpl; try lia; done.
Qed.

Lemma norm_index_in_range (n : nat) (z : Z) :
  0 ≤ z < Z.of_nat n → norm_index n z = Ok (Z.to_nat z).
Proof. intros Hz. unfold norm_index. by rewrite wrap_index_in_range. Qed.

Lemma norm_index_wrap (n : nat) (z : Z) :
  - Z.of_nat n ≤ z < 0 → norm_index n z = norm_index n (z + Z.of_nat n).
Proof.
  intros Hz. unfold norm_index. rewrite wrap_index_wrap by done.
  by rewrite wrap_index_in_range by lia.
Qed.

Lemma norm_index_outside (n : nat) (z : Z) :
  z < - Z.of_nat n ∨ Z.of_nat n ≤ z → norm_index n z = Err (index_error z).
Proof. intros Hz. unfold norm_index. by rewrite wrap_index_outside. Qed.

(** ** Arrays *)

Lemma mul_add_inj (n a b c d : nat) :
  (b < n → d < n → a * n + b = c * n + d → a = c ∧ b = d)%nat.
Proof.
  intros Hb Hd Heq.
  assert (a = c) as -> by nia. lia.
Qed.

Lemma pos_inj sh i j k i' j' k' :
  in_range sh i j k → in_range sh i' j' k' →
  pos sh i j k = pos sh i' j' k' → i = i' ∧ j = j' ∧ k = k'.
Proof.
  destruct sh as [[nx ny] nz]. unfold in_range, pos, offset.
  intros (Hi & Hj & Hk) (Hi' & Hj' & Hk') Heq.
  apply mul_add_inj in Heq as [Heq ?]; [|lia..].
  apply mul_add_inj in Heq as [? ?]; [|lia..].
  lia.
Qed.

Lemma pos_lt_size sh i j k : in_range sh i j k → (pos sh i j k < size_of sh)%nat.
Proof.
  destruct sh as [[nx ny] nz]. unfold in_range, pos, offset, size_of.
  intros (Hi & Hj & Hk).
  assert (Z.to_nat i < nx)%nat by lia.
  assert (Z.to_nat j < ny)%nat by lia.
  assert (Z.to_nat k < nz)%nat by lia.
  set (a := Z.to_nat i) in *. set (b := Z.to_nat j) in *.
  set (c := Z.to_nat k) in *. clearbody a b c. clear Hi Hj Hk.
  assert (a * ny + b + 1 ≤ nx * ny)%nat by nia.
  assert ((a * ny + b) * nz + nz ≤ nx * ny * nz)%nat by nia.
  lia.
Qed.

Lemma locate_in_range sh i j k :
  in_range sh i j k → locate sh i j k = Ok (pos sh i j k).
Proof.
  destruct sh as [[nx ny] nz]. intros (Hi & Hj & Hk). unfold locate.
  rewrite !norm_index_in_range by done. done.
Qed.

Lemma in_range_test sh i j k :
  in_range sh i j k →
  (0 <=? i) && (i <? Z.of_nat sh.1.1) && (0 <=? j) && (j <? Z.of_nat sh.1.2)
  && (0 <=? k) && (k <? Z.of_nat sh.2) = true.
Proof.
  destruct sh as [[nx ny] nz]. intros (Hi & Hj & Hk). simpl.
  repeat (apply andb_true_intro; split); lia.
Qed.

Section ArrayLemmas.
Context {A : Type}.
Implicit Types (a : ndarray A) (v : A).

Lemma getitem_lookup a i j k :
  in_range (shape a) i j k →
  getitem a i j k = match data a !! pos (shape a) i j k with
                    | Some x => Ok x
                    | None => Err IndexError
                    end.
Proof. intros Hr. unfold getitem. by rewrite locate_in_range. Qed.

Lemma getitem_in_range a i j k :
  array_wf a → in_range (shape a) i j k → ∃ x, getitem a i j k = Ok x.
Proof.
  intros Hwf Hr. rewrite getitem_lookup by done.
  destruct (lookup_lt_is_Some_2 (data a) (pos (shape a) i j k)) as [x ->]; [|by eexists].
  rewrite Hwf. by apply pos_lt_size.
Qed.

Lemma setitem_in_range a i j k v :
  in_range (shape a) i j k →
  setitem a i j k v = Ok (NdArray (shape a) (<[pos (shape a) i j k := v]> (data a))).
Proof. intros Hr. unfold setitem. by rewrite locate_in_range. Qed.

Lemma setitem_shape a a' i j k v : setitem a i j k v = Ok a' → shape a' = shape a.
Proof.
  unfold setitem. destruct (locate _ _ _ _); simpl; [|done]. by intros [= <-].
Qed.

Lemma setitem_wf a a' i j k v : setitem a i j k v = Ok a' → array_wf a → array_wf a'.
Proof.
  unfold setitem, array_wf. destruct (locate _ _ _ _); simpl; [|done].
  intros [= <-]. simpl. by rewrite length_insert.
Qed.

Lemma getitem_setitem_eq a a' i j k v :
  array_wf a → in_range (shape a) i j k →
  setitem a i j k v = Ok a' → getitem a' i j k = Ok v.
Proof.
  intros Hwf Hr. rewrite setitem_in_range by done. intros [= <-].
  rewrite getitem_lookup by done. simpl.
  rewrite list_lookup_insert_eq; [done|].
  rewrite Hwf. by apply pos_lt_size.
Qed.

Lemma getitem_setitem_ne a a' i j k i' j' k' v :
  in_range (shape a) i j k → in_range (shape a) i' j' k' →
  (i', j', k') ≠ (i, j, k) →
  setitem a i j k v = Ok a' → getitem a' i' j' k' = getitem a i' j' k'.
Proof.
  intros Hr Hr' Hne. rewrite setitem_in_range by done. intros [= <-].
  rewrite !getitem_lookup by done. simpl.
  rewrite list_lookup_insert_ne; [done|].
  intros Heq. apply pos_inj in Heq as (-> & -> & ->); done.
Qed.

Lemma setitem_wrap a i j k v :
  - Z.of_nat (shape a).2 ≤ k < 0 →
  setitem a i j k v = setitem a i j (k + Z.of_nat (shape a).2) v.
Proof.
  intros Hk. unfold setitem, locate. destruct (shape a) as [[nx ny] nz].
  simpl in Hk. by rewrite (norm_index_wrap nz k).
Qed.

Lemma setitem_outside a i j k v :
  0 ≤ i < Z.of_nat (shape a).1.1 → 0 ≤ j < Z.of_nat (shape a).1.2 →
  k < - Z.of_nat (shape a).2 ∨ Z.of_nat (shape a).2 ≤ k →
  setitem a i j k v = Err (index_error k).
Proof.
  intros Hi Hj Hk. unfold setitem, locate. destruct (shape a) as [[nx ny] nz].
  simpl in Hi, Hj, Hk. rewrite (norm_index_outside nz k) by done.
  by rewrite !norm_index_in_range by done.
Qed.

(** The shapes numpy allocates: no dimension is negative, and the size
    in bytes, a dimension 0 counting as 1, is below [2 ^ 63]. *)
Lemma check_dims_ok nx ny nz :
  0 ≤ nx → 0 ≤ ny → 0 ≤ nz →
  8 * Z.max 1 nx * Z.max 1 ny * Z.max 1 nz < 2 ^ 63 →
  check_dims 8 [nx; ny; nz] = Ok (8 * Z.max 1 nx * Z.max 1 ny * Z.max 1 nz).
Proof.
  intros Hx Hy Hz Hsize.
  assert (∀ b d, 0 < b → 0 ≤ d → b * Z.max 1 d < 2 ^ 63 →
            ∀ ds, check_dims b (d :: ds) = check_dims (b * Z.max 1 d) ds) as Hstep.
  { intros b d Hb Hd Hlt ds. cbn [check_dims].
    destruct (Z.eqb_spec d 0) as [->|Hne].
    - by rewrite Z.max_l, Z.mul_1_r by lia.
    - destruct (Z.ltb_spec d 0); [lia|]. rewrite Z.max_r in * by lia.
      destruct (Z.leb_spec (2 ^ 63) (b * d)); [lia|done]. }
  assert (0 < 8 * Z.max 1 nx) by lia.
  assert (0 < 8 * Z.max 1 nx * Z.max 1 ny) by lia.
  assert (8 * Z.max 1 nx * Z.max 1 ny < 2 ^ 63) by nia.
  assert (8 * Z.max 1 nx < 2 ^ 63) by nia.
  rewrite !Hstep by (done || lia). done.
Qed.

Lemma np_full_ok `{Machine} nx ny nz (v : A) :
  0 ≤ nx → 0 ≤ ny → 0 ≤ nz →
  8 * Z.max 1 nx * Z.max 1 ny * Z.max 1 nz < 2 ^ 63 →
  allocates nx ny nz = true →
  np_full nx ny nz v =
    Ok (NdArray (Z.to_nat nx, Z.to_nat ny, Z.to_nat nz)
          (replicate (Z.to_nat nx * Z.to_nat ny * Z.to_nat nz) v)).
Proof.
  intros Hx Hy Hz Hsize Hmem. unfold np_full. rewrite Hmem.
  assert (8 * Z.max 1 nx * Z.max 1 ny < 2 ^ 63) by nia.
  assert (8 * Z.max 1 nx < 2 ^ 63) by nia.
  assert (nx < 2 ^ 63 ∧ ny < 2 ^ 63 ∧ nz < 2 ^ 63) as (? & ? & ?) by nia.
  assert (fits_intp nx && fits_intp ny && fits_intp nz = true) as ->.
  { unfold fits_intp. rewrite !andb_true_iff, !Z.leb_le, !Z.ltb_lt. lia. }
  cbn [negb]. by rewrite check_dims_ok by done.
Qed.

Lemma check_dims_inv nx ny nz b :
  check_dims 8 [nx; ny; nz] = Ok b →
  0 ≤ nx ∧ 0 ≤ ny ∧ 0 ≤ nz ∧
  8 * Z.max 1 nx * Z.max 1 ny * Z.max 1 nz < 2 ^ 63.
Proof.
  cbn [check_dims].
  destruct (Z.eqb_spec nx 0) as [->|Hx].
  - destruct (Z.eqb_spec ny 0) as [->|Hy].
    + destruct (Z.eqb_spec nz 0) as [->|Hz]; [intros _; lia|].
      destruct (Z.ltb_spec nz 0); [done|].
      destruct (Z.leb_spec (2 ^ 63) (8 * nz)); [done|]. intros _.
      rewrite !(Z.max_l 1 0), (Z.max_r 1 nz) by lia. lia.
    + destruct (Z.ltb_spec ny 0); [done|].
      destruct (Z.leb_spec (2 ^ 63) (8 * ny)); [done|].
      destruct (Z.eqb_spec nz 0) as [->|Hz].
      * intros _. rewrite !(Z.max_l 1 0), (Z.max_r 1 ny) by lia. lia.
      * destruct (Z.ltb_spec nz 0); [done|].
        destruct (Z.leb_spec (2 ^ 63) (8 * ny * nz)); [done|]. intros _.
        rewrite (Z.max_l 1 0), (Z.max_r 1 ny), (Z.max_r 1 nz) by lia. lia.
  - destruct (Z.ltb_spec nx 0); [done|].
    destruct (Z.leb_spec (2 ^ 63) (8 * nx)); [done|].
    rewrite (Z.max_r 1 nx) by lia.
    destruct (Z.eqb_spec ny 0) as [->|Hy].
    + destruct (Z.eqb_spec nz 0) as [->|Hz].
      * intros _. rewrite !(Z.max_l 1 0) by lia. lia.
      * destruct (Z.ltb_spec nz 0); [done|].
        destruct (Z.leb_spec (2 ^ 63) (8 * nx * nz)); [done|]. intros _.
        rewrite (Z.max_l 1 0), (Z.max_r 1 nz) by lia. lia.
    + destruct (Z.ltb_spec ny 0); [done|].
      destruct (Z.leb_spec (2 ^ 63) (8 * nx * ny)); [done|].
      rewrite (Z.max_r 1 ny) by lia.
      destruct (Z.eqb_spec nz 0) as [->|Hz].
      * intros _. rewrite (Z.max_l 1 0) by lia. lia.
      * destruct (Z.ltb_spec nz 0); [done|].
        destruct (Z.leb_spec (2 ^ 63) (8 * nx * ny * nz)); [done|]. intros _.
        rewrite (Z.max_r 1 nz) by lia. lia.
Qed.

Lemma np_full_inv `{Machine} nx ny nz (v : A) a :
  np_full nx ny nz v = Ok a →
  0 ≤ nx ∧ 0 ≤ ny ∧ 0 ≤ nz ∧
  8 * Z.max 1 nx * Z.max 1 ny * Z.max 1 nz < 2 ^ 63 ∧
  allocates nx ny nz = true.
Proof.
  unfold np_full. destruct (negb _); [done|].
  destruct (check_dims 8 [nx; ny; nz]) as [b|e] eqn:Hdims; [|done]. res_simpl.
  destruct (allocates nx ny nz); [|done].
  intros _. apply check_dims_inv in Hdims. by repeat split; try apply Hdims.
Qed.
End ArrayLemmas.

(** ** One diffusion step over the grid *)

Section Diffusion.
Context {F : Type} `{PyFloat F}.
Variables (dt conductivity heat rho ambient_temp convection_coeff : F).
Variables (g : ndarray Z) (T : ndarray F) (sh : nat * nat * nat).

Hypothesis g_shape : shape g = sh.
Hypothesis T_shape : shape T = sh.
Hypothesis g_wf : array_wf g.
Hypothesis T_wf : array_wf T.
Hypothesis divisor_nonzero : feqb (rho * heat)%F (lit 0) = false.

Local Abbreviation nx := (Z.of_nat sh.1.1).
Local Abbreviation ny := (Z.of_nat sh.1.2).
Local Abbreviation nz := (Z.of_nat sh.2).
Local Abbreviation target :=
  (cell_target dt conductivity heat rho ambient_temp convection_coeff g T sh).
Local Abbreviation step_written :=
  (written dt conductivity heat rho ambient_temp convection_coeff g T sh).

Lemma interior_in_range i j k di dj dk :
  interior sh i j k → -1 ≤ di ≤ 1 → -1 ≤ dj ≤ 1 → -1 ≤ dk ≤ 1 →
  in_range sh (i + di) (j + dj) (k + dk).
Proof using Type.
  unfold interior, in_range. clear g_shape T_shape.
  destruct sh as [[a b] c]. simpl. lia.
Qed.

Lemma interior_in_range0 i j k : interior sh i j k → in_range sh i j k.
Proof using Type.
  intros Hi. generalize (interior_in_range i j k 0 0 0 Hi).
  rewrite !Z.add_0_r. intros Hr. apply Hr; lia.
Qed.

Lemma surface_scan_total i j k ds :
  (∀ d, d ∈ ds → in_range sh (i + d.1.1) (j + d.1.2) (k + d.2)) →
  ∃ b, surface_scan g nx ny nz i j k ds = Ok b ∧
       (b = true ↔ ∃ d gv, d ∈ ds ∧
          getitem g (i + d.1.1) (j + d.1.2) (k + d.2) = Ok gv ∧ is_air gv = true).
Proof using g_shape g_wf.
  clear T_shape T_wf divisor_nonzero.
  induction ds as [|[[di dj] dk] ds IH]; intros Hds.
  - exists false. split; [done|]. split; [done|].
    intros (d & gv & Hd & _). by apply elem_of_nil in Hd.
  - assert (in_range sh (i + di) (j + dj) (k + dk)) as Hr.
    { apply (Hds (di, dj, dk)). left. }
    destruct IH as (b & Hb & Hiff).
    { intros d Hd. apply Hds. by right. }
    destruct (getitem_in_range g (i + di) (j + dj) (k + dk)) as [gv Hgv];
      [done|by rewrite g_shape|].
    cbn [surface_scan].
    rewrite (in_range_test _ _ _ _ Hr).
    rewrite Hgv. simpl. destruct (is_air gv) eqn:Hair.
    + exists true. split; [done|]. split; [|done]. intros _.
      exists (di, dj, dk), gv. split; [left|done].
    + exists b. split; [done|]. rewrite Hiff. split.
      * intros (d & gv' & Hd & Hget & Ha). exists d, gv'. split; [by right|done].
      * intros (d & gv' & Hd & Hget & Ha).
        apply elem_of_cons in Hd as [->|Hd]; [|by exists d, gv'].
        simpl in Hget. rewrite Hgv in Hget. congruence.
Qed.

Lemma neighbours_in_range i j k d :
  interior sh i j k → d ∈ neighbour_offsets →
  in_range sh (i + d.1.1) (j + d.1.2) (k + d.2).
Proof using Type.
  intros Hi Hd. unfold neighbour_offsets in Hd.
  repeat (apply elem_of_cons in Hd as [->|Hd]);
    [apply interior_in_range; simpl; (done || lia)..|].
  by apply elem_of_nil in Hd.
Qed.

Lemma cell_target_total i j k :
  interior sh i j k → ∃ v, target i j k = Ok v.
Proof.
  intros Hi. unfold cell_target.
  assert (∀ di dj dk, -1 ≤ di ≤ 1 → -1 ≤ dj ≤ 1 → -1 ≤ dk ≤ 1 →
          ∃ x, getitem T (i + di) (j + dj) (k + dk) = Ok x) as Hget.
  { intros. apply getitem_in_range; [done|]. rewrite T_shape.
    by apply interior_in_range. }
  destruct (Hget 1 0 0) as [t1 H1]; [lia..|].
  destruct (Hget (-1) 0 0) as [t2 H2]; [lia..|].
  destruct (Hget 0 1 0) as [t3 H3]; [lia..|].
  destruct (Hget 0 (-1) 0) as [t4 H4]; [lia..|].
  destruct (Hget 0 0 1) as [t5 H5]; [lia..|].
  destruct (Hget 0 0 (-1)) as [t6 H6]; [lia..|].
  destruct (Hget 0 0 0) as [c Hc]; [lia..|].
  rewrite ?Z.add_0_r in *. change (i + -1) with (i - 1) in H2.
  change (j + -1) with (j - 1) in H4. change (k + -1) with (k - 1) in H6.
  rewrite H1, H2, H3, H4, H5, H6, Hc. res_simpl.
  unfold pydiv. rewrite divisor_nonzero. res_simpl.
  destruct (surface_scan_total i j k neighbour_offsets) as (b & -> & _).
  { intros d. by apply neighbours_in_range. }
  res_simpl. by eexists.
Qed.

Lemma written_start : step_written (λ _ _ _, False) T.
Proof. repeat split; done. Qed.

Lemma written_iff (V V' : Z → Z → Z → Prop) nt :
  (∀ i j k, V i j k ↔ V' i j k) → step_written V nt → step_written V' nt.
Proof.
  intros HV (Hs & Hwf & Hcells). repeat split; try done.
  - intros HV'. by apply Hcells, HV.
  - intros HV'. apply Hcells; [done|]. by rewrite HV.
  - by apply Hcells.
Qed.

Lemma update_cell_written V nt i j k :
  step_written V nt → interior sh i j k → ¬ V i j k →
  ∃ nt', update_cell dt conductivity heat rho ambient_temp convection_coeff
           g T nx ny nz nt i j k = Ok nt' ∧
         step_written (λ i' j' k', V i' j' k' ∨ (i', j', k') = (i, j, k)) nt'.
Proof.
  intros (Hs & Hwf & Hcells) Hint HnV.
  pose proof (interior_in_range0 i j k Hint) as Hr.
  destruct (getitem_in_range g i j k) as [gv Hgv]; [done|by rewrite g_shape|].
  destruct (Hcells i j k Hr) as (_ & Hold & _). specialize (Hold HnV).
  unfold update_cell. rewrite Hgv. res_simpl.
  destruct (is_material gv) eqn:Hmat.
  - destruct (cell_target_total i j k Hint) as [v Hv].
    pose proof Hv as Hv'. unfold target in Hv'.
    destruct (getitem T (i + 1) j k) as [t1|]; [|done].
    destruct (getitem T (i - 1) j k) as [t2|]; [|done].
    destruct (getitem T i (j + 1) k) as [t3|]; [|done].
    destruct (getitem T i (j - 1) k) as [t4|]; [|done].
    destruct (getitem T i j (k + 1)) as [t5|]; [|done].
    destruct (getitem T i j (k - 1)) as [t6|]; [|done].
    destruct (getitem T i j k) as [c|] eqn:Hc; [|done].
    revert Hv'. res_simpl.
    destruct (pydiv conductivity (rho * heat)%F) as [alpha|]; [|done]. res_simpl.
    rewrite Hold. res_simpl.
    destruct (surface_scan g nx ny nz i j k neighbour_offsets) as [b|]; [|done].
    res_simpl. intros [= Hv'].
    rewrite (setitem_in_range nt) by (by rewrite Hs). res_simpl.
    set (nt1 := NdArray (shape nt) _).
    assert (shape nt1 = sh) as Hs1 by done.
    assert (array_wf nt1) as Hwf1.
    { unfold array_wf, nt1. simpl. by rewrite length_insert. }
    assert (getitem nt1 i j k = Ok (c + alpha * dt *
              (t1 + t2 + t3 + t4 + t5 + t6 - of_int 6 * c))%F) as Hget1.
    { apply (getitem_setitem_eq nt); [done|by rewrite Hs|].
      by rewrite setitem_in_range by (by rewrite Hs). }
    assert (∀ i' j' k', in_range sh i' j' k' → (i', j', k') ≠ (i, j, k) →
              getitem nt1 i' j' k' = getitem nt i' j' k') as Hne1.
    { intros i' j' k' Hr' Hne.
      eapply (getitem_setitem_ne nt nt1 i j k); [by rewrite Hs..|done|].
      by rewrite setitem_in_range by (by rewrite Hs). }
    assert (∃ nt', (if b then
                      old' ← getitem nt1 i j k;
                      setitem nt1 i j k
                        (old' + convection_coeff * (ambient_temp - c) * dt / (rho * heat))%F
                    else mret nt1) = Ok nt' ∧ shape nt' = sh ∧ array_wf nt' ∧
                   getitem nt' i j k = Ok v ∧
                   ∀ i' j' k', in_range sh i' j' k' → (i', j', k') ≠ (i, j, k) →
                     getitem nt' i' j' k' = getitem nt i' j' k') as (nt' & -> & Hs' & Hwf' & Hv'' & Hne).
    { destruct b.
      - res_simpl. rewrite Hget1. res_simpl.
        destruct (setitem nt1 i j k v) as [nt'|] eqn:Hset.
        2:{ rewrite setitem_in_range in Hset by (by rewrite Hs1). done. }
        subst v. exists nt'. split; [done|].
        split; [by rewrite (setitem_shape _ _ _ _ _ _ Hset)|].
        split; [by eapply setitem_wf|].
        split; [apply (getitem_setitem_eq nt1); [done|by rewrite Hs1|done]|].
        intros i' j' k' Hr' Hne. rewrite <- Hne1 by done.
        eapply (getitem_setitem_ne nt1 nt' i j k); [by rewrite Hs1..|done|done].
      - exists nt1. subst v. by do 4 (split; [done|]). }
    exists nt'. split; [done|]. split; [done|]. split; [done|].
    intros i' j' k' Hr'.
    destruct (decide ((i', j', k') = (i, j, k))) as [[= -> -> ->]|Hne'].
    + split; [|split].
      * intros _ gv' Hgv' _. by exists v.
      * intros Hn. exfalso. apply Hn. by right.
      * intros gv' Hgv'. rewrite Hgv in Hgv'. congruence.
    + rewrite Hne by done. destruct (Hcells i' j' k' Hr') as (H1 & H2 & H3).
      split; [|split].
      * intros [HV|Heq]; [by apply H1|done].
      * intros Hn. apply H2. intros HV. apply Hn. by left.
      * done.
  - exists nt. split; [done|]. split; [done|]. split; [done|].
    intros i' j' k' Hr'. destruct (Hcells i' j' k' Hr') as (H1 & H2 & H3).
    split; [|split].
    + intros [HV|[= -> -> ->]]; [by apply H1|].
      intros gv' Hgv'. rewrite Hgv in Hgv'. congruence.
    + intros Hn. apply H2. intros HV. apply Hn. by left.
    + done.
Qed.

(** A loop whose body visits, at key [x], the cells [cells x]. *)
Lemma foldM_written {K} (cells : K → Z → Z → Z → Prop)
    (body : ndarray F → K → res (ndarray F)) (l : list K) :
  NoDup l →
  (∀ x y i j k, cells x i j k → cells y i j k → x = y) →
  (∀ V nt x, x ∈ l → step_written V nt → (∀ i j k, cells x i j k → ¬ V i j k) →
     ∃ nt', body nt x = Ok nt' ∧
            step_written (λ i j k, V i j k ∨ cells x i j k) nt') →
  ∀ V nt, step_written V nt → (∀ x i j k, x ∈ l → cells x i j k → ¬ V i j k) →
    ∃ nt', foldM body nt l = Ok nt' ∧
           step_written (λ i j k, V i j k ∨ ∃ x, x ∈ l ∧ cells x i j k) nt'.
Proof.
  intros Hnd Hinj. induction Hnd as [|x l Hx Hnd IH]; intros Hbody V nt Hw Hfresh.
  - exists nt. split; [done|]. eapply written_iff; [|done].
    intros i j k. split; [by left|]. intros [?|(x & Hx & _)]; [done|].
    by apply elem_of_nil in Hx.
  - destruct (Hbody V nt x) as (nt1 & Hb1 & Hw1); [left|done|intros i j k; apply Hfresh; left|].
    destruct IH with (V := λ i j k, V i j k ∨ cells x i j k) (nt := nt1)
      as (nt' & Hf & Hw'); [|done|..].
    + intros V' nt'' y Hy. apply Hbody. by right.
    + intros y i j k Hy Hc [HV|Hcx].
      * eapply Hfresh; [by right|done..].
      * rewrite (Hinj _ _ _ _ _ Hc Hcx) in Hy. done.
    + exists nt'. simpl. rewrite Hb1. res_simpl. split; [done|].
      eapply written_iff; [|done]. intros i j k. simpl. split.
      * intros [[HV|Hcx]|(y & Hy & Hcy)]; [by left|right..].
        -- exists x. split; [left|done].
        -- exists y. split; [by right|done].
      * intros [HV|(y & Hy & Hcy)]; [by left; left|].
        apply elem_of_cons in Hy as [->|Hy]; [by left; right|].
        right. by exists y.
Qed.

(** The three loops together. *)
Lemma diffuse_written :
  ∃ T', diffuse dt conductivity heat rho ambient_temp convection_coeff
          g T nx ny nz T = Ok T' ∧
        step_written (interior sh) T'.
Proof.
  unfold diffuse.
  destruct (foldM_written
    (λ i0 i j k, i = i0 ∧ 1 ≤ j < ny - 1 ∧ 1 ≤ k < nz - 1)
    (λ nt i, foldM (λ nt j, foldM (λ nt k,
       update_cell dt conductivity heat rho ambient_temp convection_coeff
         g T nx ny nz nt i j k) nt (range 1 (nz - 1))) nt (range 1 (ny - 1)))
    (range 1 (nx - 1))) with (V := λ _ _ _ : Z, False) (nt := T)
    as (T' & HT' & Hw).
  - apply NoDup_range.
  - intros x y i j k [-> _] [-> _]. done.
  - intros V nt i0 Hi0 Hw Hfresh. apply elem_of_range in Hi0.
    destruct (foldM_written
      (λ j0 i j k, i = i0 ∧ j = j0 ∧ 1 ≤ k < nz - 1)
      (λ nt j, foldM (λ nt k,
         update_cell dt conductivity heat rho ambient_temp convection_coeff
           g T nx ny nz nt i0 j k) nt (range 1 (nz - 1)))
      (range 1 (ny - 1))) with (V := V) (nt := nt) as (nt' & Hnt' & Hw').
    + apply NoDup_range.
    + intros x y i j k (_ & -> & _) (_ & -> & _). done.
    + intros V1 nt1 j0 Hj0 Hw1 Hfresh1. apply elem_of_range in Hj0.
      destruct (foldM_written
        (λ k0 i j k, i = i0 ∧ j = j0 ∧ k = k0)
        (λ nt k, update_cell dt conductivity heat rho ambient_temp convection_coeff
           g T nx ny nz nt i0 j0 k)
        (range 1 (nz - 1))) with (V := V1) (nt := nt1) as (nt2 & Hnt2 & Hw2).
      * apply NoDup_range.
      * intros x y i j k (_ & _ & ->) (_ & _ & ->). done.
      * intros V2 nt2 k0 Hk0 Hw2 Hfresh2. apply elem_of_range in Hk0.
        destruct (update_cell_written V2 nt2 i0 j0 k0) as (nt3 & Hnt3 & Hw3);
          [done|done|by apply Hfresh2|].
        exists nt3. split; [done|]. eapply written_iff; [|done].
        intros i j k. simpl. split.
        -- intros [?|[= -> -> ->]]; [by left|by right].
        -- intros [?|(-> & -> & ->)]; [by left|by right].
      * done.
      * intros k0 i j k Hk0 (-> & -> & ->). apply elem_of_range in Hk0.
        by apply Hfresh1.
      * exists nt2. split; [done|]. eapply written_iff; [|done].
        intros i j k. simpl. split.
        -- intros [?|(k0 & Hk0 & -> & -> & ->)]; [by left|]. right.
           by apply elem_of_range in Hk0.
        -- intros [?|(-> & -> & Hk)]; [by left|]. right. exists k.
           by rewrite elem_of_range.
    + done.
    + intros j0 i j k Hj0 (-> & -> & Hk). apply elem_of_range in Hj0.
      by apply Hfresh.
    + exists nt'. split; [done|]. eapply written_iff; [|done].
      intros i j k. simpl. split.
      * intros [?|(j0 & Hj0 & -> & -> & Hk)]; [by left|]. right.
        by apply elem_of_range in Hj0.
      * intros [?|(-> & Hj & Hk)]; [by left|]. right. exists j.
        by rewrite elem_of_range.
  - apply written_start.
  - by intros ?????? [].
  - exists T'. split; [done|]. eapply written_iff; [|done].
    intros i j k. unfold interior. simpl. split.
    + intros [[]|(i0 & Hi0 & -> & Hj & Hk)]. by apply elem_of_range in Hi0.
    + intros (Hi & Hj & Hk). right. exists i. by rewrite elem_of_range.
Qed.
End Diffusion.

(** ** The stepping operation as a whole *)

Section StepFacts.
Context {F : Type} `{PyFloat F}.
Implicit Types (self : ThermalSimulator (F:=F)) (cfg : Config (F:=F)).

Lemma take_sample_ok now amb (g : ndarray Z) (T : ndarray F) :
  data T ≠ [] → shape T = shape g →
  ∃ mx mn, np_max (data T) = Ok mx ∧ np_min (data T) = Ok mn ∧
    take_sample now amb g T =
      Ok {| sample_time := now; max_temp := mx; min_temp := mn;
            avg_temp := if any_material g then np_mean (material_cells T g)
                        else amb |}.
Proof.
  intros Hne Hsh. unfold take_sample.
  destruct (data T) as [|x l] eqn:Hd; [done|].
  exists (fold_left np_maximum l x), (fold_left np_minimum l x).
  split; [done|]. split; [done|]. cbn [np_max np_min]. res_simpl.
  unfold select_material. rewrite decide_True by done.
  by destruct (any_material g).
Qed.

Lemma simulate_step_unfold self g T :
  initialized self g T → divisor_ok (config self) →
  let cfg := config self in
  ∃ T', diffuse (dt_of cfg) (conductivity_of cfg) (heat_of cfg) (rho_of cfg)
          (ambient_of cfg) (convection_of cfg) g T
          (Z.of_nat (shape g).1.1) (Z.of_nat (shape g).1.2) (Z.of_nat (shape g).2) T
        = Ok T' ∧
    written (dt_of cfg) (conductivity_of cfg) (heat_of cfg) (rho_of cfg)
      (ambient_of cfg) (convection_of cfg) g T (shape g) (interior (shape g)) T' ∧
    simulate_step self =
      if Z.of_nat (length (history self)) mod 10 =? 0
      then match take_sample (time self + dt_of cfg)%F (ambient_of cfg) g T' with
           | Ok entry =>
             Return tt (set_history (history self ++ [entry]) (stepped self T'))
           | Err e => Raise e (stepped self T')
           end
      else Return tt (stepped self T').
Proof.
  intros (Hg & HT & Hsh & Hgwf & HTwf) Hdiv cfg.
  destruct (diffuse_written (dt_of cfg) (conductivity_of cfg) (heat_of cfg)
              (rho_of cfg) (ambient_of cfg) (convection_of cfg) g T (shape g))
    as (T' & HT' & Hw); [done..|].
  exists T'. split; [done|]. split; [done|].
  unfold simulate_step, mbind, M_bind, get_self. rewrite Hg, HT.
  destruct (shape g) as [[nx ny] nz] eqn:Hshape. simpl in HT'.
  fold cfg. fold (dt_of cfg) (conductivity_of cfg) (heat_of cfg) (rho_of cfg)
    (ambient_of cfg) (convection_of cfg).
  unfold lift at 1. rewrite HT'. unfold modify. cbn [history set_time set_temperature time].
  destruct (Z.of_nat (length (history self)) mod 10 =? 0); [|done].
  unfold lift. fold (dt_of cfg).
  by destruct (take_sample _ _ _ _).
Qed.
End StepFacts.

Lemma with_grid_initialized :
  initialized with_grid (the_grid with_grid) (the_temperature with_grid).
Proof. repeat split; vm_compute; reflexivity. Qed.

Lemma with_layer_initialized :
  initialized with_layer (the_grid with_layer) (the_temperature with_layer).
Proof. repeat split; vm_compute; reflexivity. Qed.

Lemma default_divisor_ok : divisor_ok default_config.
Proof. reflexivity. Qed.

(** ** Uninitialized use *)

(** C9. On a simulator whose grid (or temperature field) was never
    allocated, [simulate_step] raises [ValueError("Grid not initialized")]
    (the error the specification calls GridNotInitialized) and the
    simulator is left exactly as it was: grid, temperature, clock and
    history are untouched. *)
Theorem simulate_step_uninitialized {F} `{PyFloat F} (self : ThermalSimulator (F:=F)) :
  grid self = None ∨ temperature self = None →
  simulate_step self = Raise (ValueError "Grid not initialized") self.
Proof.
  intros Hnone. unfold simulate_step, mbind, M_bind, get_self.
  destruct (grid self) as [g|], (temperature self) as [T|];
    try done; by destruct Hnone.
Qed.

Lemma simulate_step_uninitialized_fresh :
  simulate_step fresh = Raise (ValueError "Grid not initialized") fresh
  ∧ grid fresh = None ∧ temperature fresh = None.
Proof.
  split; [|split; reflexivity].
  apply (simulate_step_uninitialized fresh). left. reflexivity.
Defined.

(** ** The update of an interior material cell *)

Section CellUpdate.
Context {F : Type} `{PyFloat F}.
Implicit Types (self : ThermalSimulator (F:=F)).

Lemma initialized_nonempty self g T i j k :
  initialized self g T → in_range (shape g) i j k → data T ≠ [].
Proof.
  intros (_ & _ & Hsh & _ & HTwf) Hr Hnil.
  apply pos_lt_size in Hr. rewrite <- Hsh, <- HTwf, Hnil in Hr. simpl in Hr. lia.
Qed.

Lemma written_nonempty dt cd ht rho amb cv g (T T' : ndarray F) V :
  written dt cd ht rho amb cv g T (shape g) V T' → array_wf T → shape T = shape g →
  data T ≠ [] → data T' ≠ [].
Proof.
  intros (Hs & Hwf & _) HTwf Hsh Hne Hnil. apply Hne.
  apply length_zero_iff_nil. rewrite HTwf, Hsh, <- Hs, <- Hwf, Hnil. done.
Qed.

(** The step returns on an initialized simulator with at least one
    cell whose configuration has a non-zero [density * specific_heat]. *)
Lemma simulate_step_returns self g T :
  initialized self g T → divisor_ok (config self) → data T ≠ [] →
  let cfg := config self in
  ∃ T' self',
    simulate_step self = Return tt self' ∧
    written (dt_of cfg) (conductivity_of cfg) (heat_of cfg) (rho_of cfg)
      (ambient_of cfg) (convection_of cfg) g T (shape g) (interior (shape g)) T' ∧
    initialized self' g T' ∧ data T' ≠ [] ∧
    config self' = cfg ∧ time self' = (time self + dt_of cfg)%F ∧
    if Z.of_nat (length (history self)) mod 10 =? 0
    then ∃ mx mn, np_max (data T') = Ok mx ∧ np_min (data T') = Ok mn ∧
           history self' = history self ++
             [{| sample_time := time self'; max_temp := mx; min_temp := mn;
                 avg_temp := if any_material g
                             then np_mean (material_cells T' g)
                             else ambient_of cfg |}]
    else history self' = history self.
Proof.
  intros Hinit Hdiv Hne cfg.
  destruct (simulate_step_unfold self g T Hinit Hdiv) as (T' & _ & Hw & Hstep).
  fold cfg in Hw, Hstep.
  destruct Hinit as (Hg & HT & Hsh & Hgwf & HTwf).
  pose proof (written_nonempty _ _ _ _ _ _ _ _ _ _ Hw HTwf Hsh Hne) as Hne'.
  pose proof Hw as (Hs' & Hwf' & _).
  exists T'. rewrite Hstep.
  destruct (Z.of_nat (length (history self)) mod 10 =? 0).
  - destruct (take_sample_ok (time self + dt_of cfg)%F (ambient_of cfg) g T')
      as (mx & mn & Hmx & Hmn & ->); [done..|].
    eexists. split; [done|]. split; [done|].
    split; [by repeat split|]. split; [done|]. split; [done|]. split; [done|].
    by exists mx, mn.
  - eexists. split; [done|]. split; [done|].
    split; [by repeat split|]. by repeat split.
Qed.

(** C2. One call of [simulate_step] on an initialized simulator, at an
    interior cell [(i, j, k)] holding material: with [xp, xm, yp, ym,
    zp, zm] the six axis-adjacent temperatures and [old] the cell's own,
    all read from the field [T] of the previous step, the new field
    holds [old + alpha * dt * laplacian] there, where [laplacian] is
    the six neighbours minus six times [old] and [alpha] is
    [conductivity / (density * specific_heat)]; the convection term
    [convection * (ambient - old) * dt / (density * specific_heat)] is
    added exactly when one of the six neighbours is air. *)
Theorem simulate_step_interior_cell self g T i j k gv :
  initialized self g T → divisor_ok (config self) →
  interior (shape g) i j k →
  getitem g i j k = Ok gv → is_material gv = true →
  let cfg := config self in
  let dt := dt_of cfg in
  let alpha := (conductivity_of cfg / (rho_of cfg * heat_of cfg))%F in
  ∃ self' T' xp xm yp ym zp zm old (surface : bool),
    simulate_step self = Return tt self' ∧ temperature self' = Some T' ∧
    getitem T (i + 1) j k = Ok xp ∧ getitem T (i - 1) j k = Ok xm ∧
    getitem T i (j + 1) k = Ok yp ∧ getitem T i (j - 1) k = Ok ym ∧
    getitem T i j (k + 1) = Ok zp ∧ getitem T i j (k - 1) = Ok zm ∧
    getitem T i j k = Ok old ∧
    (surface = true ↔
       ∃ d gv', d ∈ neighbour_offsets ∧
         getitem g (i + d.1.1) (j + d.1.2) (k + d.2) = Ok gv' ∧ is_air gv' = true) ∧
    let laplacian := (xp + xm + yp + ym + zp + zm - of_int 6 * old)%F in
    getitem T' i j k =
      Ok (if surface
          then (old + alpha * dt * laplacian
                + convection_of cfg * (ambient_of cfg - old) * dt
                  / (rho_of cfg * heat_of cfg))%F
          else (old + alpha * dt * laplacian)%F).
Proof.
  intros Hinit Hdiv Hint Hgv Hmat cfg dt alpha.
  pose proof (interior_in_range0 _ _ _ _ Hint) as Hr.
  destruct (simulate_step_returns self g T Hinit Hdiv) as
    (T' & self' & Hstep & Hw & Hinit' & _); [by eapply initialized_nonempty|].
  destruct Hinit as (Hg & HT & Hsh & Hgwf & HTwf).
  destruct Hw as (_ & _ & Hcells).
  destruct (Hcells i j k Hr) as (Htarget & _).
  destruct (Htarget Hint gv Hgv Hmat) as (v & Hv & Hget).
  unfold cell_target in Hv.
  destruct (getitem T (i + 1) j k) as [xp|]; [|done].
  destruct (getitem T (i - 1) j k) as [xm|]; [|done].
  destruct (getitem T i (j + 1) k) as [yp|]; [|done].
  destruct (getitem T i (j - 1) k) as [ym|]; [|done].
  destruct (getitem T i j (k + 1)) as [zp|]; [|done].
  destruct (getitem T i j (k - 1)) as [zm|]; [|done].
  destruct (getitem T i j k) as [old|]; [|done].
  revert Hv. res_simpl. unfold pydiv. rewrite Hdiv. res_simpl.
  destruct (surface_scan_total g (shape g) eq_refl Hgwf i j k neighbour_offsets)
    as (b & -> & Hb).
  { intros d. by apply neighbours_in_range. }
  res_simpl. intros [= <-].
  exists self', T', xp, xm, yp, ym, zp, zm, old, b.
  destruct Hinit' as (_ & HT' & _).
  by repeat (split; [done|]).
Qed.
End CellUpdate.

Lemma simulate_step_interior_cell_with_layer :
  ∃ self' T',
    simulate_step with_layer = Return tt self' ∧ temperature self' = Some T' ∧
    getitem T' 5 5 5 = Ok (lit (159909 # 800)).
Proof.
  destruct (simulate_step_interior_cell with_layer (the_grid with_layer)
              (the_temperature with_layer) 5 5 5 1)
    as (self' & T' & xp & xm & yp & ym & zp & zm & old & surface & Hstep & HT'
        & Hxp & Hxm & Hyp & Hym & Hzp & Hzm & Hold & Hsurf & Hnew).
  - exact with_layer_initialized.
  - exact default_divisor_ok.
  - vm_compute. repeat split; discriminate.
  - vm_compute. reflexivity.
  - reflexivity.
  - exists self', T'. split; [exact Hstep|]. split; [exact HT'|].
    rewrite Hnew.
    assert (surface = true) as ->.
    { apply Hsurf. exists (1, 0, 0), 0. split; [left|]. split; vm_compute; reflexivity. }
    vm_compute in Hxp, Hxm, Hyp, Hym, Hzp, Hzm, Hold.
    injection Hxp as <-. injection Hxm as <-. injection Hyp as <-.
    injection Hym as <-. injection Hzp as <-. injection Hzm as <-.
    injection Hold as <-.
    f_equal. apply Qc_is_canon. vm_compute. reflexivity.
Defined.

(** ** Repeated steps and the history *)

Section Run.
Context {F : Type} `{PyFloat F}.
Implicit Types (self : ThermalSimulator (F:=F)).

Lemma simulate_step_history self :
  steppable self →
  ∃ self', simulate_step self = Return tt self' ∧ steppable self' ∧
    length (history self') =
      if Z.of_nat (length (history self)) mod 10 =? 0
      then S (length (history self))
      else length (history self).
Proof.
  intros (g & T & Hinit & Hdiv & Hne).
  destruct (simulate_step_returns self g T Hinit Hdiv Hne)
    as (T' & self' & Hstep & _ & Hinit' & Hne' & Hcfg & _ & Hhist).
  exists self'. split; [done|]. split.
  { exists g, T'. by rewrite Hcfg. }
  destruct (Z.of_nat (length (history self)) mod 10 =? 0).
  - destruct Hhist as (mx & mn & _ & _ & ->). rewrite length_app. simpl. lia.
  - by rewrite Hhist.
Qed.

(** Once the length of the history is not a multiple of ten, no later
    step appends to it. *)
Lemma for_each_step_stalled {A} (l : list A) self :
  steppable self → Z.of_nat (length (history self)) mod 10 ≠ 0 →
  ∃ self', for_each l (λ _, simulate_step) self = Return tt self' ∧
    steppable self' ∧ length (history self') = length (history self).
Proof.
  revert self. induction l as [|x l IH]; intros self Hs Hmod.
  - by exists self.
  - destruct (simulate_step_history self Hs) as (self1 & Hstep & Hs1 & Hlen).
    destruct (Z.of_nat (length (history self)) mod 10 =? 0) eqn:E; [lia|].
    destruct (IH self1 Hs1) as (self' & Hrun & Hs' & Hlen'); [by rewrite Hlen|].
    exists self'. cbn [for_each]. unfold mbind, M_bind. rewrite Hstep.
    split; [done|]. split; [done|]. by rewrite Hlen', Hlen.
Qed.

(** C1, as the code behaves. The sample is taken when
    [len(self.history) % 10 == 0], a test on the number of samples and
    not on the number of steps: the first step on an empty history
    appends one sample, the length is then 1, and no later step appends.
    After any [n >= 1] steps the history has exactly one sample, where
    the claim has [floor(n / 10)]. *)
Theorem history_length_after_steps self (n : Z) :
  steppable self → history self = [] → 0 < n →
  ∃ self', run_steps n self = Return tt self' ∧ length (history self') = 1%nat.
Proof.
  intros Hs Hnil Hn. unfold run_steps. rewrite range_cons by done.
  destruct (simulate_step_history self Hs) as (self1 & Hstep & Hs1 & Hlen).
  rewrite Hnil in Hlen. simpl in Hlen.
  destruct (for_each_step_stalled (range (0 + 1) n) self1 Hs1)
    as (self' & Hrun & _ & Hlen'); [by rewrite Hlen|].
  exists self'. cbn [for_each]. unfold mbind, M_bind. rewrite Hstep.
  split; [done|]. by rewrite Hlen'.
Qed.
End Run.

Lemma with_grid_steppable : steppable with_grid.
Proof.
  exists (the_grid with_grid), (the_temperature with_grid).
  split; [exact with_grid_initialized|]. split; [exact default_divisor_ok|].
  vm_compute. discriminate.
Qed.

Lemma history_length_after_37_steps :
  ∃ self', run_steps 37 with_grid = Return tt self'
           ∧ length (history self') = 1%nat
           ∧ 37 / 10 = 3.
Proof.
  destruct (history_length_after_steps with_grid 37) as (self' & Hrun & Hlen).
  - exact with_grid_steppable.
  - reflexivity.
  - lia.
  - exists self'. split; [exact Hrun|]. split; [exact Hlen|]. reflexivity.
Defined.

(** [run_simulation(37)] on the same simulator: the report carries one
    sample, and reports [num_steps = 10]. *)
Example run_simulation_37_steps :
  ∃ r self', run_simulation 37 with_grid = Return r self' ∧
    length (report_history r) = 1%nat ∧ num_steps r = 10.
Proof. do 2 eexists. split; [vm_compute; reflexivity|]. split; reflexivity. Qed.

(** ** The pairwise sum *)

Section PairwiseSum.
Context {F : Type} `{PyFloat F}.

(** The fuel is enough: with at least the length of the list, the sum
    does not depend on it, so the branch without fuel is never taken. *)
Lemma pairwise_sum_fuel (f1 f2 : nat) (l : list F) :
  (length l ≤ f1)%nat → (length l ≤ f2)%nat →
  pairwise_sum f1 l = pairwise_sum f2 l.
Proof.
  revert f2 l. induction f1 as [|f1 IH]; intros f2 l H1 H2.
  - assert (length l = 0%nat) as Hlen by lia.
    destruct f2; cbn [pairwise_sum]; by rewrite Hlen.
  - destruct f2 as [|f2].
    { assert (length l = 0%nat) as Hlen by lia. cbn [pairwise_sum]. by rewrite Hlen. }
    cbn [pairwise_sum].
    destruct (Nat.ltb_spec (length l) 8); [done|].
    destruct (Nat.leb_spec (length l) 128); [done|].
    set (n := length l) in *. set (q := (n / 2)%nat).
    pose proof (Nat.div_mod_eq n 2) as Hdiv. fold q in Hdiv.
    pose proof (Nat.mod_upper_bound n 2).
    pose proof (Nat.mod_upper_bound q 8).
    pose proof (Nat.Div0.mod_le q 8).
    f_equal; apply IH; rewrite ?length_take, ?length_drop; fold n; lia.
Qed.

(** Fewer than 8 cells are added from the left. *)
Lemma np_sum_short (l : list F) :
  (length l < 8)%nat → np_sum l = (lit 0 + fsum l)%F.
Proof.
  intros Hlen. unfold np_sum. f_equal. generalize (length l) at 1. intros f.
  destruct f; cbn [pairwise_sum]; destruct (Nat.ltb_spec (length l) 8); done || lia.
Qed.
End PairwiseSum.

(** ** Order laws and the reductions *)

Section Order.
Context {F : Type} `{PyFloat F}.

Lemma ordered_on_subseteq (l l' : list F) : l' ⊆ l → ordered_on l → ordered_on l'.
Proof.
  intros Hsub (Hrefl & Heq & Hasym & Htrans). split; [|split; [|split]].
  - intros a Ha. apply Hrefl. by apply Hsub.
  - intros a b Ha Hb. apply Heq; by apply Hsub.
  - intros a b Ha Hb. apply Hasym; by apply Hsub.
  - intros a b c Ha Hb Hc. apply Htrans; by apply Hsub.
Qed.

(** A fold that keeps one of its two arguments, the one that is on top
    for a relation reflexive and transitive on the numbers at hand: the
    result is one of the numbers and is on top of all of them. *)
Lemma fold_pick (R : F → F → Prop) (f : F → F → F) (S : list F) :
  (∀ a, a ∈ S → R a a) →
  (∀ a b c, a ∈ S → b ∈ S → c ∈ S → R a b → R b c → R a c) →
  (∀ m x, m ∈ S → x ∈ S → (f m x = m ∧ R m x) ∨ (f m x = x ∧ R x m)) →
  ∀ l x, x ∈ S → l ⊆ S →
    fold_left f l x ∈ x :: l ∧ ∀ y, y ∈ x :: l → R (fold_left f l x) y.
Proof.
  intros Hrefl Htrans Hpick. induction l as [|z l IH]; intros x Hx Hl.
  - simpl. split; [left|]. intros y ->%list_elem_of_singleton. by apply Hrefl.
  - assert (z ∈ S) as Hz by (apply Hl; left).
    assert (l ⊆ S) as Hl' by (intros y Hy; apply Hl; by right).
    assert (x :: l ⊆ S) as Hxl by (intros y [->|Hy]%elem_of_cons; [done|by apply Hl']).
    assert (z :: l ⊆ S) as Hzl by (intros y [->|Hy]%elem_of_cons; [done|by apply Hl']).
    simpl. destruct (Hpick x z Hx Hz) as [[-> Hxz]|[-> Hzx]].
    + destruct (IH x Hx Hl') as [Hin Hub]. split.
      * apply elem_of_cons in Hin as [->|Hin]; [left|by do 2 right].
      * intros y [->|[->|Hy]%elem_of_cons]%elem_of_cons.
        { apply Hub. left. }
        { apply (Htrans _ x); [by apply Hxl|done..|by apply Hub; left|done]. }
        { apply Hub. by right. }
    + destruct (IH z Hz Hl') as [Hin Hub]. split.
      * by right.
      * intros y [->|[->|Hy]%elem_of_cons]%elem_of_cons.
        { apply (Htrans _ z); [by apply Hzl|done..|by apply Hub; left|done]. }
        { apply Hub. left. }
        { apply Hub. by right. }
Qed.

Lemma ordered_on_irrefl (S : list F) a : ordered_on S → a ∈ S → flt a a = false.
Proof. intros (Hrefl & Heq & _) Ha. by apply (Heq a a); [..|apply Hrefl]. Qed.

(** The builtin [max] of a non-empty list. *)
Lemma fold_max_bound (l : list F) (x : F) :
  ordered_on (x :: l) →
  fold_left fmax2 l x ∈ x :: l ∧
  ∀ y, y ∈ x :: l → flt (fold_left fmax2 l x) y = false.
Proof.
  intros Hord. pose proof Hord as (Hrefl & Heq & Hasym & Htrans).
  apply (fold_pick (λ a b, flt a b = false) fmax2 (x :: l)).
  - intros a Ha. by eapply ordered_on_irrefl.
  - done.
  - intros m z Hm Hz. unfold fmax2. destruct (flt m z) eqn:E; [right|by left].
    split; [done|]. by apply Hasym.
  - left.
  - intros y Hy. by right.
Qed.

Lemma np_maximum_pick (S : list F) m x :
  ordered_on S → m ∈ S → x ∈ S →
  (np_maximum m x = m ∧ flt m x = false) ∨ (np_maximum m x = x ∧ flt x m = false).
Proof.
  intros (Hrefl & Heq & Hasym & _) Hm Hx. unfold np_maximum, fge, isnan.
  rewrite (Hrefl m Hm). cbn [negb]. rewrite orb_false_r.
  destruct (flt x m) eqn:E1; cbn [orb].
  - left. split; [done|]. by apply Hasym.
  - destruct (feqb m x) eqn:E2; [left|by right]. split; [done|].
    by destruct (Heq m x Hm Hx E2).
Qed.

Lemma np_minimum_pick (S : list F) m x :
  ordered_on S → m ∈ S → x ∈ S →
  (np_minimum m x = m ∧ flt x m = false) ∨ (np_minimum m x = x ∧ flt m x = false).
Proof.
  intros (Hrefl & Heq & Hasym & _) Hm Hx. unfold np_minimum, fle, isnan.
  rewrite (Hrefl m Hm). cbn [negb]. rewrite orb_false_r.
  destruct (flt m x) eqn:E1; cbn [orb].
  - left. split; [done|]. by apply Hasym.
  - destruct (feqb m x) eqn:E2; [left|by right]. split; [done|].
    by destruct (Heq m x Hm Hx E2).
Qed.

(** [np.max] and [np.min] of numbers that are ordered: a cell of the
    array, which no cell exceeds, or falls below. *)
Lemma np_max_bound (l : list F) (m : F) :
  ordered_on l → np_max l = Ok m →
  m ∈ l ∧ ∀ y, y ∈ l → flt m y = false.
Proof.
  intros Hord. destruct l as [|x l]; [done|]. intros [= <-].
  pose proof Hord as (Hrefl & Heq & Hasym & Htrans).
  apply (fold_pick (λ a b, flt a b = false) np_maximum (x :: l)).
  - intros a Ha. by eapply ordered_on_irrefl.
  - done.
  - intros m z Hm Hz. by apply (np_maximum_pick (x :: l)).
  - left.
  - intros y Hy. by right.
Qed.

Lemma np_min_bound (l : list F) (m : F) :
  ordered_on l → np_min l = Ok m →
  m ∈ l ∧ ∀ y, y ∈ l → flt y m = false.
Proof.
  intros Hord. destruct l as [|x l]; [done|]. intros [= <-].
  pose proof Hord as (Hrefl & Heq & Hasym & Htrans).
  apply (fold_pick (λ a b, flt b a = false) np_minimum (x :: l)).
  - intros a Ha. by eapply ordered_on_irrefl.
  - intros a b c Ha Hb Hc Hab Hbc. by apply (Htrans c b a).
  - intros m z Hm Hz. by apply (np_minimum_pick (x :: l)).
  - left.
  - intros y Hy. by right.
Qed.

(** On a uniform array the first cell is the maximum and the minimum,
    whatever the number is. *)
Lemma fold_max_uniform (l : list F) (a : F) :
  (∀ x, x ∈ l → x = a) → fold_left np_maximum l a = a.
Proof.
  induction l as [|x l IH]; intros Hl; [done|]. simpl.
  rewrite (Hl x) by left. unfold np_maximum at 2.
  destruct (_ || _); apply IH; intros y Hy; apply Hl; by right.
Qed.

Lemma fold_min_uniform (l : list F) (a : F) :
  (∀ x, x ∈ l → x = a) → fold_left np_minimum l a = a.
Proof.
  induction l as [|x l IH]; intros Hl; [done|]. simpl.
  rewrite (Hl x) by left. unfold np_minimum at 2.
  destruct (_ || _); apply IH; intros y Hy; apply Hl; by right.
Qed.
End Order.

Lemma Qc_ordered_on (l : list Qc) : ordered_on l.
Proof.
  split; [|split; [|split]].
  - intros a _. simpl. apply Qeq_bool_iff. reflexivity.
  - intros a b _ _ Heq. simpl in *. apply Qeq_bool_iff in Heq.
    rewrite !negb_false_iff, !Qle_bool_iff, Heq. split; apply Qle_refl.
  - intros a b _ _. simpl. rewrite !negb_true_iff, negb_false_iff.
    intros Hba. apply Qle_bool_iff.
    destruct (Qlt_le_dec b a) as [Hlt|Hle]; [|done].
    apply Qlt_le_weak, Qle_bool_iff in Hlt. congruence.
  - intros a b c _ _ _. simpl. rewrite !negb_false_iff, !Qle_bool_iff.
    intros Hba Hcb. by eapply Qle_trans.
Qed.

(** Two lists of canonical rationals are equal when their fractions are. *)
Lemma Qc_list_eq (l1 l2 : list Qc) : this <$> l1 = this <$> l2 → l1 = l2.
Proof.
  revert l2. induction l1 as [|a l1 IH]; intros [|b l2]; try done.
  intros [= Hab Hl]. f_equal; [by apply Qc_decomp|by apply IH].
Qed.

Lemma Qc_positive_nonzero : positive_nonzero (F:=Qc).
Proof.
  intros a. simpl. rewrite negb_true_iff. intros Hle.
  destruct (Qeq_bool a (Qred 0)) eqn:E; [|done].
  apply Qeq_bool_iff in E. assert (Qle_bool a (Qred 0) = true) as Hle'.
  { apply Qle_bool_iff. rewrite E. apply Qle_refl. }
  congruence.
Qed.

(** ** Loops that leave the buffer alone, and loops that raise *)

Lemma foldM_skip {A B} (body : B → A → res B) (acc : B) (l : list A) :
  (∀ x, x ∈ l → body acc x = Ok acc) → foldM body acc l = Ok acc.
Proof.
  induction l as [|x l IH]; intros Hl; [done|]. simpl.
  rewrite Hl by left. res_simpl. apply IH. intros y Hy. apply Hl. by right.
Qed.

Lemma foldM_raises {A B} (body : B → A → res B) (acc : B) (l : list A) (e : exn) :
  (∀ x, x ∈ l → body acc x = Ok acc ∨ body acc x = Err e) →
  (∃ x, x ∈ l ∧ body acc x = Err e) →
  foldM body acc l = Err e.
Proof.
  induction l as [|x l IH]; intros Hl (y & Hy & Hraise).
  - by apply elem_of_nil in Hy.
  - simpl. destruct (Hl x) as [Hret|Hr]; [left| |by rewrite Hr].
    rewrite Hret. res_simpl. apply IH; [intros z Hz; apply Hl; by right|].
    apply elem_of_cons in Hy as [->|Hy]; [congruence|by exists y].
Qed.

Section StepCases.
Context {F : Type} `{PyFloat F}.
Implicit Types (self : ThermalSimulator (F:=F)).

(** [simulate_step] on a simulator that holds both arrays. *)
Lemma simulate_step_cases self g T :
  grid self = Some g → temperature self = Some T →
  let cfg := config self in
  simulate_step self =
    after_loops self g
      (diffuse (dt_of cfg) (conductivity_of cfg) (heat_of cfg) (rho_of cfg)
         (ambient_of cfg) (convection_of cfg) g T
         (Z.of_nat (shape g).1.1) (Z.of_nat (shape g).1.2) (Z.of_nat (shape g).2) T).
Proof.
  intros Hg HT cfg.
  unfold simulate_step, mbind, M_bind, get_self. rewrite Hg, HT.
  destruct (shape g) as [[nx ny] nz] eqn:Hshape. simpl.
  fold cfg. fold (dt_of cfg) (conductivity_of cfg) (heat_of cfg) (rho_of cfg)
    (ambient_of cfg) (convection_of cfg).
  unfold lift at 1. destruct (diffuse _ _ _ _ _ _ _ _ _ _ _ _) as [T'|e]; [|done].
  unfold after_loops, modify. cbn [history set_time set_temperature time].
  destruct (Z.of_nat (length (history self)) mod 10 =? 0); [|done].
  unfold lift. fold cfg. fold (dt_of cfg) (ambient_of cfg).
  by destruct (take_sample _ _ _ _).
Qed.
End StepCases.

Section StepReturns.
Context {F : Type} `{PyFloat F}.
Implicit Types (self : ThermalSimulator (F:=F)).

(** The loops when no interior cell holds material: no cell is written,
    and no division takes place. *)
Lemma diffuse_air dt cd ht rho amb cv (g : ndarray Z) (T : ndarray F) :
  interior_is_air g →
  diffuse dt cd ht rho amb cv g T
    (Z.of_nat (shape g).1.1) (Z.of_nat (shape g).1.2) (Z.of_nat (shape g).2) T
  = Ok T.
Proof.
  intros Hair. unfold diffuse.
  apply foldM_skip. intros i Hi%elem_of_range.
  apply foldM_skip. intros j Hj%elem_of_range.
  apply foldM_skip. intros k Hk%elem_of_range.
  destruct (Hair i j k) as (gv & Hgv & Hm); [done|].
  unfold update_cell. rewrite Hgv. res_simpl. by rewrite Hm.
Qed.

(** When a step returns. On an initialized simulator with at least
    one cell, [simulate_step] returns when [density * specific_heat] is
    not zero, and also when it is zero and no interior cell holds
    material, no division being reached then. *)
Lemma simulate_step_sample self g T :
  initialized self g T → divisor_ok (config self) ∨ interior_is_air g →
  data T ≠ [] →
  let cfg := config self in
  ∃ T' self',
    simulate_step self = Return tt self' ∧
    initialized self' g T' ∧ data T' ≠ [] ∧
    config self' = cfg ∧ time self' = (time self + dt_of cfg)%F ∧
    if Z.of_nat (length (history self)) mod 10 =? 0
    then ∃ mx mn, np_max (data T') = Ok mx ∧ np_min (data T') = Ok mn ∧
           history self' = history self ++
             [{| sample_time := time self'; max_temp := mx; min_temp := mn;
                 avg_temp := if any_material g
                             then np_mean (material_cells T' g)
                             else ambient_of cfg |}]
    else history self' = history self.
Proof.
  intros Hinit [Hdiv|Hair] Hne cfg.
  - destruct (simulate_step_returns self g T Hinit Hdiv Hne)
      as (T' & self' & Hstep & _ & Hrest).
    by exists T', self'.
  - destruct Hinit as (Hg & HT & Hsh & Hgwf & HTwf).
    exists T. rewrite (simulate_step_cases self g T Hg HT). cbn zeta.
    rewrite diffuse_air by done. unfold after_loops. fold cfg.
    destruct (take_sample_ok (time self + dt_of cfg)%F (ambient_of cfg) g T Hne Hsh)
      as (mx & mn & Hmx & Hmn & ->).
    destruct (_ =? _); eexists; (split; [done|]); (split; [by repeat split|]);
      do 3 (split; [done|]); [|done].
    by exists mx, mn.
Qed.
End StepReturns.

(** ** The order of binary64 *)

Ltac key_case :=
  eexists; split; [reflexivity|]; unfold lex_lt; cbn [sf_key fst snd];
  split;
  (split;
   [ intros Hc; first [discriminate Hc | lia | reflexivity | (repeat f_equal; lia)]
   | intros Hk; first [reflexivity | lia | (injection Hk; intros; lia)] ]).

Lemma SFcompare_key x y :
  x ≠ S754_nan → y ≠ S754_nan →
  ∃ c, SFcompare x y = Some c ∧
    (c = Lt ↔ lex_lt (sf_key x) (sf_key y)) ∧
    (c = Eq ↔ sf_key x = sf_key y).
Proof.
  intros Hx Hy.
  destruct x as [sx|sx| |sx mx ex], y as [sy|sy| |sy my ey]; try done;
    try destruct sx; try destruct sy; cbn [SFcompare];
    try rewrite Pos.compare_cont_spec; cbn [Pos.switch_Eq];
    try (destruct (Z.compare_spec ex ey) as [->| |]);
    try (destruct (Pos.compare_spec mx my) as [->| |]); cbn [CompOpp];
    key_case.
Qed.

Lemma binary64_not_nan (x : float) : feqb x x = true → Prim2SF x ≠ S754_nan.
Proof.
  simpl. rewrite FloatAxioms.eqb_spec. intros Heq Hnan. rewrite Hnan in Heq. discriminate.
Qed.

Lemma binary64_flt_key (x y : float) :
  feqb x x = true → feqb y y = true →
  (flt x y = true ↔ lex_lt (sf_key (Prim2SF x)) (sf_key (Prim2SF y))) ∧
  (feqb x y = true ↔ sf_key (Prim2SF x) = sf_key (Prim2SF y)).
Proof.
  intros Hx%binary64_not_nan Hy%binary64_not_nan. simpl.
  rewrite FloatAxioms.ltb_spec, FloatAxioms.eqb_spec. unfold SFltb, SFeqb.
  destruct (SFcompare_key _ _ Hx Hy) as (c & -> & Hlt & Heq).
  rewrite <- Hlt, <- Heq. by destruct c.
Qed.

(** binary64 numbers are ordered as soon as none of them is NaN. *)
Lemma binary64_ordered_on (l : list float) :
  (∀ x, x ∈ l → feqb x x = true) → ordered_on l.
Proof.
  intros Hnan.
  assert (∀ a b, a ∈ l → b ∈ l →
            (flt a b = false ↔ ¬ lex_lt (sf_key (Prim2SF a)) (sf_key (Prim2SF b))))
    as Hge.
  { intros a b Ha Hb.
    destruct (binary64_flt_key a b (Hnan a Ha) (Hnan b Hb)) as [<- _].
    by destruct (flt a b). }
  split; [done|]. split; [|split].
  - intros a b Ha Hb Heq.
    destruct (binary64_flt_key a b (Hnan a Ha) (Hnan b Hb)) as [_ Hkey].
    apply Hkey in Heq. rewrite (Hge a b), (Hge b a) by done.
    rewrite Heq. unfold lex_lt. lia.
  - intros a b Ha Hb Hlt.
    destruct (binary64_flt_key a b (Hnan a Ha) (Hnan b Hb)) as [Hkey _].
    apply Hkey in Hlt. rewrite (Hge b a) by done. unfold lex_lt in *. lia.
  - intros a b c Ha Hb Hc. rewrite (Hge a b), (Hge b c), (Hge a c) by done.
    unfold lex_lt. lia.
Qed.

Lemma binary64_positive_nonzero : positive_nonzero (F:=float).
Proof.
  intros a Hpos.
  assert (feqb a a = true) as Ha.
  { simpl in *. rewrite FloatAxioms.eqb_spec. rewrite FloatAxioms.ltb_spec in Hpos.
    unfold SFltb, SFeqb in *.
    assert (Prim2SF a ≠ S754_nan) as Hnan.
    { intros Hnan. rewrite Hnan in Hpos. by destruct (Prim2SF 0). }
    destruct (SFcompare_key _ _ Hnan Hnan) as (c & -> & _ & Heq).
    by rewrite (proj2 Heq eq_refl). }
  assert (feqb (lit (F:=float) 0) (lit 0) = true) as H0 by reflexivity.
  destruct (binary64_flt_key (lit 0) a H0 Ha) as [Hlt _].
  destruct (binary64_flt_key a (lit 0) Ha H0) as [_ Heq].
  apply Hlt in Hpos. destruct (feqb a (lit 0)); [|done].
  rewrite (proj1 Heq eq_refl) in Hpos. unfold lex_lt in Hpos. lia.
Qed.

(** ** What a history sample records *)

(** C4, amended. When a step appends a sample (it returns, and the
    history held a multiple of ten samples), the sample records the clock
    after the step, [np.max] and [np.min] of the whole temperature field,
    air cells included, and [np.mean] over the material cells alone, or
    the ambient temperature when the grid has no material. When the
    cells of the field are ordered (none is NaN), the maximum and the
    minimum are cells of the field that bound every cell. *)
Theorem sample_records {F} `{PyFloat F} (self : ThermalSimulator (F:=F)) g T :
  initialized self g T → divisor_ok (config self) ∨ interior_is_air g →
  data T ≠ [] →
  Z.of_nat (length (history self)) mod 10 = 0 →
  ∃ self' T' e,
    simulate_step self = Return tt self' ∧ temperature self' = Some T' ∧
    history self' = history self ++ [e] ∧
    sample_time e = time self' ∧
    np_max (data T') = Ok (max_temp e) ∧
    np_min (data T') = Ok (min_temp e) ∧
    (ordered_on (data T') →
       (max_temp e ∈ data T' ∧ ∀ x, x ∈ data T' → flt (max_temp e) x = false) ∧
       (min_temp e ∈ data T' ∧ ∀ x, x ∈ data T' → flt x (min_temp e) = false)) ∧
    avg_temp e = if any_material g
                 then np_mean (material_cells T' g)
                 else ambient_of (config self).
Proof.
  intros Hinit Hret Hne Hmod.
  destruct (simulate_step_sample self g T Hinit Hret Hne)
    as (T' & self' & Hstep & Hinit' & _ & _ & _ & Hhist).
  apply Z.eqb_eq in Hmod. rewrite Hmod in Hhist.
  destruct Hhist as (mx & mn & Hmx & Hmn & Hhist).
  destruct Hinit' as (_ & HT' & _).
  eexists self', T', _. split; [done|]. split; [done|]. split; [exact Hhist|].
  simpl. do 3 (split; [done|]). split; [|done].
  intros Hord. split; [by apply np_max_bound|by apply np_min_bound].
Qed.

Lemma binary64_with_layer_initialized :
  initialized (with_layer_in float) (the_grid (with_layer_in float))
    (the_temperature (with_layer_in float)).
Proof. repeat split; vm_compute; reflexivity. Qed.

(** The cells of a field, once a run has been evaluated, are checked
    one by one. *)
Lemma binary64_no_nan (l : list float) :
  forallb (λ x : float, feqb x x) l = true → ordered_on l.
Proof.
  intros Hall. apply binary64_ordered_on. intros x Hx%list_elem_of_In.
  exact (proj1 (forallb_forall _ _) Hall x Hx).
Qed.

Lemma sample_records_with_layer :
  ∃ self' T' e,
    simulate_step (with_layer_in float) = Return tt self' ∧
    temperature self' = Some T' ∧ history self' = [e] ∧
    avg_temp e = np_mean (material_cells T' (the_grid (with_layer_in float))) ∧
    max_temp e ∈ data T' ∧ min_temp e ∈ data T'.
Proof.
  destruct (sample_records (with_layer_in float) (the_grid (with_layer_in float))
              (the_temperature (with_layer_in float)))
    as (self' & T' & e & Hstep & HT' & Hhist & _ & _ & _ & Hord & Havg).
  - exact binary64_with_layer_initialized.
  - left. vm_compute. reflexivity.
  - vm_compute. discriminate.
  - vm_compute. reflexivity.
  - exists self', T', e. split; [exact Hstep|]. split; [exact HT'|].
    split; [exact Hhist|]. split; [exact Havg|].
    assert (temperature (state_after simulate_step (with_layer_in float)) = Some T')
      as Hafter by (unfold state_after; rewrite Hstep; exact HT').
    assert (forallb (λ x : float, feqb x x)
              (data (the_temperature (state_after simulate_step (with_layer_in float))))
            = true) as Hall by (vm_compute; reflexivity).
    unfold the_temperature in Hall. rewrite Hafter in Hall.
    destruct (Hord (binary64_no_nan _ Hall)) as [[Hmax _] [Hmin _]].
    split; [exact Hmax|exact Hmin].
Defined.

(** C4 as stated fails: after one step on the simulator holding the
    single deposited cell, the sample's minimum is the ambient 25 of the
    air cells, while the only material cell is at 159909/800 (199.88625);
    the minimum over the occupied cells would be that value. *)
Lemma sample_min_is_not_over_material :
  let self' := state_after simulate_step with_layer in
  simulate_step with_layer = Return tt self' ∧
  (this ∘ min_temp) <$> history self' = [25%Q] ∧
  this <$> material_cells (the_temperature self') (the_grid self') = [159909 # 800] ∧
  (this <$> np_min (material_cells (the_temperature self') (the_grid self')))
    = Ok (159909 # 800) ∧
  ¬ (25 == 159909 # 800)%Q.
Proof.
  repeat split; try (vm_compute; reflexivity).
  intros Heq. vm_compute in Heq. discriminate.
Qed.

(** ** The analysis of the history *)

Section Analysis.
Context {F : Type} `{PyFloat F}.
Implicit Types (self : ThermalSimulator (F:=F)) (h : list (Sample (F:=F))).

Lemma list_getitem_lookup {A} (l : list A) (n : nat) (x : A) :
  l !! n = Some x → list_getitem l (Z.of_nat n) = Ok x.
Proof.
  intros Hl. unfold list_getitem.
  rewrite wrap_index_in_range by (apply lookup_lt_Some in Hl; lia).
  by rewrite Nat2Z.id, Hl.
Qed.

Lemma cooling_rate_at_pair h (m : nat) prev next (acc : list F) :
  positive_nonzero (F:=F) →
  h !! m = Some prev → h !! S m = Some next →
  cooling_rate_at h acc (Z.of_nat (S m)) =
    Ok (acc ++
        let time_diff := (sample_time next - sample_time prev)%F in
        if fgt time_diff (lit 0)
        then [((max_temp prev - max_temp next) / time_diff)%F]
        else []).
Proof.
  intros Hpos Hprev Hnext. unfold cooling_rate_at.
  replace (Z.of_nat (S m) - 1) with (Z.of_nat m) by lia.
  rewrite (list_getitem_lookup h (S m) next), (list_getitem_lookup h m prev) by done.
  res_simpl. cbn zeta.
  destruct (fgt (sample_time next - sample_time prev)%F (lit 0)) eqn:Hgt.
  - unfold pydiv. by rewrite (Hpos _ Hgt).
  - res_simpl. by rewrite app_nil_r.
Qed.

Lemma cooling_rates_from h (m : nat) (acc : list F) :
  positive_nonzero (F:=F) →
  foldM (cooling_rate_at h) acc (range (Z.of_nat m + 1) (Z.of_nat (length h)))
  = Ok (acc ++ pair_rates (drop m h)).
Proof.
  intros Hpos. remember (length h - m)%nat as n eqn:Hn.
  revert m acc Hn. induction n as [|n IH]; intros m acc Hn.
  - rewrite range_empty by lia. rewrite drop_ge by lia. simpl.
    by rewrite app_nil_r.
  - destruct (drop m h) as [|prev rest] eqn:Hdrop.
    { apply (f_equal length) in Hdrop. rewrite length_drop in Hdrop. simpl in Hdrop. lia. }
    assert (h !! m = Some prev) as Hprev.
    { rewrite <- (Nat.add_0_r m), <- lookup_drop, Hdrop. done. }
    assert (drop (S m) h = rest) as Hrest.
    { replace (S m) with (m + 1)%nat by lia. by rewrite <- drop_drop, Hdrop. }
    destruct rest as [|next rest'].
    { apply (f_equal length) in Hrest. rewrite length_drop in Hrest. simpl in Hrest.
      rewrite range_empty by lia. simpl. by rewrite app_nil_r. }
    assert (h !! S m = Some next) as Hnext.
    { rewrite <- (Nat.add_0_r (S m)), <- lookup_drop, Hrest. done. }
    assert (S m < length h)%nat by (by apply lookup_lt_Some in Hnext).
    rewrite range_cons by lia. cbn [foldM].
    replace (Z.of_nat m + 1) with (Z.of_nat (S m)) by lia.
    rewrite (cooling_rate_at_pair h m prev next) by done.
    res_simpl. rewrite (IH (S m)) by lia. rewrite Hrest.
    cbn [pair_rates]. cbn zeta. by rewrite <- app_assoc.
Qed.

(** The loop of [analyze_results] computes exactly those rates. *)
Lemma cooling_rates_of_pairs h :
  positive_nonzero (F:=F) → cooling_rates_of h = Ok (pair_rates h).
Proof.
  intros Hpos. unfold cooling_rates_of.
  apply (cooling_rates_from h 0 [] Hpos).
Qed.

Lemma pair_rates_short h : (length h < 2)%nat → pair_rates h = [].
Proof. destruct h as [|a [|b h]]; simpl; (done || lia). Qed.

(** [analyze_results] on an initialized simulator with at least one
    cell: it returns, leaves the simulator as it is, and its report is
    the following. *)
Lemma analyze_results_returns self g T :
  initialized self g T → data T ≠ [] → positive_nonzero (F:=F) →
  ∃ mx mn,
    np_max (data T) = Ok mx ∧ np_min (data T) = Ok mn ∧
    analyze_results self =
      Return
        {| simulation_time := time self;
           num_steps := Z.of_nat (length (history self)) * 10;
           temperature_stats :=
             {| final_max := mx; final_min := mn;
                final_avg := if any_material g
                             then np_mean (material_cells T g)
                             else lit 0 |};
           cooling_stats :=
             {| max_cooling_rate := max_rate_of (pair_rates (history self));
                avg_cooling_rate :=
                  match pair_rates (history self) with
                  | [] => lit 0
                  | _ => np_mean (pair_rates (history self))
                  end |};
           potential_issues :=
             cooling_issue self (pair_rates (history self))
             ++ temperature_issue self mx;
           report_history := history self |}
        self.
Proof.
  intros (Hg & HT & Hsh & _ & _) Hne Hpos.
  destruct (data T) as [|x l] eqn:Hd; [done|].
  exists (fold_left np_maximum l x), (fold_left np_minimum l x).
  split; [done|]. split; [done|].
  unfold analyze_results, mbind, M_bind, get_self. rewrite Hg, HT.
  unfold lift at 1. rewrite cooling_rates_of_pairs by done.
  rewrite Hd. cbn [np_max np_min lift].
  unfold select_material. rewrite decide_True by done.
  unfold cooling_issue, temperature_issue, max_rate_of, mret, M_ret.
  destruct (any_material g); res_simpl; cbn [lift];
    destruct (pair_rates (history self)) as [|r rs];
    repeat match goal with |- context [if ?b then _ else _] => destruct b end;
    rewrite ?app_nil_r; reflexivity.
Qed.
End Analysis.

(** C5. On an initialized simulator with any history, [analyze_results]
    returns a report in which: the cooling rates are those of the
    consecutive pairs of samples with a positive time difference,
    [(prev.max_temp - next.max_temp) / (next.time - prev.time)], the other
    pairs being skipped (this is [pair_rates], which the loop computes by
    [cooling_rates_of_pairs]); [max_cooling_rate] is the maximum of these
    rates, one of them and not below any, and is 0 when there is none, in
    particular when the history has fewer than two samples; and a
    [high_cooling_rate] issue, carrying that maximum and the threshold,
    is reported exactly when the maximum exceeds [cooling_rate_threshold].
    The order is asked of the rates that occur: none of them is NaN. *)
Theorem analyze_results_cooling {F} `{PyFloat F} (self : ThermalSimulator (F:=F)) g T :
  initialized self g T → data T ≠ [] →
  positive_nonzero (F:=F) →
  let rates := pair_rates (history self) in
  ordered_on rates →
  let rate_threshold := default (lit 5) (cooling_rate_threshold (config self)) in
  ∃ r, analyze_results self = Return r self ∧
    cooling_rates_of (history self) = Ok rates ∧
    let m := max_cooling_rate (cooling_stats r) in
    (rates = [] → m = lit 0) ∧
    (rates ≠ [] → m ∈ rates ∧ ∀ x, x ∈ rates → flt m x = false) ∧
    ((length (history self) < 2)%nat → m = lit 0) ∧
    (∀ i, i ∈ potential_issues r → issue_type i = "high_cooling_rate"%string →
       value i = m ∧ threshold i = rate_threshold) ∧
    ((∃ i, i ∈ potential_issues r ∧ issue_type i = "high_cooling_rate"%string)
     ↔ fgt m rate_threshold = true).
Proof.
  intros Hinit Hne Hpos rates Hord rate_threshold.
  destruct (analyze_results_returns self g T Hinit Hne Hpos)
    as (mx & mn & _ & _ & Hres).
  eexists. split; [exact Hres|]. split; [by apply cooling_rates_of_pairs|].
  cbn [cooling_stats max_cooling_rate potential_issues]. fold rates.
  assert (rates = [] → max_rate_of rates = lit 0) as Hnil by (by intros ->).
  split; [done|]. split.
  { destruct rates as [|x l]; [done|]. intros _. by apply fold_max_bound. }
  split.
  { intros Hlen. apply Hnil. by apply pair_rates_short. }
  unfold cooling_issue, temperature_issue. fold rate_threshold.
  destruct (fgt (max_rate_of rates) rate_threshold) eqn:Hgt.
  - split.
    + intros i Hi Hty. apply elem_of_app in Hi as [Hi|Hi].
      * by apply list_elem_of_singleton in Hi as ->.
      * destruct (fgt mx _); [|by apply elem_of_nil in Hi].
        apply list_elem_of_singleton in Hi as ->. done.
    + split; [done|]. intros _. eexists. split; [apply elem_of_app; left; left|done].
  - split.
    + intros i Hi Hty. simpl in Hi.
      destruct (fgt mx _); [|by apply elem_of_nil in Hi].
      apply list_elem_of_singleton in Hi as ->. done.
    + split; [|done]. intros (i & Hi & Hty). simpl in Hi.
      destruct (fgt mx _); [|by apply elem_of_nil in Hi].
      apply list_elem_of_singleton in Hi as ->. done.
Qed.

(** In binary64, on the history of three samples: the one rate is
    [(200 - 190) / (1.1 - 0.1)], which is 10.0, above the threshold 5.0. *)
Lemma analyze_results_cooling_with_history :
  ∃ r, analyze_results (with_history_in float) = Return r (with_history_in float) ∧
    max_cooling_rate (cooling_stats r) = lit 10 ∧
    ∃ i, i ∈ potential_issues r ∧ issue_type i = "high_cooling_rate"%string.
Proof.
  assert (pair_rates (history (with_history_in float)) = [lit 10]) as Hrates
    by (vm_compute; reflexivity).
  destruct (analyze_results_cooling (with_history_in float)
              (the_grid (with_layer_in float)) (the_temperature (with_layer_in float)))
    as (r & Hres & _ & _ & Hmax & _ & _ & Hissue).
  - repeat split; vm_compute; reflexivity.
  - vm_compute. discriminate.
  - exact binary64_positive_nonzero.
  - rewrite Hrates. apply binary64_no_nan. vm_compute. reflexivity.
  - rewrite Hrates in Hmax. destruct Hmax as [Hin _]; [discriminate|].
    apply list_elem_of_singleton in Hin.
    exists r. split; [exact Hres|]. split; [exact Hin|].
    apply Hissue. rewrite Hin. vm_compute. reflexivity.
Defined.

(** C10. On an initialized simulator without any material cell whose
    field is uniform at [a] (the ambient temperature it was filled with),
    [analyze_results] reports [final_avg = 0.0], and [final_max] and
    [final_min] both equal to [a]; the history sample taken in the same
    state has the ambient temperature as its average instead. *)
Theorem analyze_results_no_material {F} `{PyFloat F}
    (self : ThermalSimulator (F:=F)) g T (a : F) :
  initialized self g T → data T ≠ [] → positive_nonzero (F:=F) →
  any_material g = false → (∀ x, x ∈ data T → x = a) →
  ∃ r, analyze_results self = Return r self ∧
    final_avg (temperature_stats r) = lit 0 ∧
    final_max (temperature_stats r) = a ∧
    final_min (temperature_stats r) = a ∧
    ∀ now, ∃ e, take_sample now (ambient_of (config self)) g T = Ok e ∧
                avg_temp e = ambient_of (config self).
Proof.
  intros Hinit Hne Hpos Hany Huni.
  destruct (analyze_results_returns self g T Hinit Hne Hpos)
    as (mx & mn & Hmx & Hmn & Hres).
  eexists. split; [exact Hres|]. cbn [temperature_stats final_avg final_max final_min].
  rewrite Hany. split; [done|].
  destruct (data T) as [|x l] eqn:Hd; [done|].
  assert (x = a) as -> by (apply Huni; left).
  injection Hmx as <-. injection Hmn as <-.
  split; [apply fold_max_uniform; intros y Hy; apply Huni; by right|].
  split; [apply fold_min_uniform; intros y Hy; apply Huni; by right|].
  intros now. destruct Hinit as (_ & _ & Hsh & _).
  destruct (take_sample_ok now (ambient_of (config self)) g T) as (mx & mn & _ & _ & ->);
    [by rewrite Hd|done|].
  eexists. split; [done|]. simpl. by rewrite Hany.
Qed.

Lemma uniform_replicate {A} (n : nat) (a x : A) : x ∈ replicate n a → x = a.
Proof. intros Hx. by apply elem_of_replicate in Hx as [-> _]. Qed.

Lemma analyze_results_no_material_with_grid :
  ∃ r, analyze_results with_grid = Return r with_grid ∧
    final_avg (temperature_stats r) = lit 0 ∧
    final_max (temperature_stats r) = lit 25 ∧
    final_min (temperature_stats r) = lit 25.
Proof.
  destruct (analyze_results_no_material with_grid (the_grid with_grid)
              (the_temperature with_grid) (lit 25))
    as (r & Hres & Havg & Hmax & Hmin & _).
  - exact with_grid_initialized.
  - vm_compute. discriminate.
  - exact Qc_positive_nonzero.
  - vm_compute. reflexivity.
  - intros x Hx.
    assert (data (the_temperature with_grid) = replicate 1331 (lit 1 * lit 25)%F) as Hd
      by (vm_compute; reflexivity).
    rewrite Hd in Hx. apply uniform_replicate in Hx as ->.
    apply Qc_is_canon. vm_compute. reflexivity.
  - exists r. repeat split; assumption.
Defined.

(** ** Initializing the grid a second time *)

(** C7, amended. [initialize_grid] has no guard against a second call.
    On a simulator that is already initialized, a call with a non-zero
    resolution, quotients [d / resolution] that [int] converts (finite
    ones) and a shape [int(d / resolution) + 1] per axis that passes
    numpy's check (no negative dimension, fewer than [2 ^ 63] bytes) and
    that the machine grants returns normally: it replaces the grid by an all-air grid and the temperature
    field by a field filled with [1.0 * ambient], both of the newly
    requested shape, and leaves the clock, the history and the
    configuration as they were. *)
Theorem initialize_grid_again {F} `{PyFloat F} `{Machine}
    (self : ThermalSimulator (F:=F)) g T (dx dy dz resolution : F) (tx ty tz : Z) :
  initialized self g T →
  feqb resolution (lit 0) = false →
  ftrunc (dx / resolution)%F = Ok tx →
  ftrunc (dy / resolution)%F = Ok ty →
  ftrunc (dz / resolution)%F = Ok tz →
  0 ≤ tx + 1 → 0 ≤ ty + 1 → 0 ≤ tz + 1 →
  8 * Z.max 1 (tx + 1) * Z.max 1 (ty + 1) * Z.max 1 (tz + 1) < 2 ^ 63 →
  allocates (tx + 1) (ty + 1) (tz + 1) = true →
  let sh := (Z.to_nat (tx + 1), Z.to_nat (ty + 1), Z.to_nat (tz + 1)) in
  initialize_grid (dx, dy, dz) resolution self =
    Return tt
      {| config := config self;
         grid := Some (NdArray sh (replicate (size_of sh) 0));
         temperature :=
           Some (NdArray sh (replicate (size_of sh)
                               (lit 1 * ambient_of (config self))%F));
         time := time self;
         history := history self |}.
Proof.
  intros _ Hres Htx Hty Htz Hx Hy Hz Hsize Hmem sh.
  unfold initialize_grid, mbind, M_bind, pydiv. rewrite Hres. cbn [lift].
  rewrite Htx, Hty, Htz. cbn [lift].
  unfold get_self. rewrite !np_full_ok by done. cbn [lift].
  unfold modify, set_grid, set_temperature. simpl. reflexivity.
Qed.

(** In binary64, on the simulator that holds a layer. *)
Lemma initialize_grid_again_with_layer :
  ∃ self', initialize_grid (lit 10, lit 10, lit 10) (lit 1) (with_layer_in float)
             = Return tt self'
    ∧ grid self' = Some (NdArray (11, 11, 11)%nat (replicate 1331 0))
    ∧ history self' = history (with_layer_in float).
Proof.
  eexists. split.
  - apply (initialize_grid_again (with_layer_in float) (the_grid (with_layer_in float))
             (the_temperature (with_layer_in float)) _ _ _ _ 10 10 10).
    + exact binary64_with_layer_initialized.
    + vm_compute. reflexivity.
    + vm_compute. reflexivity.
    + vm_compute. reflexivity.
    + vm_compute. reflexivity.
    + lia.
    + lia.
    + lia.
    + vm_compute. reflexivity.
    + reflexivity.
  - split; reflexivity.
Defined.

(** C7 as stated fails: on the simulator holding a deposited layer, a
    second [initialize_grid] does not raise; it returns, and the material
    cell (5, 5, 5) is air again and back at the ambient 25. *)
Lemma initialize_grid_twice_resets :
  let self' := state_after (initialize_grid (lit 10, lit 10, lit 10) (lit 1)) with_layer in
  initialize_grid (lit 10, lit 10, lit 10) (lit 1) with_layer = Return tt self' ∧
  getitem (the_grid with_layer) 5 5 5 = Ok 1 ∧
  getitem (the_grid self') 5 5 5 = Ok 0 ∧
  this <$> getitem (the_temperature with_layer) 5 5 5 = Ok 200%Q ∧
  this <$> getitem (the_temperature self') 5 5 5 = Ok 25%Q.
Proof. repeat split; vm_compute; reflexivity. Qed.

(** ** Depositing a layer *)

Section Loops.
Context {F : Type} `{PyFloat F}.
Implicit Types (self s : ThermalSimulator (F:=F)).

Lemma for_each_cons_return {A} (body : A → M unit) x l s s' :
  body x s = Return tt s' → for_each (x :: l) body s = for_each l body s'.
Proof. intros Hb. cbn [for_each]. unfold mbind, M_bind. by rewrite Hb. Qed.

Lemma for_each_cons_raise {A} (body : A → M unit) x l s s' e :
  body x s = Raise e s' → for_each (x :: l) body s = Raise e s'.
Proof. intros Hb. cbn [for_each]. unfold mbind, M_bind. by rewrite Hb. Qed.

(** A loop whose iterations all return without touching [self]. *)
Lemma for_each_skip {A} (body : A → M unit) l s :
  (∀ x, x ∈ l → body x s = Return tt s) → for_each l body s = Return tt s.
Proof.
  induction l as [|x l IH]; intros Hl; [done|].
  rewrite (for_each_cons_return body x l s s) by (apply Hl; left).
  apply IH. intros y Hy. apply Hl. by right.
Qed.

(** A loop in which some iteration raises, the earlier ones returning
    without touching [self]. *)
Lemma for_each_raises {A} (body : A → M unit) l s e :
  (∀ x, x ∈ l → body x s = Return tt s ∨ body x s = Raise e s) →
  (∃ x, x ∈ l ∧ body x s = Raise e s) →
  for_each l body s = Raise e s.
Proof.
  induction l as [|x l IH]; intros Hl (y & Hy & Hraise).
  - by apply elem_of_nil in Hy.
  - destruct (Hl x) as [Hret|Hr]; [left| |by apply for_each_cons_raise].
    rewrite (for_each_cons_return body x l s s) by done.
    apply IH; [intros z Hz; apply Hl; by right|].
    apply elem_of_cons in Hy as [->|Hy]; [congruence|by exists y].
Qed.

(** Two loops whose bodies agree on the states an invariant admits. *)
Lemma for_each_ext {A} (I : ThermalSimulator (F:=F) → Prop)
    (body1 body2 : A → M unit) l s :
  (∀ x s, x ∈ l → I s → body1 x s = body2 x s) →
  (∀ x s s', x ∈ l → I s → body1 x s = Return tt s' → I s') →
  I s → for_each l body1 s = for_each l body2 s.
Proof.
  revert s. induction l as [|x l IH]; intros s Heq Hpres Hs; [done|].
  cbn [for_each]. unfold mbind, M_bind. rewrite <- (Heq x s) by (done || left).
  destruct (body1 x s) as [[] s'|e s'] eqn:Hb; [|done].
  apply IH.
  - intros y s1 Hy. apply Heq. by right.
  - intros y s1 s2 Hy. apply Hpres. by right.
  - eapply Hpres; [left|done..].
Qed.
End Loops.

Section Deposit.
Context {F : Type} `{PyFloat F}.
Implicit Types (self s : ThermalSimulator (F:=F)).

Lemma add_layer_unfold {L} (layer_data : L) z self g :
  grid self = Some g →
  add_layer layer_data z self =
    for_each (range 0 (Z.of_nat (shape g).1.1)) (λ i,
      for_each (range 0 (Z.of_nat (shape g).1.2)) (λ j,
        if in_disc (shape g) i j then deposit_cell i j z else mret tt)) self.
Proof.
  intros Hg. unfold add_layer, mbind at 1, M_bind at 1, get_self. rewrite Hg.
  by destruct (shape g) as [[nx ny] nz].
Qed.

Lemma deposit_cell_in_range s g T i j z :
  grid s = Some g → temperature s = Some T →
  in_range (shape g) i j z → in_range (shape T) i j z →
  deposit_cell i j z s =
    Return tt
      (set_temperature
         (Some (NdArray (shape T)
                  (<[pos (shape T) i j z := extrusion_of (config s)]> (data T))))
         (set_grid (Some (NdArray (shape g) (<[pos (shape g) i j z := 1]> (data g)))) s)).
Proof.
  intros Hg HT Hrg HrT. unfold deposit_cell, mbind, M_bind, get_self. rewrite Hg.
  rewrite setitem_in_range by done. cbn [lift modify set_grid temperature config].
  rewrite HT. rewrite setitem_in_range by done. done.
Qed.

Lemma deposit_cell_outside s g i j z :
  grid s = Some g →
  0 ≤ i < Z.of_nat (shape g).1.1 → 0 ≤ j < Z.of_nat (shape g).1.2 →
  z < - Z.of_nat (shape g).2 ∨ Z.of_nat (shape g).2 ≤ z →
  deposit_cell i j z s = Raise (index_error z) s.
Proof.
  intros Hg Hi Hj Hz. unfold deposit_cell, mbind, M_bind, get_self. rewrite Hg.
  by rewrite setitem_outside.
Qed.

Section Invariant.
Variables (self : ThermalSimulator (F:=F)) (g : ndarray Z) (T : ndarray F) (z : Z).
Hypothesis self_initialized : initialized self g T.
Hypothesis z_in_range : 0 ≤ z < Z.of_nat (shape g).2.

Local Abbreviation deposit_inv := (deposited self g T z).

Lemma deposited_start : deposit_inv (λ _ _, False) self.
Proof using self_initialized.
  do 3 (split; [done|]). exists g, T. split; [done|]. split; [done|].
  intros i j k Hr. split; [by intros []|done].
Qed.

Lemma deposited_iff (V V' : Z → Z → Prop) s :
  (∀ i j, V i j ↔ V' i j) → deposit_inv V s → deposit_inv V' s.
Proof using Type.
  intros HV (Hc & Ht & Hh & g' & T' & Hinit & Hsh & Hcells).
  do 3 (split; [done|]). exists g', T'. split; [done|]. split; [done|].
  intros i j k Hr. destruct (Hcells i j k Hr) as [H1 H2]. split.
  - intros HV'. by apply H1, HV.
  - intros [HnV|Hother]; apply H2; [left; by rewrite HV|by right].
Qed.

Lemma deposit_column V s i0 j0 :
  deposit_inv V s →
  0 ≤ i0 < Z.of_nat (shape g).1.1 → 0 ≤ j0 < Z.of_nat (shape g).1.2 →
  ∃ s', (if in_disc (shape g) i0 j0 then deposit_cell i0 j0 z else mret tt) s
        = Return tt s' ∧
        deposit_inv (λ i j, V i j ∨ (i, j) = (i0, j0)) s'.
Proof using z_in_range.
  intros (Hc & Ht & Hh & g' & T' & Hinit & Hsh & Hcells) Hi0 Hj0.
  destruct (in_disc (shape g) i0 j0) eqn:Hdisc; cycle 1.
  { exists s. split; [done|]. do 3 (split; [done|]). exists g', T'.
    split; [done|]. split; [done|]. intros i j k Hr.
    destruct (Hcells i j k Hr) as [H1 H2]. split.
    - intros [HV|[= -> ->]]; [by apply H1|congruence].
    - intros [HnV|Hother]; apply H2; [left|by right].
      intros HV. apply HnV. by left. }
  destruct Hinit as (Hg' & HT' & HshT & Hgwf & HTwf).
  assert (in_range (shape g) i0 j0 z) as Hr0.
  { unfold in_range. destruct (shape g) as [[nx ny] nz]. simpl in *. lia. }
  rewrite (deposit_cell_in_range s g' T') by (done || by rewrite ?HshT, Hsh).
  set (g'' := NdArray (shape g') _). set (T'' := NdArray (shape T') _).
  assert (setitem g' i0 j0 z 1 = Ok g'') as Hsetg
    by (by rewrite setitem_in_range by (by rewrite Hsh)).
  assert (setitem T' i0 j0 z (extrusion_of (config s)) = Ok T'') as HsetT
    by (by rewrite setitem_in_range by (by rewrite HshT, Hsh)).
  eexists. split; [done|]. do 3 (split; [done|]). exists g'', T''.
  split.
  { repeat split; try done; by eapply setitem_wf. }
  split; [done|]. intros i j k Hr.
  destruct (decide ((i, j, k) = (i0, j0, z))) as [[= -> -> ->]|Hne].
  - split.
    + intros _ _ _. rewrite <- Hc. split.
      * eapply getitem_setitem_eq; [done|by rewrite Hsh|done].
      * eapply getitem_setitem_eq; [done|by rewrite HshT, Hsh|done].
    + intros [HnV|[Hd|Hk]]; [|congruence|done]. exfalso. apply HnV. by right.
  - rewrite (getitem_setitem_ne g' g'' i0 j0 z i j k 1) by (done || by rewrite Hsh).
    rewrite (getitem_setitem_ne T' T'' i0 j0 z i j k (extrusion_of (config s)))
      by (done || by rewrite HshT, Hsh).
    destruct (Hcells i j k Hr) as [H1 H2]. split.
    + intros [HV|[= -> ->]] Hd Hk; [by apply H1|]. by subst k.
    + intros [HnV|Hother]; apply H2; [left|by right].
      intros HV. apply HnV. by left.
Qed.

Lemma for_each_deposited {K} (cells : K → Z → Z → Prop) (body : K → M unit)
    (l : list K) :
  (∀ V s x, x ∈ l → deposit_inv V s →
     ∃ s', body x s = Return tt s' ∧ deposit_inv (λ i j, V i j ∨ cells x i j) s') →
  ∀ V s, deposit_inv V s →
    ∃ s', for_each l body s = Return tt s' ∧
          deposit_inv (λ i j, V i j ∨ ∃ x, x ∈ l ∧ cells x i j) s'.
Proof using Type.
  induction l as [|x l IH]; intros Hbody V s Hs.
  - exists s. split; [done|]. eapply deposited_iff; [|done].
    intros i j. split; [by left|]. intros [?|(x & Hx & _)]; [done|].
    by apply elem_of_nil in Hx.
  - destruct (Hbody V s x) as (s1 & Hb & Hs1); [left|done|].
    destruct IH with (V := λ i j, V i j ∨ cells x i j) (s := s1)
      as (s' & Hrun & Hs'); [|done|].
    { intros V' s'' y Hy. apply Hbody. by right. }
    exists s'. rewrite (for_each_cons_return body x l s s1) by done.
    split; [done|]. eapply deposited_iff; [|done]. intros i j. simpl. split.
    + intros [[HV|Hcx]|(y & Hy & Hcy)]; [by left|right..].
      * exists x. split; [left|done].
      * exists y. split; [by right|done].
    + intros [HV|(y & Hy & Hcy)]; [by left; left|].
      apply elem_of_cons in Hy as [->|Hy]; [by left; right|].
      right. by exists y.
Qed.

Lemma add_layer_deposited {L} (layer_data : L) :
  ∃ self', add_layer layer_data z self = Return tt self' ∧
    deposit_inv (λ i j, 0 ≤ i < Z.of_nat (shape g).1.1 ∧ 0 ≤ j < Z.of_nat (shape g).1.2)
      self'.
Proof using self_initialized z_in_range.
  destruct self_initialized as (Hg & _).
  rewrite (add_layer_unfold layer_data z self g Hg).
  destruct (for_each_deposited
    (λ i0 i j, i = i0 ∧ 0 ≤ j < Z.of_nat (shape g).1.2)
    (λ i, for_each (range 0 (Z.of_nat (shape g).1.2)) (λ j,
       if in_disc (shape g) i j then deposit_cell i j z else mret tt))
    (range 0 (Z.of_nat (shape g).1.1))) with (V := λ _ _ : Z, False) (s := self)
    as (self' & Hrun & Hdep).
  - intros V s i0 Hi0 Hs. apply elem_of_range in Hi0.
    destruct (for_each_deposited
      (λ j0 i j, (i, j) = (i0, j0))
      (λ j, if in_disc (shape g) i0 j then deposit_cell i0 j z else mret tt)
      (range 0 (Z.of_nat (shape g).1.2))) with (V := V) (s := s)
      as (s' & Hrun & Hdep).
    + intros V1 s1 j0 Hj0 Hs1. apply elem_of_range in Hj0.
      by apply deposit_column.
    + done.
    + exists s'. split; [done|]. eapply deposited_iff; [|done].
      intros i j. simpl. split.
      * intros [?|(j0 & Hj0 & [= -> ->])]; [by left|]. right.
        by apply elem_of_range in Hj0.
      * intros [?|(-> & Hj)]; [by left|]. right. exists j.
        by rewrite elem_of_range.
  - apply deposited_start.
  - exists self'. split; [done|]. eapply deposited_iff; [|done].
    intros i j. simpl. split.
    + intros [[]|(i0 & Hi0 & -> & Hj)]. by apply elem_of_range in Hi0.
    + intros [Hi Hj]. right. exists i. by rewrite elem_of_range.
Qed.
End Invariant.

(** C3, amended. On an initialized simulator and for a z-index within
    [0, nz), [add_layer] returns and ignores the layer data it is given:
    at level z it sets to material exactly the cells of the disc of
    centre [(nx // 2, ny // 2)] and radius [min(nx // 2, ny // 2) - 5],
    and sets their temperature to the extrusion temperature; every other
    cell keeps its occupancy and its temperature, and clock, history and
    configuration are unchanged. *)
Theorem add_layer_deposits {L} (layer_data : L) self g T z :
  initialized self g T → 0 ≤ z < Z.of_nat (shape g).2 →
  ∃ self' g' T',
    add_layer layer_data z self = Return tt self' ∧
    initialized self' g' T' ∧ shape g' = shape g ∧
    config self' = config self ∧ time self' = time self ∧
    history self' = history self ∧
    ∀ i j k, in_range (shape g) i j k →
      if in_disc (shape g) i j && (k =? z)
      then getitem g' i j k = Ok 1 ∧
           getitem T' i j k = Ok (extrusion_of (config self))
      else getitem g' i j k = getitem g i j k ∧
           getitem T' i j k = getitem T i j k.
Proof.
  intros Hinit Hz.
  destruct (add_layer_deposited self g T z Hinit Hz layer_data)
    as (self' & Hrun & Hc & Ht & Hh & g' & T' & Hinit' & Hsh & Hcells).
  exists self', g', T'. do 6 (split; [done|]).
  intros i j k Hr. destruct (Hcells i j k Hr) as [H1 H2].
  destruct (in_disc (shape g) i j) eqn:Hd; simpl.
  - destruct (Z.eqb_spec k z) as [->|Hk].
    + apply H1; [|done..]. unfold in_range in Hr.
      destruct (shape g) as [[nx ny] nz]. simpl. lia.
    + apply H2. by do 2 right.
  - apply H2. right. by left.
Qed.
End Deposit.

Lemma add_layer_deposits_with_grid :
  ∃ self' g' T',
    add_layer (λ x y : Z, (x =? 1) && (y =? 1)) 5 with_grid = Return tt self' ∧
    grid self' = Some g' ∧ temperature self' = Some T' ∧
    getitem g' 5 5 5 = Ok 1 ∧ getitem T' 5 5 5 = Ok (lit 200) ∧
    getitem g' 1 1 5 = Ok 0.
Proof.
  destruct (add_layer_deposits (λ x y : Z, (x =? 1) && (y =? 1)) with_grid
              (the_grid with_grid) (the_temperature with_grid) 5)
    as (self' & g' & T' & Hrun & Hinit & _ & _ & _ & _ & Hcells).
  - exact with_grid_initialized.
  - by_compute.
  - exists self', g', T'. split; [exact Hrun|].
    destruct Hinit as (Hg' & HT' & _). split; [exact Hg'|]. split; [exact HT'|].
    assert (in_range (shape (the_grid with_grid)) 5 5 5) as Hr5
      by by_compute.
    assert (in_range (shape (the_grid with_grid)) 1 1 5) as Hr1
      by by_compute.
    pose proof (Hcells 5 5 5 Hr5) as H5. pose proof (Hcells 1 1 5 Hr1) as H1.
    change (in_disc (shape (the_grid with_grid)) 5 5 && (5 =? 5)) with true in H5.
    change (in_disc (shape (the_grid with_grid)) 1 1 && (5 =? 5)) with false in H1.
    destruct H5 as [H5g H5T]. destruct H1 as [H1g _].
    split; [exact H5g|]. split; [exact H5T|]. rewrite H1g. reflexivity.
Defined.

(** C3 as stated fails: the footprint marks the column (1, 1) and no
    other, yet after [add_layer(footprint, 5)] the cell (1, 1, 5) is still
    air and the unmarked cell (5, 5, 5) is material. *)
Lemma add_layer_ignores_footprint :
  let footprint := λ x y : Z, (x =? 1) && (y =? 1) in
  let self' := state_after (add_layer footprint 5) with_grid in
  add_layer footprint 5 with_grid = Return tt self' ∧
  footprint 1 1 = true ∧ getitem (the_grid self') 1 1 5 = Ok 0 ∧
  footprint 5 5 = false ∧ getitem (the_grid self') 5 5 5 = Ok 1.
Proof. repeat split; vm_compute; reflexivity. Qed.

(** ** The z-index of a layer *)

Section LayerIndex.
Context {F : Type} `{PyFloat F}.
Implicit Types (self s : ThermalSimulator (F:=F)).

Lemma in_disc_centre sh :
  0 ≤ disc_radius sh → in_disc sh (Z.of_nat sh.1.1 / 2) (Z.of_nat sh.1.2 / 2) = true.
Proof.
  intros Hr. unfold in_disc, within_radius. rewrite !Z.sub_diag. simpl.
  apply andb_true_intro. split; [lia|nia].
Qed.

Lemma in_disc_empty sh i j : disc_radius sh < 0 → in_disc sh i j = false.
Proof.
  intros Hr. unfold in_disc, within_radius.
  destruct (0 <=? disc_radius sh) eqn:E; [lia|done].
Qed.

Lemma centre_in_range sh :
  0 ≤ disc_radius sh →
  0 ≤ Z.of_nat sh.1.1 / 2 < Z.of_nat sh.1.1 ∧ 0 ≤ Z.of_nat sh.1.2 / 2 < Z.of_nat sh.1.2.
Proof.
  unfold disc_radius. intros Hr. Z.to_euclidean_division_equations. lia.
Qed.

(** One row of the disc when the z-index is outside the grid: the row
    either holds no cell of the disc, or the deposit raises. *)
Lemma row_outside self g z i (l : list Z) :
  grid self = Some g →
  z < - Z.of_nat (shape g).2 ∨ Z.of_nat (shape g).2 ≤ z →
  0 ≤ i < Z.of_nat (shape g).1.1 →
  (∀ j, j ∈ l → 0 ≤ j < Z.of_nat (shape g).1.2) →
  let body := λ j, if in_disc (shape g) i j then deposit_cell i j z else mret tt in
  (for_each l body self = Return tt self ∧ ∀ j, j ∈ l → in_disc (shape g) i j = false)
  ∨ (for_each l body self = Raise (index_error z) self
     ∧ ∃ j, j ∈ l ∧ in_disc (shape g) i j = true).
Proof.
  intros Hg Hz Hi Hl body.
  assert (∀ j, j ∈ l →
            body j self = Return tt self ∨ body j self = Raise (index_error z) self)
    as Hbody.
  { intros j Hj. unfold body. destruct (in_disc (shape g) i j); [right|by left].
    apply (deposit_cell_outside self g); [done..|by apply Hl|done]. }
  destruct (existsb (in_disc (shape g) i) l) eqn:E.
  - right. apply existsb_exists in E as (j & Hj & Hd).
    apply list_elem_of_In in Hj. split; [|by exists j].
    apply for_each_raises; [done|]. exists j. split; [done|].
    unfold body. rewrite Hd.
    apply (deposit_cell_outside self g); [done..|by apply Hl|done].
  - left. assert (∀ j, j ∈ l → in_disc (shape g) i j = false) as Hnone.
    { intros j Hj. destruct (in_disc (shape g) i j) eqn:Hd; [|done].
      assert (existsb (in_disc (shape g) i) l = true); [|congruence].
      apply existsb_exists. exists j. by rewrite <- list_elem_of_In. }
    split; [|done]. apply for_each_skip. intros j Hj. unfold body.
    by rewrite Hnone.
Qed.

Lemma add_layer_outside {L} (layer_data : L) self g z :
  grid self = Some g →
  z < - Z.of_nat (shape g).2 ∨ Z.of_nat (shape g).2 ≤ z →
  0 ≤ disc_radius (shape g) →
  add_layer layer_data z self = Raise (index_error z) self.
Proof.
  intros Hg Hz Hr. rewrite (add_layer_unfold layer_data z self g Hg).
  destruct (centre_in_range (shape g) Hr) as [Hcx Hcy].
  assert (∀ j, j ∈ range 0 (Z.of_nat (shape g).1.2) → 0 ≤ j < Z.of_nat (shape g).1.2)
    as Hrow by (by intros j Hj%elem_of_range).
  apply for_each_raises.
  - intros i Hi%elem_of_range.
    destruct (row_outside self g z i (range 0 (Z.of_nat (shape g).1.2)) Hg Hz Hi Hrow)
      as [[Hret _]|[Hraise _]]; [by left|by right].
  - exists (Z.of_nat (shape g).1.1 / 2). split; [by apply elem_of_range|].
    destruct (row_outside self g z (Z.of_nat (shape g).1.1 / 2)
                (range 0 (Z.of_nat (shape g).1.2)) Hg Hz Hcx Hrow)
      as [[_ Hnone]|[Hraise _]]; [|done].
    pose proof (in_disc_centre (shape g) Hr) as Hc.
    rewrite Hnone in Hc; [done|by apply elem_of_range].
Qed.

Lemma add_layer_empty_disc {L} (layer_data : L) self g z :
  grid self = Some g → disc_radius (shape g) < 0 →
  add_layer layer_data z self = Return tt self.
Proof.
  intros Hg Hr. rewrite (add_layer_unfold layer_data z self g Hg).
  apply for_each_skip. intros i _. apply for_each_skip. intros j _.
  by rewrite in_disc_empty.
Qed.

Lemma deposit_cell_wrap nz s i j z :
  depth_is nz s → - Z.of_nat nz ≤ z < 0 →
  deposit_cell i j z s = deposit_cell i j (z + Z.of_nat nz) s.
Proof.
  intros [Hdg HdT] Hz. unfold deposit_cell, mbind, M_bind, get_self.
  destruct (grid s) as [g|] eqn:Hg; [|done].
  rewrite (setitem_wrap g), (Hdg g) by (by rewrite ?(Hdg g)).
  destruct (setitem g i j (z + Z.of_nat nz) 1) as [g'|e]; [|done].
  cbn [lift modify set_grid temperature config].
  destruct (temperature s) as [T|] eqn:HT; [|done].
  by rewrite (setitem_wrap T), (HdT T) by (by rewrite ?(HdT T)).
Qed.

Lemma deposit_cell_depth nz s s' i j z :
  depth_is nz s → deposit_cell i j z s = Return tt s' → depth_is nz s'.
Proof.
  intros [Hdg HdT]. unfold deposit_cell, mbind, M_bind, get_self.
  destruct (grid s) as [g|] eqn:Hg; [|done].
  destruct (setitem g i j z 1) as [g'|e] eqn:Hsg; [|done].
  cbn [lift modify set_grid temperature config].
  destruct (temperature s) as [T|] eqn:HT; [|done].
  destruct (setitem T i j z _) as [T'|e] eqn:HsT; [|done].
  cbn [lift]. intros [= <-]. split; simpl.
  - intros g0 [= <-]. rewrite (setitem_shape _ _ _ _ _ _ Hsg). by apply Hdg.
  - intros T0 [= <-]. rewrite (setitem_shape _ _ _ _ _ _ HsT). by apply HdT.
Qed.

Lemma for_each_preserves {A} (I : ThermalSimulator (F:=F) → Prop)
    (body : A → M unit) l s s' :
  (∀ x s s', I s → body x s = Return tt s' → I s') →
  I s → for_each l body s = Return tt s' → I s'.
Proof.
  intros Hpres. revert s. induction l as [|x l IH]; intros s Hs.
  - by intros [= <-].
  - cbn [for_each]. unfold mbind, M_bind.
    destruct (body x s) as [[] s1|e s1] eqn:Hb; [|done].
    apply IH. by eapply Hpres.
Qed.

Lemma add_layer_wrap {L} (layer_data : L) self g T z :
  initialized self g T →
  - Z.of_nat (shape g).2 ≤ z < 0 →
  add_layer layer_data z self = add_layer layer_data (z + Z.of_nat (shape g).2) self.
Proof.
  intros (Hg & HT & Hsh & _) Hz.
  rewrite !(add_layer_unfold layer_data _ self g Hg).
  set (nz := (shape g).2) in *.
  assert (∀ i j s s' z', depth_is nz s →
            (if in_disc (shape g) i j then deposit_cell i j z' else mret tt) s
            = Return tt s' → depth_is nz s') as Hcol.
  { intros i j s s' z' Hs. destruct (in_disc (shape g) i j).
    - by apply deposit_cell_depth.
    - by intros [= <-]. }
  apply (for_each_ext (depth_is nz)).
  - intros i s _ Hs. apply (for_each_ext (depth_is nz)); [| |done].
    + intros j s1 _ Hs1. destruct (in_disc (shape g) i j); [|done].
      by apply deposit_cell_wrap.
    + intros j s1 s2 _. apply Hcol.
  - intros i s s' _. apply for_each_preserves. intros j s1 s2. apply Hcol.
  - split.
    + intros g0. rewrite Hg. by intros [= <-].
    + intros T0. rewrite HT. intros [= <-]. by rewrite Hsh.
Qed.

End LayerIndex.



(** ** The heat balance of one step *)

Section ExactSums.
Context {F : Type} `{PyFloat F}.

Hypothesis exact : exact_arithmetic.

Lemma fold_add_acc (l : list F) (a : F) : fold_left fadd l a = (a + fsum l)%F.
Proof using exact.
  destruct exact as (Hcomm & Hassoc & Hzero & _).
  unfold fsum. revert a. induction l as [|x l IH]; intros a; simpl.
  - by rewrite Hzero.
  - rewrite (IH (a + x)%F), (IH (lit 0 + x)%F).
    rewrite (Hcomm (lit 0) x), Hzero. by rewrite Hassoc.
Qed.

Lemma fsum_cons (x : F) (l : list F) : fsum (x :: l) = (x + fsum l)%F.
Proof using exact.
  destruct exact as (Hcomm & _ & Hzero & _).
  unfold fsum at 1. simpl. rewrite fold_add_acc.
  by rewrite (Hcomm (lit 0) x), Hzero.
Qed.

Lemma fsum_zero {A} (l : list A) : fsum ((λ _, lit 0) <$> l) = lit 0.
Proof using exact.
  destruct exact as (_ & _ & Hzero & _).
  induction l as [|x l IH]; [done|]. rewrite fmap_cons, fsum_cons, IH. apply Hzero.
Qed.

(** Replacing [old] by [old + d] at one position adds [d] to the sum
    over the material cells when that position holds material. *)
Lemma heat_insert (l : list F) (gl : list Z) (p : nat) (old d : F) (gv : Z) sh1 sh2 :
  l !! p = Some old → gl !! p = Some gv →
  fsum (material_cells (NdArray sh1 (<[p := (old + d)%F]> l)) (NdArray sh2 gl))
  = (fsum (material_cells (NdArray sh1 l) (NdArray sh2 gl))
     + (if is_material gv then d else lit 0))%F.
Proof using exact.
  pose proof exact as (Hcomm & Hassoc & Hzero & _).
  unfold material_cells. simpl. revert gl p.
  induction l as [|x l IH]; intros [|y gl] p Hl Hg; try done.
  destruct p as [|p]; simpl in Hl, Hg.
  - injection Hl as ->. injection Hg as ->. simpl.
    rewrite !filter_cons. simpl. destruct (is_material gv) eqn:Hm.
    + rewrite !decide_True by done. rewrite !fmap_cons, !fsum_cons. simpl.
      rewrite <- !Hassoc. f_equal. apply Hcomm.
    + rewrite !decide_False by done. by rewrite Hzero.
  - simpl. rewrite !filter_cons. simpl. destruct (decide (is_material y = true)).
    + rewrite !fmap_cons, !fsum_cons. simpl. rewrite (IH gl p) by done.
      by rewrite Hassoc.
    + by apply IH.
Qed.
End ExactSums.

Lemma Qc_exact_arithmetic : exact_arithmetic (F:=Qc).
Proof.
  repeat split; simpl.
  - apply Qcplus_comm.
  - apply Qcplus_assoc.
  - apply Qcplus_0_r.
  - apply Qcmult_0_l.
  - intros a. unfold Qcdiv. apply Qcmult_0_l.
Qed.

Lemma interior_sum_ext `{PyFloat F} sh (f f' : Z → Z → Z → F) :
  (∀ i j k, interior sh i j k → f i j k = f' i j k) →
  interior_sum sh f = interior_sum sh f'.
Proof.
  intros Hext. unfold interior_sum. f_equal.
  apply list_fmap_ext. intros _ i Hi%list_elem_of_lookup_2%elem_of_range. f_equal.
  apply list_fmap_ext. intros _ j Hj%list_elem_of_lookup_2%elem_of_range. f_equal.
  apply list_fmap_ext. intros _ k Hk%list_elem_of_lookup_2%elem_of_range.
  by apply Hext.
Qed.

Section HeatBalance.
Context {F : Type} `{PyFloat F}.
Variables (dt conductivity heat rho ambient_temp convection_coeff : F).
Variables (g : ndarray Z) (T : ndarray F) (sh : nat * nat * nat).

Hypothesis g_shape : shape g = sh.
Hypothesis T_shape : shape T = sh.
Hypothesis g_wf : array_wf g.
Hypothesis T_wf : array_wf T.
Hypothesis divisor_nonzero : feqb (rho * heat)%F (lit 0) = false.
Hypothesis exact : exact_arithmetic (F:=F).
Hypothesis no_convection : convection_coeff = lit 0.

Local Abbreviation nx := (Z.of_nat sh.1.1).
Local Abbreviation ny := (Z.of_nat sh.1.2).
Local Abbreviation nz := (Z.of_nat sh.2).
Local Abbreviation target :=
  (cell_target dt conductivity heat rho ambient_temp convection_coeff g T sh).
Local Abbreviation step_written :=
  (written dt conductivity heat rho ambient_temp convection_coeff g T sh).
Local Abbreviation heat_in := (total_heat g).
Local Abbreviation old_at := (temperature_at T).
Local Abbreviation gain_at := (gain dt conductivity heat rho g T).
Local Abbreviation exchange_at := (diffusion_gain dt conductivity heat rho T).

Lemma cell_target_exact i j k :
  interior sh i j k →
  target i j k = Ok (old_at i j k + exchange_at i j k)%F.
Proof using g_shape T_shape g_wf T_wf divisor_nonzero exact no_convection.
  intros Hint. destruct exact as (_ & _ & Hzero & Hmul & Hquot).
  destruct (cell_target_total dt conductivity heat rho ambient_temp convection_coeff
              g T sh g_shape T_shape g_wf T_wf divisor_nonzero i j k Hint) as [v Hv].
  rewrite Hv. revert Hv. unfold cell_target, diffusion_gain, laplacian_at, temperature_at.
  destruct (getitem T (i + 1) j k) as [t1|]; [|done].
  destruct (getitem T (i - 1) j k) as [t2|]; [|done].
  destruct (getitem T i (j + 1) k) as [t3|]; [|done].
  destruct (getitem T i (j - 1) k) as [t4|]; [|done].
  destruct (getitem T i j (k + 1)) as [t5|]; [|done].
  destruct (getitem T i j (k - 1)) as [t6|]; [|done].
  destruct (getitem T i j k) as [c|]; [|done].
  res_simpl. unfold pydiv. rewrite divisor_nonzero. res_simpl.
  destruct (surface_scan _ _ _ _ _ _ _ _) as [b|]; [|done]. res_simpl.
  intros [= <-]. f_equal. destruct b; [|done].
  by rewrite no_convection, Hmul, Hmul, Hquot, Hzero.
Qed.

(** The buffer after the body of the loops at one cell, explicitly. *)
Lemma update_cell_result V nt i j k gv :
  step_written V nt → interior sh i j k → ¬ V i j k →
  getitem g i j k = Ok gv →
  update_cell dt conductivity heat rho ambient_temp convection_coeff
    g T nx ny nz nt i j k =
  Ok (if is_material gv
      then NdArray (shape nt)
             (<[pos sh i j k := (old_at i j k + exchange_at i j k)%F]> (data nt))
      else nt)
  ∧ data nt !! pos sh i j k = Some (old_at i j k).
Proof using g_shape T_shape g_wf T_wf divisor_nonzero exact no_convection.
  intros (Hs & Hwf & Hcells) Hint HnV Hgv.
  pose proof (interior_in_range0 sh i j k Hint) as Hr.
  destruct (Hcells i j k Hr) as (_ & Hold & _). specialize (Hold HnV).
  pose proof (cell_target_exact i j k Hint) as Hv.
  assert (data nt !! pos sh i j k = Some (old_at i j k)) as Hlook.
  { rewrite getitem_lookup in Hold by (by rewrite Hs). rewrite Hs in Hold.
    unfold temperature_at. destruct (getitem T i j k) as [c|] eqn:Hc.
    - by destruct (data nt !! pos sh i j k) as [x|]; [injection Hold as ->|].
    - destruct (getitem_in_range T i j k) as [x Hx]; [done|by rewrite T_shape|congruence]. }
  split; [|done].
  unfold update_cell. rewrite Hgv. res_simpl.
  destruct (is_material gv); [|done].
  revert Hv Hlook Hold. unfold cell_target, diffusion_gain, laplacian_at, temperature_at.
  destruct (getitem T (i + 1) j k) as [t1|]; [|done].
  destruct (getitem T (i - 1) j k) as [t2|]; [|done].
  destruct (getitem T i (j + 1) k) as [t3|]; [|done].
  destruct (getitem T i (j - 1) k) as [t4|]; [|done].
  destruct (getitem T i j (k + 1)) as [t5|]; [|done].
  destruct (getitem T i j (k - 1)) as [t6|]; [|done].
  destruct (getitem T i j k) as [c|] eqn:Hc; [|done].
  res_simpl. unfold pydiv. rewrite divisor_nonzero. res_simpl.
  destruct (surface_scan _ _ _ _ _ _ _ _) as [b|]; [|done]. res_simpl.
  intros [= Hv] Hlook Hold. rewrite Hold. res_simpl.
  rewrite (setitem_in_range nt) by (by rewrite Hs). res_simpl. rewrite Hs.
  destruct b; res_simpl; [|done].
  rewrite getitem_lookup by (by simpl). simpl.
  rewrite list_lookup_insert_eq by (by apply lookup_lt_Some in Hlook). res_simpl.
  rewrite setitem_in_range by (by simpl). simpl.
  by rewrite list_insert_insert_eq, Hv.
Qed.

Lemma update_cell_heat V nt i j k :
  step_written V nt → interior sh i j k → ¬ V i j k →
  ∃ nt', update_cell dt conductivity heat rho ambient_temp convection_coeff
           g T nx ny nz nt i j k = Ok nt' ∧
         step_written (λ i' j' k', V i' j' k' ∨ (i', j', k') = (i, j, k)) nt' ∧
         heat_in nt' = (heat_in nt + gain_at i j k)%F.
Proof using g_shape T_shape g_wf T_wf divisor_nonzero exact no_convection.
  intros Hw Hint HnV.
  destruct (update_cell_written dt conductivity heat rho ambient_temp convection_coeff
              g T sh g_shape T_shape g_wf T_wf divisor_nonzero V nt i j k Hw Hint HnV)
    as (nt' & Hnt' & Hw').
  exists nt'. split; [done|]. split; [done|].
  pose proof (interior_in_range0 sh i j k Hint) as Hr.
  destruct (getitem_in_range g i j k) as [gv Hgv]; [done|by rewrite g_shape|].
  destruct (update_cell_result V nt i j k gv Hw Hint HnV Hgv) as [Hres Hlook].
  rewrite Hres in Hnt'. injection Hnt' as <-.
  unfold gain. rewrite Hgv.
  pose proof exact as (_ & _ & Hzero & _).
  destruct (is_material gv) eqn:Hm; [|by rewrite Hzero].
  assert (data g !! pos sh i j k = Some gv) as Hglook.
  { rewrite getitem_lookup in Hgv by (by rewrite g_shape). rewrite g_shape in Hgv.
    by destruct (data g !! pos sh i j k) as [x|]; [injection Hgv as ->|]. }
  pose proof (heat_insert exact (data nt) (data g) (pos sh i j k)
                (old_at i j k) (exchange_at i j k) gv
                (shape nt) (shape g) Hlook Hglook) as Hins.
  rewrite Hm in Hins. exact Hins.
Qed.

(** A loop whose body, at key [x], visits the cells [cells x] and adds
    [D x] to the total heat. *)
Lemma foldM_heat {K} (cells : K → Z → Z → Z → Prop) (D : K → F)
    (body : ndarray F → K → res (ndarray F)) (l : list K) :
  NoDup l →
  (∀ x y i j k, cells x i j k → cells y i j k → x = y) →
  (∀ V nt x, x ∈ l → step_written V nt → (∀ i j k, cells x i j k → ¬ V i j k) →
     ∃ nt', body nt x = Ok nt' ∧
            step_written (λ i j k, V i j k ∨ cells x i j k) nt' ∧
            heat_in nt' = (heat_in nt + D x)%F) →
  ∀ V nt, step_written V nt → (∀ x i j k, x ∈ l → cells x i j k → ¬ V i j k) →
    ∃ nt', foldM body nt l = Ok nt' ∧
           step_written (λ i j k, V i j k ∨ ∃ x, x ∈ l ∧ cells x i j k) nt' ∧
           heat_in nt' = (heat_in nt + fsum (D <$> l))%F.
Proof using exact.
  pose proof exact as (_ & Hassoc & Hzero & _).
  intros Hnd Hinj. induction Hnd as [|x l Hx Hnd IH]; intros Hbody V nt Hw Hfresh.
  - exists nt. split; [done|]. split; [|by rewrite Hzero].
    eapply written_iff; [|done].
    intros i j k. split; [by left|]. intros [?|(x & Hx & _)]; [done|].
    by apply elem_of_nil in Hx.
  - destruct (Hbody V nt x) as (nt1 & Hb1 & Hw1 & Hh1);
      [left|done|intros i j k; apply Hfresh; left|].
    destruct IH with (V := λ i j k, V i j k ∨ cells x i j k) (nt := nt1)
      as (nt' & Hf & Hw' & Hh'); [|done|..].
    + intros V' nt'' y Hy. apply Hbody. by right.
    + intros y i j k Hy Hc [HV|Hcx].
      * eapply Hfresh; [by right|done..].
      * rewrite (Hinj _ _ _ _ _ Hc Hcx) in Hy. done.
    + exists nt'. simpl. rewrite Hb1. res_simpl. split; [done|]. split.
      * eapply written_iff; [|done]. intros i j k. simpl. split.
        -- intros [[HV|Hcx]|(y & Hy & Hcy)]; [by left|right..].
           ++ exists x. split; [left|done].
           ++ exists y. split; [by right|done].
        -- intros [HV|(y & Hy & Hcy)]; [by left; left|].
           apply elem_of_cons in Hy as [->|Hy]; [by left; right|].
           right. by exists y.
      * rewrite Hh', Hh1, ?fmap_cons, (fsum_cons exact). by rewrite Hassoc.
Qed.

Lemma diffuse_heat :
  ∃ T', diffuse dt conductivity heat rho ambient_temp convection_coeff
          g T nx ny nz T = Ok T' ∧
        step_written (interior sh) T' ∧
        heat_in T' = (heat_in T + total_gain dt conductivity heat rho g T sh)%F.
Proof using g_shape T_shape g_wf T_wf divisor_nonzero exact no_convection.
  unfold diffuse, total_gain, interior_sum.
  destruct (foldM_heat
    (λ i0 i j k, i = i0 ∧ 1 ≤ j < ny - 1 ∧ 1 ≤ k < nz - 1)
    (λ i, fsum ((λ j, fsum ((λ k, gain_at i j k) <$> range 1 (nz - 1)))
                  <$> range 1 (ny - 1)))
    (λ nt i, foldM (λ nt j, foldM (λ nt k,
       update_cell dt conductivity heat rho ambient_temp convection_coeff
         g T nx ny nz nt i j k) nt (range 1 (nz - 1))) nt (range 1 (ny - 1)))
    (range 1 (nx - 1))) with (V := λ _ _ _ : Z, False) (nt := T)
    as (T' & HT' & Hw & Hh).
  - apply NoDup_range.
  - intros x y i j k [-> _] [-> _]. done.
  - intros V nt i0 Hi0 Hw Hfresh. apply elem_of_range in Hi0.
    destruct (foldM_heat
      (λ j0 i j k, i = i0 ∧ j = j0 ∧ 1 ≤ k < nz - 1)
      (λ j, fsum ((λ k, gain_at i0 j k) <$> range 1 (nz - 1)))
      (λ nt j, foldM (λ nt k,
         update_cell dt conductivity heat rho ambient_temp convection_coeff
           g T nx ny nz nt i0 j k) nt (range 1 (nz - 1)))
      (range 1 (ny - 1))) with (V := V) (nt := nt) as (nt' & Hnt' & Hw' & Hh').
    + apply NoDup_range.
    + intros x y i j k (_ & -> & _) (_ & -> & _). done.
    + intros V1 nt1 j0 Hj0 Hw1 Hfresh1. apply elem_of_range in Hj0.
      destruct (foldM_heat
        (λ k0 i j k, i = i0 ∧ j = j0 ∧ k = k0)
        (λ k, gain_at i0 j0 k)
        (λ nt k, update_cell dt conductivity heat rho ambient_temp convection_coeff
           g T nx ny nz nt i0 j0 k)
        (range 1 (nz - 1))) with (V := V1) (nt := nt1) as (nt2 & Hnt2 & Hw2 & Hh2).
      * apply NoDup_range.
      * intros x y i j k (_ & _ & ->) (_ & _ & ->). done.
      * intros V2 nt2 k0 Hk0 Hw2 Hfresh2. apply elem_of_range in Hk0.
        destruct (update_cell_heat V2 nt2 i0 j0 k0) as (nt3 & Hnt3 & Hw3 & Hh3);
          [done|done|by apply Hfresh2|].
        exists nt3. split; [done|]. split; [|done]. eapply written_iff; [|done].
        intros i j k. simpl. split.
        -- intros [?|[= -> -> ->]]; [by left|by right].
        -- intros [?|(-> & -> & ->)]; [by left|by right].
      * done.
      * intros k0 i j k Hk0 (-> & -> & ->). apply elem_of_range in Hk0.
        by apply Hfresh1.
      * exists nt2. split; [done|]. split; [|done]. eapply written_iff; [|done].
        intros i j k. simpl. split.
        -- intros [?|(k0 & Hk0 & -> & -> & ->)]; [by left|]. right.
           by apply elem_of_range in Hk0.
        -- intros [?|(-> & -> & Hk)]; [by left|]. right. exists k.
           by rewrite elem_of_range.
    + done.
    + intros j0 i j k Hj0 (-> & -> & Hk). apply elem_of_range in Hj0.
      by apply Hfresh.
    + exists nt'. split; [done|]. split; [|done]. eapply written_iff; [|done].
      intros i j k. simpl. split.
      * intros [?|(j0 & Hj0 & -> & -> & Hk)]; [by left|]. right.
        by apply elem_of_range in Hj0.
      * intros [?|(-> & Hj & Hk)]; [by left|]. right. exists j.
        by rewrite elem_of_range.
  - by apply written_start.
  - by intros ?????? [].
  - exists T'. split; [done|]. split; [|done]. eapply written_iff; [|done].
    intros i j k. unfold interior. simpl. split.
    + intros [[]|(i0 & Hi0 & -> & Hj & Hk)]. by apply elem_of_range in Hi0.
    + intros (Hi & Hj & Hk). right. exists i. by rewrite elem_of_range.
Qed.
End HeatBalance.

(** The scheme in exact arithmetic, which rounded numbers do not have:
    on an initialized simulator whose interior cells all hold material
    and whose convection coefficient is 0, the sum of the temperatures
    over the material cells after one step is the sum before plus,
    summed over the interior cells, [alpha * dt * laplacian]. *)
Lemma heat_balance_exact {F} `{PyFloat F} (self : ThermalSimulator (F:=F)) g T :
  initialized self g T → divisor_ok (config self) → data T ≠ [] →
  exact_arithmetic (F:=F) →
  convection_of (config self) = lit 0 →
  (∀ i j k, interior (shape g) i j k →
     ∃ gv, getitem g i j k = Ok gv ∧ is_material gv = true) →
  let cfg := config self in
  let exchanged := diffusion_gain (dt_of cfg) (conductivity_of cfg) (heat_of cfg)
                     (rho_of cfg) T in
  ∃ self' T',
    simulate_step self = Return tt self' ∧ temperature self' = Some T' ∧
    total_heat g T' = (total_heat g T + interior_sum (shape g) exchanged)%F ∧
    ((∀ i j k, interior (shape g) i j k → exchanged i j k = lit 0) →
     total_heat g T' = total_heat g T).
Proof.
  intros Hinit Hdiv Hne Hexact Hconv Hfull cfg exchanged.
  destruct (simulate_step_unfold self g T Hinit Hdiv) as (T' & Hdiff & _ & _).
  destruct (simulate_step_returns self g T Hinit Hdiv Hne)
    as (T1 & self' & Hstep & _ & Hinit' & _).
  destruct (simulate_step_unfold self g T Hinit Hdiv) as (T2 & Hdiff2 & _ & Hstep2).
  assert (T2 = T') as -> by congruence.
  assert (temperature self' = Some T') as HT'.
  { rewrite Hstep2 in Hstep. destruct Hinit' as (_ & HT1 & _).
    destruct (_ =? _); [destruct (take_sample _ _ _ _)|]; [| |];
      try discriminate; injection Hstep as <-; done. }
  pose proof Hinit as (_ & _ & Hsh & Hgwf & HTwf).
  destruct (diffuse_heat (dt_of cfg) (conductivity_of cfg) (heat_of cfg) (rho_of cfg)
              (ambient_of cfg) (convection_of cfg) g T (shape g)
              eq_refl Hsh Hgwf HTwf Hdiv Hexact Hconv) as (T3 & Hdiff3 & _ & Hheat).
  fold cfg in Hdiff. assert (T3 = T') as -> by congruence.
  assert (total_gain (dt_of cfg) (conductivity_of cfg) (heat_of cfg) (rho_of cfg) g T (shape g)
          = interior_sum (shape g) exchanged) as Hgain.
  { unfold total_gain. apply interior_sum_ext. intros i j k Hint.
    destruct (Hfull i j k Hint) as (gv & Hgv & Hm). unfold gain. by rewrite Hgv, Hm. }
  rewrite Hgain in Hheat.
  exists self', T'. split; [done|]. split; [done|]. split; [done|].
  intros Hzero. rewrite Hheat.
  rewrite (interior_sum_ext (shape g) exchanged (λ _ _ _, lit 0)) by done.
  unfold interior_sum.
  rewrite (list_fmap_ext _ (λ _, lit 0) (range 1 (Z.of_nat (shape g).1.1 - 1))).
  - rewrite (fsum_zero Hexact). by destruct Hexact as (_ & _ & -> & _).
  - intros _ i _.
    rewrite (list_fmap_ext _ (λ _, lit 0) (range 1 (Z.of_nat (shape g).1.2 - 1))).
    + apply (fsum_zero Hexact).
    + intros _ j _. apply (fsum_zero Hexact).
Qed.

Lemma cube_initialized : initialized cube (the_grid cube) (the_temperature cube).
Proof. repeat split; vm_compute; reflexivity. Qed.

Lemma cube_interior i j k : interior (3, 3, 3)%nat i j k → i = 1 ∧ j = 1 ∧ k = 1.
Proof. unfold interior. simpl. lia. Qed.

Lemma heat_balance_exact_cube :
  ∃ self' T',
    simulate_step cube = Return tt self' ∧ temperature self' = Some T' ∧
    total_heat (the_grid cube) T' = lit (275 # 4).
Proof.
  destruct (heat_balance_exact cube (the_grid cube) (the_temperature cube))
    as (self' & T' & Hstep & HT' & Hheat & _).
  - exact cube_initialized.
  - reflexivity.
  - by_compute.
  - exact Qc_exact_arithmetic.
  - apply Qc_is_canon. reflexivity.
  - intros i j k (-> & -> & ->)%cube_interior. exists 1. by_compute.
  - exists self', T'. split; [exact Hstep|]. split; [exact HT'|].
    rewrite Hheat. apply Qc_is_canon. vm_compute. reflexivity.
Qed.

Section FixedBoundary.
Context {F : Type} `{PyFloat F}.
Implicit Types (self : ThermalSimulator (F:=F)).

End FixedBoundary.



(** ** The same runs in binary64

    The runs above were evaluated over the rationals. Evaluated in
    binary64, the arithmetic of the source, they end in the same states:
    the values involved are doubles, or round to the double nearest to the
    rational result. *)

Example binary64_history_after_37_steps :
  let self' := state_after (run_steps 37) (with_grid_in float) in
  run_steps 37 (with_grid_in float) = Return tt self' ∧
  length (history self') = 1%nat.
Proof. split; vm_compute; reflexivity. Qed.

Example binary64_sample_with_layer :
  let self' := state_after simulate_step (with_layer_in float) in
  simulate_step (with_layer_in float) = Return tt self' ∧
  history self' =
    [{| sample_time := lit 0.1; max_temp := lit (159909 # 800);
        min_temp := lit 25; avg_temp := lit (159909 # 800) |}] ∧
  material_cells (the_temperature self') (the_grid self') = [lit (159909 # 800)] ∧
  flt (lit 25) (lit (159909 # 800) : float) = true.
Proof. repeat split; vm_compute; reflexivity. Qed.

Example binary64_heat_is_not_conserved :
  let cube := cube_in float in
  let cube' := state_after simulate_step cube in
  simulate_step cube = Return tt cube' ∧
  total_heat (the_grid cube) (the_temperature cube) = lit 200 ∧
  total_heat (the_grid cube') (the_temperature cube') = lit (275 # 4).
Proof. repeat split; vm_compute; reflexivity. Qed.

Example binary64_negative_index_accepted :
  let self' := state_after (add_layer tt (-1)) (with_grid_in float) in
  add_layer tt (-1) (with_grid_in float) = Return tt self' ∧
  getitem (the_grid self') 5 5 10 = Ok 1 ∧
  getitem (the_temperature self') 5 5 10 = Ok (lit 200).
Proof. repeat split; vm_compute; reflexivity. Qed.

(** The error paths and the reductions where binary64 and the rationals
    part: an infinite quotient is refused by [int], a NaN wins [np.max],
    nine times 0.1 are added pairwise to a mean of 0.1 (from the left:
    0.09999999999999999), and a uniform field at 0.1 is not steady under
    a diffusivity of 1 and a time step of 0.125. *)
Example binary64_infinite_quotient :
  let huge : float := Nat.iter 17 (fmul (lit (10 ^ 18))) (lit 100) in
  ftrunc (huge / lit 0.1)%F = Err OverflowError ∧
  initialize_grid (huge, lit 1, lit 1) (lit 0.1) (fresh_in float)
  = Raise OverflowError (fresh_in float).
Proof. split; vm_compute; reflexivity. Qed.

(** On a machine without memory the first array is not obtained; nor
    is, on any machine, a grid of 10^18 x 11 x 11 cells. *)
Example binary64_no_memory :
  initialize_grid (H0 := {| allocates _ _ _ := false |})
    (lit 10, lit 10, lit 10) (lit 1) (fresh_in float)
  = Raise MemoryError (fresh_in float) ∧
  raised (initialize_grid (lit (10 ^ 18), lit 10, lit 10) (lit 1) (fresh_in float))
  = Some (ValueError "array is too big; `arr.size * arr.dtype.itemsize` is larger than the maximum possible size.").
Proof. split; vm_compute; reflexivity. Qed.

Example binary64_nan_wins :
  let nan : float := (lit 0 / lit 0)%F in
  isnan nan = true ∧
  np_max [lit 25; nan; lit 25] = Ok nan ∧ np_min [lit 25; nan; lit 25] = Ok nan.
Proof. repeat split; vm_compute; reflexivity. Qed.

Example binary64_pairwise_mean :
  let cells : list float := replicate 9 (lit 0.1) in
  np_mean cells = lit 0.1 ∧
  feqb (fsum cells / of_int 9)%F (lit 0.1) = false.
Proof. split; vm_compute; reflexivity. Qed.

Example binary64_tenth_is_not_steady :
  let a : float := lit 0.1 in
  feqb (a + lit 1 / (lit 1 * lit 1) * lit 0.125
              * (a + a + a + a + a + a - of_int 6 * a))%F a = false.
Proof. vm_compute. reflexivity. Qed.

(** * Further properties of the simulator *)

(** ** Arrays are determined by their cells *)

Lemma unflatten (sh : nat * nat * nat) (p : nat) :
  (p < size_of sh)%nat → ∃ i j k, in_range sh i j k ∧ pos sh i j k = p.
Proof.
  destruct sh as [[nx ny] nz]. unfold size_of, in_range, pos, offset. intros Hp.
  assert (nz ≠ 0)%nat by (intros ->; lia).
  assert (ny ≠ 0)%nat by (intros ->; lia).
  assert (p / nz < nx * ny)%nat as Hq.
  { apply Nat.Div0.div_lt_upper_bound. lia. }
  exists (Z.of_nat (p / nz / ny)), (Z.of_nat ((p / nz) mod ny)), (Z.of_nat (p mod nz)).
  rewrite !Nat2Z.id. split.
  - pose proof (Nat.mod_upper_bound (p / nz) ny). pose proof (Nat.mod_upper_bound p nz).
    assert (p / nz / ny < nx)%nat by (apply Nat.Div0.div_lt_upper_bound; lia).
    lia.
  - pose proof (Nat.div_mod_eq (p / nz) ny). pose proof (Nat.div_mod_eq p nz). nia.
Qed.

Lemma ndarray_ext {A} (a b : ndarray A) :
  array_wf a → array_wf b → shape a = shape b →
  (∀ i j k, in_range (shape a) i j k → getitem a i j k = getitem b i j k) →
  a = b.
Proof.
  destruct a as [sh la], b as [sh' lb]. unfold array_wf. simpl.
  intros Ha Hb <- Hcells. f_equal. apply list_eq. intros p.
  destruct (decide (p < size_of sh)%nat) as [Hp|Hp].
  - destruct (unflatten sh p Hp) as (i & j & k & Hr & <-).
    specialize (Hcells i j k Hr). rewrite !getitem_lookup in Hcells by done.
    simpl in Hcells.
    destruct (lookup_lt_is_Some_2 la (pos sh i j k)) as [x Hx]; [lia|].
    destruct (lookup_lt_is_Some_2 lb (pos sh i j k)) as [y Hy]; [lia|].
    rewrite Hx, Hy in Hcells |- *. congruence.
  - rewrite !lookup_ge_None_2 by lia. done.
Qed.

(** ** The edges of a step *)

Section StepEdges.
Context {F : Type} `{PyFloat F}.
Implicit Types (self : ThermalSimulator (F:=F)).

Lemma foldM_decide {A B} (body : B → A → res B) (acc : B) (l : list A)
    (e : exn) (P : A → bool) :
  (∀ x, x ∈ l → body acc x = if P x then Err e else Ok acc) →
  foldM body acc l = if existsb P l then Err e else Ok acc.
Proof.
  induction l as [|x l IH]; intros Hl; [done|]. simpl.
  rewrite Hl by left. destruct (P x); [done|]. res_simpl. simpl.
  apply IH. intros y Hy. apply Hl. by right.
Qed.

(** X1. A step on a simulator whose interior holds no material: it
    returns, whatever the material constants are (no division is reached,
    so a zero [density * specific_heat] goes unnoticed), the temperature
    field and the grid are exactly what they were, and the clock has
    advanced by the time step. *)
Theorem simulate_step_without_material self g T :
  initialized self g T → interior_is_air g → data T ≠ [] →
  ∃ self',
    simulate_step self = Return tt self' ∧
    temperature self' = Some T ∧ grid self' = Some g ∧
    config self' = config self ∧
    time self' = (time self + dt_of (config self))%F.
Proof.
  intros (Hg & HT & Hsh & _) Hair Hne.
  rewrite (simulate_step_cases self g T Hg HT). cbn zeta.
  rewrite diffuse_air by done. unfold after_loops.
  destruct (take_sample_ok (time self + dt_of (config self))%F
              (ambient_of (config self)) g T Hne Hsh) as (mx & mn & _ & _ & ->).
  destruct (_ =? _); eexists; (split; [done|]); by repeat split.
Qed.

(** The body of the loops at an interior cell when the divisor is zero. *)
Lemma update_cell_zero_divisor dt cd ht rho amb cv (g : ndarray Z) (T : ndarray F)
    i j k gv :
  shape T = shape g → array_wf T →
  feqb (rho * ht)%F (lit 0) = true →
  interior (shape g) i j k → getitem g i j k = Ok gv →
  update_cell dt cd ht rho amb cv g T
    (Z.of_nat (shape g).1.1) (Z.of_nat (shape g).1.2) (Z.of_nat (shape g).2) T i j k
  = if is_material gv then Err ZeroDivisionError else Ok T.
Proof.
  intros Hsh Hwf Hzero Hint Hgv. unfold update_cell. rewrite Hgv. res_simpl.
  destruct (is_material gv); [|done].
  assert (∀ di dj dk, -1 ≤ di ≤ 1 → -1 ≤ dj ≤ 1 → -1 ≤ dk ≤ 1 →
          ∃ x, getitem T (i + di) (j + dj) (k + dk) = Ok x) as Hget.
  { intros. apply getitem_in_range; [done|]. rewrite Hsh.
    by apply interior_in_range. }
  destruct (Hget 1 0 0) as [t1 H1]; [lia..|].
  destruct (Hget (-1) 0 0) as [t2 H2]; [lia..|].
  destruct (Hget 0 1 0) as [t3 H3]; [lia..|].
  destruct (Hget 0 (-1) 0) as [t4 H4]; [lia..|].
  destruct (Hget 0 0 1) as [t5 H5]; [lia..|].
  destruct (Hget 0 0 (-1)) as [t6 H6]; [lia..|].
  destruct (Hget 0 0 0) as [c Hc]; [lia..|].
  rewrite ?Z.add_0_r in *. change (i + -1) with (i - 1) in H2.
  change (j + -1) with (j - 1) in H4. change (k + -1) with (k - 1) in H6.
  rewrite H1, H2, H3, H4, H5, H6, Hc. res_simpl.
  unfold pydiv. by rewrite Hzero.
Qed.

(** X2. A step with [density * specific_heat == 0] on a simulator with a
    material cell in the interior raises [ZeroDivisionError], and the
    simulator is exactly as before: the loops work on a copy, and nothing
    is assigned before they end. *)
Theorem simulate_step_zero_divisor self g T i j k :
  initialized self g T →
  feqb (rho_of (config self) * heat_of (config self))%F (lit 0) = true →
  interior_material g i j k →
  simulate_step self = Raise ZeroDivisionError self.
Proof.
  intros (Hg & HT & Hsh & Hgwf & HTwf) Hzero (Hint & gv & Hgv & Hm).
  rewrite (simulate_step_cases self g T Hg HT). cbn zeta.
  set (mat := λ i j k, match getitem g i j k with
                       | Ok gv => is_material gv
                       | Err _ => false
                       end).
  assert (∀ x, getitem g i j k = Ok x → mat i j k = is_material x) as Hmat
    by (by intros x; unfold mat; intros ->).
  unfold diffuse.
  rewrite (foldM_decide _ T _ ZeroDivisionError
             (λ i, existsb (λ j, existsb (mat i j)
                (range 1 (Z.of_nat (shape g).2 - 1)))
                (range 1 (Z.of_nat (shape g).1.2 - 1)))).
  - assert (existsb (λ i, existsb (λ j, existsb (mat i j)
              (range 1 (Z.of_nat (shape g).2 - 1)))
              (range 1 (Z.of_nat (shape g).1.2 - 1)))
              (range 1 (Z.of_nat (shape g).1.1 - 1)) = true) as ->; [|done].
    destruct Hint as (Hi & Hj & Hk).
    apply existsb_exists. exists i. split; [by apply list_elem_of_In, elem_of_range|].
    apply existsb_exists. exists j. split; [by apply list_elem_of_In, elem_of_range|].
    apply existsb_exists. exists k. split; [by apply list_elem_of_In, elem_of_range|].
    by rewrite (Hmat gv).
  - intros i0 Hi0%elem_of_range. apply foldM_decide.
    intros j0 Hj0%elem_of_range. apply foldM_decide.
    intros k0 Hk0%elem_of_range.
    assert (interior (shape g) i0 j0 k0) as Hint0 by done.
    destruct (getitem_in_range g i0 j0 k0) as [gv0 Hgv0];
      [done|by apply interior_in_range0|].
    rewrite (update_cell_zero_divisor _ _ _ _ _ _ g T i0 j0 k0 gv0) by done.
    unfold mat. by rewrite Hgv0.
Qed.

Lemma empty_grid_interior_is_air (g : ndarray Z) :
  array_wf g → data g = [] → interior_is_air g.
Proof.
  intros Hwf Hnil i j k Hint%interior_in_range0%pos_lt_size.
  rewrite <- Hwf, Hnil in Hint. simpl in Hint. lia.
Qed.

(** X3. A step on an empty grid (a shape with an axis of length 0) that
    is due to take a sample raises the [ValueError] of [np.max] on an
    empty array, after the field and the clock have been assigned: the
    simulator it leaves has the clock advanced by the time step and the
    history as it was. A step that is not due to take a sample returns. *)
Theorem simulate_step_empty_grid self g T :
  initialized self g T → data T = [] →
  let self' := final_state (simulate_step self) in
  time self' = (time self + dt_of (config self))%F ∧
  history self' = history self ∧ temperature self' = Some T ∧
  raised (simulate_step self) =
    if Z.of_nat (length (history self)) mod 10 =? 0
    then Some (ValueError
           "zero-size array to reduction operation maximum which has no identity")
    else None.
Proof.
  intros (Hg & HT & Hsh & Hgwf & HTwf) Hnil.
  assert (data g = []) as Hgnil.
  { apply length_zero_iff_nil. rewrite Hgwf, <- Hsh, <- HTwf, Hnil. done. }
  rewrite (simulate_step_cases self g T Hg HT). cbn zeta.
  rewrite diffuse_air by (by apply empty_grid_interior_is_air).
  unfold after_loops, take_sample. rewrite Hnil. cbn [np_max]. res_simpl.
  by destruct (_ =? _).
Qed.
End StepEdges.

Lemma with_grid_interior_is_air : interior_is_air (the_grid with_grid).
Proof.
  intros i j k Hint.
  assert (in_range (shape (the_grid with_grid)) i j k) as Hr
    by (by apply interior_in_range0).
  rewrite getitem_lookup by done.
  assert (data (the_grid with_grid) = replicate 1331 0) as -> by (vm_compute; reflexivity).
  assert (pos (shape (the_grid with_grid)) i j k < 1331)%nat as Hp
    by (apply pos_lt_size in Hr; exact Hr).
  rewrite lookup_replicate_2 by exact Hp. by exists 0.
Qed.

Lemma simulate_step_without_material_with_grid :
  ∃ self', simulate_step with_grid = Return tt self' ∧
    temperature self' = temperature with_grid.
Proof.
  destruct (simulate_step_without_material with_grid (the_grid with_grid)
              (the_temperature with_grid)) as (self' & Hstep & HT' & _).
  - exact with_grid_initialized.
  - exact with_grid_interior_is_air.
  - by_compute.
  - exists self'. split; [exact Hstep|]. rewrite HT'. reflexivity.
Defined.

Lemma zero_density_initialized :
  initialized zero_density (the_grid zero_density) (the_temperature zero_density).
Proof. repeat split; vm_compute; reflexivity. Qed.

Lemma simulate_step_zero_divisor_zero_density :
  simulate_step zero_density = Raise ZeroDivisionError zero_density.
Proof.
  apply (simulate_step_zero_divisor zero_density (the_grid zero_density)
           (the_temperature zero_density) 5 5 5).
  - exact zero_density_initialized.
  - reflexivity.
  - split; [by_compute|]. exists 1. by_compute.
Defined.

Lemma empty_grid_initialized :
  initialized empty_grid (the_grid empty_grid) (the_temperature empty_grid).
Proof. repeat split; vm_compute; reflexivity. Qed.

Lemma simulate_step_empty_grid_raises :
  raised (simulate_step empty_grid) =
    Some (ValueError
      "zero-size array to reduction operation maximum which has no identity")
  ∧ time (final_state (simulate_step empty_grid)) = (time empty_grid + lit 0.1)%F.
Proof.
  destruct (simulate_step_empty_grid empty_grid (the_grid empty_grid)
              (the_temperature empty_grid)) as (Htime & _ & _ & Hraised).
  - exact empty_grid_initialized.
  - reflexivity.
  - split; [exact Hraised|exact Htime].
Defined.

(** ** What a step keeps *)

Section StepKeeps.
Context {F : Type} `{PyFloat F}.
Implicit Types (self : ThermalSimulator (F:=F)).

(** X4. A step changes the temperature of interior material cells only:
    every cell of the outermost layer, material or not, and every air
    cell keeps its temperature; the grid, its shape and the configuration
    are kept, and the clock advances by the time step. *)
Theorem simulate_step_frame self g T :
  initialized self g T → divisor_ok (config self) → data T ≠ [] →
  ∃ self' T',
    simulate_step self = Return tt self' ∧ initialized self' g T' ∧
    config self' = config self ∧
    time self' = (time self + dt_of (config self))%F ∧
    ∀ i j k, in_range (shape g) i j k → ¬ interior_material g i j k →
      getitem T' i j k = getitem T i j k.
Proof.
  intros Hinit Hdiv Hne.
  destruct (simulate_step_returns self g T Hinit Hdiv Hne)
    as (T' & self' & Hstep & Hw & Hinit' & _ & Hcfg & Htime & _).
  exists self', T'. do 4 (split; [done|]).
  intros i j k Hr Hnot. destruct Hw as (_ & _ & Hcells).
  destruct (Hcells i j k Hr) as (_ & Hout & Hair).
  destruct Hinit as (_ & _ & _ & Hgwf & _).
  destruct (getitem_in_range g i j k Hgwf Hr) as [gv Hgv].
  destruct (is_material gv) eqn:Hm; [|by eapply Hair].
  apply Hout. intros Hint. apply Hnot. split; [done|]. by exists gv.
Qed.

Lemma length_range (a b : Z) : length (range a b) = Z.to_nat (b - a).
Proof. unfold range. by rewrite length_fmap, length_seq. Qed.

Lemma for_each_steps_keep {A} (l : list A) self :
  steppable self →
  ∃ self', for_each l (λ _, simulate_step) self = Return tt self' ∧
    steppable self' ∧ grid self' = grid self ∧ config self' = config self ∧
    time self' = Nat.iter (length l) (λ t, (t + dt_of (config self))%F) (time self).
Proof.
  revert self. induction l as [|x l IH]; intros self Hs.
  - by exists self.
  - destruct Hs as (g & T & Hinit & Hdiv & Hne).
    destruct (simulate_step_returns self g T Hinit Hdiv Hne)
      as (T1 & self1 & Hstep & _ & Hinit1 & Hne1 & Hcfg1 & Htime1 & _).
    destruct (IH self1) as (self' & Hrun & Hs' & Hg' & Hcfg' & Htime').
    { exists g, T1. by rewrite Hcfg1. }
    exists self'. rewrite (for_each_cons_return _ x l self self1) by done.
    split; [done|]. split; [done|].
    destruct Hinit as (Hg & _). destruct Hinit1 as (Hg1 & _).
    split; [congruence|]. split; [congruence|].
    cbn [length]. rewrite Nat.iter_succ_r, Htime', Hcfg1, Htime1. done.
Qed.

(** X5. Any number of steps on a simulator on which a step returns: all
    of them return, the grid and the configuration are never touched, and
    the clock is the initial time with the time step added once per step
    (added, not multiplied: in rounded arithmetic the two differ). *)
Theorem run_steps_keep self (n : Z) :
  steppable self →
  ∃ self', run_steps n self = Return tt self' ∧
    steppable self' ∧ grid self' = grid self ∧ config self' = config self ∧
    time self' = Nat.iter (Z.to_nat n) (λ t, (t + dt_of (config self))%F) (time self).
Proof.
  intros Hs. unfold run_steps.
  destruct (for_each_steps_keep (range 0 n) self Hs) as (self' & Hrun & Hrest).
  exists self'. split; [done|]. rewrite length_range in Hrest.
  by replace (Z.to_nat (n - 0)) with (Z.to_nat n) in Hrest by lia.
Qed.

(** X6. The history is append-only. Whatever the simulator and however a
    step ends, returning or raising, the history it leaves starts with the
    history it found and is longer by at most one sample; so does, by
    prefix alone, any run of steps. *)
Theorem history_append_only self (n : Z) :
  let after_one := final_state (simulate_step self) in
  history self `prefix_of` history after_one ∧
  (length (history after_one) ≤ S (length (history self)))%nat ∧
  history self `prefix_of` history (final_state (run_steps n self)).
Proof.
  assert (∀ s : ThermalSimulator (F:=F),
            history s `prefix_of` history (final_state (simulate_step s)) ∧
            (length (history (final_state (simulate_step s)))
             ≤ S (length (history s)))%nat) as Hone.
  { intros s. destruct (grid s) as [g|] eqn:Hg; cycle 1.
    { unfold simulate_step, mbind, M_bind, get_self. rewrite Hg. simpl. split; [done|lia]. }
    destruct (temperature s) as [T|] eqn:HT; cycle 1.
    { unfold simulate_step, mbind, M_bind, get_self. rewrite Hg, HT. simpl.
      split; [done|lia]. }
    rewrite (simulate_step_cases s g T Hg HT). cbn zeta. unfold after_loops.
    destruct (diffuse _ _ _ _ _ _ _ _ _ _ _ _) as [T'|e]; [|simpl; split; [done|lia]].
    destruct (_ =? _); [destruct (take_sample _ _ _ _)|]; simpl;
      try (split; [done|lia]).
    split; [by apply prefix_app_r|]. rewrite length_app. simpl. lia. }
  split; [apply Hone|]. split; [apply Hone|].
  unfold run_steps. generalize (range 0 n). intros l. revert self.
  induction l as [|x l IH]; intros self; [done|].
  cbn [for_each]. unfold mbind, M_bind.
  pose proof (Hone self) as [Hpre _].
  destruct (simulate_step self) as [[] self1|e self1]; simpl in *; [|done].
  etrans; [exact Hpre|apply IH].
Qed.

Lemma for_each_app {A} (body : A → M (F:=F) unit) (l1 l2 : list A) self :
  for_each (l1 ++ l2) body self = (_ ← for_each l1 body; for_each l2 body) self.
Proof.
  revert self. induction l1 as [|x l1 IH]; intros self; [done|].
  cbn [app for_each]. unfold mbind, M_bind in *.
  destruct (body x self) as [[] self1|e self1]; [apply IH|done].
Qed.

Lemma for_each_const {A B} (m : M (F:=F) unit) (l : list A) (l' : list B) self :
  length l = length l' → for_each l (λ _, m) self = for_each l' (λ _, m) self.
Proof.
  revert l' self. induction l as [|x l IH]; intros [|y l'] self Hlen; try done.
  cbn [for_each]. unfold mbind, M_bind.
  destruct (m self) as [[] self1|e self1]; [|done].
  apply IH. simpl in Hlen. lia.
Qed.

Lemma range_app (a b c : Z) : a ≤ b → b ≤ c → range a c = range a b ++ range b c.
Proof.
  intros Hab Hbc. unfold range.
  replace (Z.to_nat (c - a)) with (Z.to_nat (b - a) + Z.to_nat (c - b))%nat by lia.
  rewrite seq_app, fmap_app. f_equal. simpl.
  replace (seq (Z.to_nat (b - a)) (Z.to_nat (c - b)))
    with (Nat.add (Z.to_nat (b - a)) <$> seq 0 (Z.to_nat (c - b)))
    by (rewrite fmap_add_seq; f_equal; lia).
  rewrite <- list_fmap_compose.
  apply list_fmap_ext. intros _ n _. simpl. lia.
Qed.

(** X7. Runs compose: [a + b] steps are [a] steps followed by [b] steps,
    exceptions included, so a run may be split at any point without
    changing its outcome; and a count that is not positive runs no step,
    so that [run_simulation] is then [analyze_results] alone. *)
Theorem run_simulation_split self (a b n : Z) :
  0 ≤ a → 0 ≤ b → n ≤ 0 →
  run_simulation (a + b) self = (_ ← run_steps a; run_simulation b) self ∧
  run_simulation n self = analyze_results self.
Proof.
  intros Ha Hb Hn. split.
  - unfold run_simulation, run_steps.
    rewrite (range_app 0 a (a + b)) by lia.
    unfold mbind at 1 2 3, M_bind. rewrite for_each_app.
    unfold mbind at 1, M_bind.
    destruct (for_each (range 0 a) _ self) as [[] self1|e self1]; [|done].
    rewrite (for_each_const simulate_step (range a (a + b)) (range 0 b)); [done|].
    rewrite !length_range. lia.
  - unfold run_simulation, run_steps. by rewrite range_empty by lia.
Qed.
End StepKeeps.

Lemma simulate_step_frame_with_layer :
  ∃ self' T', simulate_step with_layer = Return tt self' ∧
    temperature self' = Some T' ∧
    getitem T' 0 5 5 = getitem (the_temperature with_layer) 0 5 5.
Proof.
  destruct (simulate_step_frame with_layer (the_grid with_layer)
              (the_temperature with_layer))
    as (self' & T' & Hstep & (_ & HT' & _) & _ & _ & Hframe).
  - exact with_layer_initialized.
  - exact default_divisor_ok.
  - by_compute.
  - exists self', T'. split; [exact Hstep|]. split; [exact HT'|].
    apply Hframe; [by_compute|].
    intros [(Hi & _) _]. lia.
Defined.

Lemma run_steps_keep_with_grid :
  ∃ self', run_steps 37 with_grid = Return tt self' ∧
    grid self' = grid with_grid ∧
    time self' = Nat.iter 37 (λ t, (t + lit 0.1)%F) (lit 0).
Proof.
  destruct (run_steps_keep with_grid 37) as (self' & Hrun & _ & Hg & _ & Htime).
  - exact with_grid_steppable.
  - exists self'. split; [exact Hrun|]. split; [exact Hg|exact Htime].
Defined.

Lemma run_simulation_split_with_grid :
  run_simulation 37 with_grid = (_ ← run_steps 30; run_simulation 7) with_grid
  ∧ run_simulation (-3) with_grid = analyze_results with_grid.
Proof.
  apply (run_simulation_split with_grid 30 7 (-3)); lia.
Defined.

(** ** The analysis *)

Section AnalysisFacts.
Context {F : Type} `{PyFloat F}.
Implicit Types (self : ThermalSimulator (F:=F)).

Lemma foldM_error {A B} (body : B → A → res B) (P : exn → Prop) (l : list A) :
  (∀ acc x e, body acc x = Err e → P e) →
  ∀ acc e, foldM body acc l = Err e → P e.
Proof.
  intros Hbody. induction l as [|x l IH]; intros acc e; [done|]. simpl.
  destruct (body acc x) as [acc'|e'] eqn:Hb; res_simpl.
  - apply IH.
  - intros [= <-]. by eapply Hbody.
Qed.

Lemma list_getitem_error {A} (l : list A) (i : Z) e :
  list_getitem l i = Err e → e = IndexError.
Proof.
  unfold list_getitem. repeat case_match; congruence.
Qed.

(** The loop over the history raises nothing but the errors of indexing
    and of division. *)
Lemma cooling_rates_of_error (h : list (Sample (F:=F))) e :
  cooling_rates_of h = Err e → e = IndexError ∨ e = ZeroDivisionError.
Proof.
  unfold cooling_rates_of.
  apply (foldM_error _ (λ e, e = IndexError ∨ e = ZeroDivisionError)).
  clear e. intros acc i e.
  unfold cooling_rate_at.
  destruct (list_getitem h i) as [cur|e1] eqn:H1; res_simpl;
    [|intros [= <-]; left; by eapply list_getitem_error].
  destruct (list_getitem h (i - 1)) as [prev|e2] eqn:H2; res_simpl;
    [|intros [= <-]; left; by eapply list_getitem_error].
  destruct (fgt _ _); res_simpl; [|done].
  unfold pydiv. destruct (feqb _ _); res_simpl; [|done].
  intros [= <-]. by right.
Qed.

(** X8. [analyze_results] only reads: however it ends, the simulator is
    exactly what it was. It raises [ValueError("No simulation data
    available")] exactly when the grid or the temperature field is
    missing. *)
Theorem analyze_results_read_only self :
  final_state (analyze_results self) = self ∧
  (raised (analyze_results self) = Some (ValueError "No simulation data available")
   ↔ grid self = None ∨ temperature self = None).
Proof.
  unfold analyze_results, mbind, M_bind, get_self.
  destruct (grid self) as [g|] eqn:Hg; cycle 1.
  { simpl. split; [done|]. split; [by left|done]. }
  destruct (temperature self) as [T|] eqn:HT; cycle 1.
  { simpl. split; [done|]. split; [by right|done]. }
  assert (∀ o : outcome (F:=F) (Report (F:=F)),
            final_state o = self →
            raised o ≠ Some (ValueError "No simulation data available") →
            final_state o = self ∧
            (raised o = Some (ValueError "No simulation data available")
             ↔ Some g = None ∨ Some T = None)) as Hgoal.
  { intros o Hfin Hneq. split; [done|]. split; [done|]. by intros [|]. }
  apply Hgoal; clear Hgoal.
  - unfold lift.
    destruct (cooling_rates_of (history self)) as [rates|e]; [|done].
    destruct (np_max (data T)) as [mx|e]; [|done].
    destruct (np_min (data T)) as [mn|e]; [|done].
    by destruct (any_material g); [destruct (select_material T g)|].
  - unfold lift.
    destruct (cooling_rates_of (history self)) as [rates|e] eqn:Hrates.
    2:{ simpl. apply cooling_rates_of_error in Hrates as [->| ->]; discriminate. }
    destruct (data T) as [|x l]; [simpl; discriminate|]. cbn [np_max np_min].
    destruct (any_material g); [|done].
    unfold select_material. by destruct (decide _).
Qed.
End AnalysisFacts.

(** ** Reports *)

Section Reports.
Context {F : Type} `{PyFloat F}.
Implicit Types (self : ThermalSimulator (F:=F)).

(** The report, given the rates the loop over the history has found. *)
Lemma analyze_results_with_rates self g T rates :
  initialized self g T → data T ≠ [] →
  cooling_rates_of (history self) = Ok rates →
  ∃ mx mn,
    np_max (data T) = Ok mx ∧ np_min (data T) = Ok mn ∧
    analyze_results self =
      Return
        {| simulation_time := time self;
           num_steps := Z.of_nat (length (history self)) * 10;
           temperature_stats :=
             {| final_max := mx; final_min := mn;
                final_avg := if any_material g
                             then np_mean (material_cells T g)
                             else lit 0 |};
           cooling_stats :=
             {| max_cooling_rate := max_rate_of rates;
                avg_cooling_rate :=
                  match rates with
                  | [] => lit 0
                  | _ => np_mean rates
                  end |};
           potential_issues := cooling_issue self rates ++ temperature_issue self mx;
           report_history := history self |}
        self.
Proof.
  intros (Hg & HT & Hsh & _ & _) Hne Hrates.
  destruct (data T) as [|x l] eqn:Hd; [done|].
  exists (fold_left np_maximum l x), (fold_left np_minimum l x).
  split; [done|]. split; [done|].
  unfold analyze_results, mbind, M_bind, get_self. rewrite Hg, HT.
  unfold lift at 1. rewrite Hrates.
  rewrite Hd. cbn [np_max np_min lift].
  unfold select_material. rewrite decide_True by done.
  unfold cooling_issue, temperature_issue, max_rate_of, mret, M_ret.
  destruct (any_material g); res_simpl; cbn [lift];
    destruct rates as [|r rs];
    repeat match goal with |- context [if ?b then _ else _] => destruct b end;
    rewrite ?app_nil_r; reflexivity.
Qed.

Lemma cooling_rates_of_short (h : list (Sample (F:=F))) :
  (length h ≤ 1)%nat → cooling_rates_of h = Ok [].
Proof. intros Hlen. unfold cooling_rates_of. by rewrite range_empty by lia. Qed.

(** X9. The [high_temperature] issue. On an initialized simulator whose
    cells and threshold are ordered (none is NaN) it is reported exactly
    when some cell of the field, air cells included, is above
    [max_temp_threshold] (250 by default); it then carries the reported
    [final_max], a cell of the field that no cell exceeds, and the
    threshold. *)
Theorem analyze_results_high_temperature self g T :
  initialized self g T → data T ≠ [] →
  positive_nonzero (F:=F) →
  let temp_threshold := default (lit 250) (max_temp_threshold (config self)) in
  ordered_on (temp_threshold :: data T) →
  ∃ r, analyze_results self = Return r self ∧
    ((∃ i, i ∈ potential_issues r ∧ issue_type i = "high_temperature"%string)
     ↔ ∃ x, x ∈ data T ∧ fgt x temp_threshold = true) ∧
    (∀ i, i ∈ potential_issues r → issue_type i = "high_temperature"%string →
       value i = final_max (temperature_stats r) ∧ threshold i = temp_threshold ∧
       value i ∈ data T ∧ ∀ x, x ∈ data T → flt (value i) x = false).
Proof.
  intros Hinit Hne Hpos temp_threshold Hord.
  destruct (analyze_results_with_rates self g T (pair_rates (history self)) Hinit Hne)
    as (mx & mn & Hmx & _ & Hres); [by apply cooling_rates_of_pairs|].
  destruct (np_max_bound (data T) mx) as [Hin Hub]; [|done|].
  { eapply ordered_on_subseteq; [|exact Hord]. intros y Hy. by right. }
  eexists. split; [exact Hres|].
  cbn [potential_issues temperature_stats final_max].
  assert (∀ i, i ∈ cooling_issue self (pair_rates (history self)) →
               issue_type i ≠ "high_temperature"%string) as Hcool.
  { intros i. unfold cooling_issue. destruct (fgt _ _); [|by intros ?%elem_of_nil].
    by intros ->%list_elem_of_singleton. }
  assert (fgt mx temp_threshold = true
          ↔ ∃ x, x ∈ data T ∧ fgt x temp_threshold = true) as Hhot.
  { split; [intros Hgt; by exists mx|]. intros (x & Hx & Hgt). unfold fgt in *.
    destruct (flt temp_threshold mx) eqn:E; [done|].
    destruct Hord as (_ & _ & _ & Htrans).
    rewrite (Htrans temp_threshold mx x) in Hgt; [done|left|by right..|done|].
    by apply Hub. }
  unfold temperature_issue in *. fold temp_threshold. split.
  - rewrite <- Hhot. destruct (fgt mx temp_threshold); split; try done.
    + intros _. eexists. split; [apply elem_of_app; right; left|done].
    + intros (i & [Hi|Hi%elem_of_nil]%elem_of_app & Hty); [|done]. by apply Hcool in Hi.
  - intros i [Hi|Hi]%elem_of_app Hty; [by apply Hcool in Hi|].
    destruct (fgt mx temp_threshold); [|by apply elem_of_nil in Hi].
    by apply list_elem_of_singleton in Hi as ->.
Qed.

Lemma for_each_steps_first {A} (l : list A) self :
  steppable self → history self = [] → l ≠ [] →
  ∃ self', for_each l (λ _, simulate_step) self = Return tt self' ∧
    steppable self' ∧ length (history self') = 1%nat ∧
    time self' = Nat.iter (length l) (λ t, (t + dt_of (config self))%F) (time self).
Proof.
  intros Hs Hnil Hl.
  destruct (for_each_steps_keep l self Hs) as (self' & Hrun & Hs' & _ & _ & Htime).
  exists self'. split; [done|]. split; [done|]. split; [|done].
  destruct l as [|x l]; [done|].
  destruct (simulate_step_history self Hs) as (self1 & Hstep & Hs1 & Hlen).
  rewrite Hnil in Hlen. simpl in Hlen.
  destruct (for_each_step_stalled l self1 Hs1) as (self2 & Hrun2 & _ & Hlen2);
    [by rewrite Hlen|].
  rewrite (for_each_cons_return _ x l self self1) in Hrun by done.
  rewrite Hrun in Hrun2. injection Hrun2 as <-. by rewrite Hlen2.
Qed.

(** X10. The report of a first run. [run_simulation(n)] with [n >= 1] on
    a simulator with an empty history on which steps return: it returns;
    the report counts [num_steps = 10] whatever [n] is (ten times the one
    sample of the history), both cooling rates are 0 (one sample gives no
    pair), and [simulation_time] is the initial time with the time step
    added [n] times. *)
Theorem run_simulation_first_report self (n : Z) :
  steppable self → history self = [] → 0 < n →
  ∃ r self', run_simulation n self = Return r self' ∧
    num_steps r = 10 ∧
    report_history r = history self' ∧ length (history self') = 1%nat ∧
    max_cooling_rate (cooling_stats r) = lit 0 ∧
    avg_cooling_rate (cooling_stats r) = lit 0 ∧
    potential_issues r = cooling_issue self [] ++
                         temperature_issue self (final_max (temperature_stats r)) ∧
    simulation_time r =
      Nat.iter (Z.to_nat n) (λ t, (t + dt_of (config self))%F) (time self).
Proof.
  intros Hs Hnil Hn.
  destruct (for_each_steps_first (range 0 n) self Hs Hnil)
    as (self' & Hrun & (g & T & Hinit & _ & Hne) & Hlen & Htime).
  { intros Hr%(f_equal length). rewrite length_range in Hr. simpl in Hr. lia. }
  destruct (for_each_steps_keep (range 0 n) self Hs) as (self2 & Hrun2 & _ & _ & Hcfg & _).
  rewrite Hrun in Hrun2. injection Hrun2 as <-.
  destruct (analyze_results_with_rates self' g T [] Hinit Hne)
    as (mx & mn & _ & _ & Hres); [apply cooling_rates_of_short; lia|].
  eexists _, self'. split.
  { unfold run_simulation, run_steps, mbind, M_bind. rewrite Hrun. exact Hres. }
  cbn [num_steps report_history cooling_stats max_cooling_rate avg_cooling_rate
       potential_issues simulation_time temperature_stats final_max].
  rewrite Hlen, Htime, length_range.
  replace (Z.to_nat (n - 0)) with (Z.to_nat n) by lia.
  unfold cooling_issue, temperature_issue. rewrite Hcfg. done.
Qed.
End Reports.

(** In binary64, on the simulator whose layer is laid at 260: the issue
    is reported, with a value that is not below 260. *)
Lemma analyze_results_high_temperature_hot :
  ∃ r i, analyze_results (hot_in float) = Return r (hot_in float) ∧
    i ∈ potential_issues r ∧ issue_type i = "high_temperature"%string ∧
    threshold i = lit 250 ∧ flt (value i) (lit 260) = false.
Proof.
  assert (data (the_temperature (hot_in float)) !! 665%nat = Some (lit 260)) as Hcell
    by (vm_compute; reflexivity).
  apply list_elem_of_lookup_2 in Hcell.
  destruct (analyze_results_high_temperature (hot_in float) (the_grid (hot_in float))
              (the_temperature (hot_in float))) as (r & Hres & Hiff & Hval).
  - repeat split; vm_compute; reflexivity.
  - vm_compute. discriminate.
  - exact binary64_positive_nonzero.
  - apply binary64_no_nan. vm_compute. reflexivity.
  - destruct Hiff as [_ Hhot]. destruct Hhot as (i & Hi & Hty).
    { exists (lit 260). split; [exact Hcell|]. vm_compute. reflexivity. }
    destruct (Hval i Hi Hty) as (_ & Hthr & _ & Hub).
    exists r, i. split; [exact Hres|]. split; [exact Hi|]. split; [exact Hty|].
    split; [rewrite Hthr; vm_compute; reflexivity|]. apply Hub. exact Hcell.
Defined.

Lemma run_simulation_first_report_with_grid :
  ∃ r self', run_simulation 37 with_grid = Return r self' ∧
    num_steps r = 10 ∧ max_cooling_rate (cooling_stats r) = lit 0.
Proof.
  destruct (run_simulation_first_report with_grid 37)
    as (r & self' & Hrun & Hnum & _ & _ & Hmax & _).
  - exact with_grid_steppable.
  - reflexivity.
  - lia.
  - exists r, self'. split; [exact Hrun|]. split; [exact Hnum|exact Hmax].
Defined.

(** ** Allocating the grid *)

Section Allocation.
Context {F : Type} `{PyFloat F} `{Machine}.
Implicit Types (self : ThermalSimulator (F:=F)).

(** X11. [initialize_grid] fails before it assigns anything. It raises
    [ZeroDivisionError] when the resolution is zero; with another
    resolution it raises what [int] raises on the first quotient
    [d / resolution] (an infinite one, or NaN); it returns exactly when
    the resolution is not zero, [int] converts the three quotients, the
    shape [int(d / resolution) + 1] per axis passes numpy's check (no
    negative dimension, fewer than [2 ^ 63] bytes) and the machine
    grants it. Whenever it raises,
    the simulator is exactly as before: the temperature field is assigned
    first, and the grid, of the same shape, is then allocated without
    fail. *)
Theorem initialize_grid_failure self (dx dy dz resolution : F) :
  let o := initialize_grid (dx, dy, dz) resolution self in
  (feqb resolution (lit 0) = true → o = Raise ZeroDivisionError self) ∧
  (feqb resolution (lit 0) = false →
     ∀ e, ftrunc (dx / resolution)%F = Err e → o = Raise e self) ∧
  (raised o = None ↔
     feqb resolution (lit 0) = false ∧
     ∃ tx ty tz,
       ftrunc (dx / resolution)%F = Ok tx ∧ ftrunc (dy / resolution)%F = Ok ty ∧
       ftrunc (dz / resolution)%F = Ok tz ∧
       0 ≤ tx + 1 ∧ 0 ≤ ty + 1 ∧ 0 ≤ tz + 1 ∧
       8 * Z.max 1 (tx + 1) * Z.max 1 (ty + 1) * Z.max 1 (tz + 1) < 2 ^ 63 ∧
       allocates (tx + 1) (ty + 1) (tz + 1) = true) ∧
  (raised o ≠ None → final_state o = self).
Proof.
  intros o. subst o.
  unfold initialize_grid, mbind, M_bind, pydiv.
  destruct (feqb resolution (lit 0)) eqn:Hres.
  { simpl. split; [done|]. split; [done|]. split; [|done]. split; [done|by intros [? _]]. }
  cbn [lift]. split; [done|].
  destruct (ftrunc (dx / resolution)%F) as [tx|e1] eqn:Htx; cbn [lift]; cycle 1.
  { split; [by intros _ e [= <-]|]. split; [|done].
    split; [done|]. by intros (_ & tx & ty & tz & ? & _). }
  split; [done|].
  destruct (ftrunc (dy / resolution)%F) as [ty|e2] eqn:Hty; cbn [lift]; cycle 1.
  { split; [|done]. split; [done|]. by intros (_ & ? & ty & tz & _ & ? & _). }
  destruct (ftrunc (dz / resolution)%F) as [tz|e3] eqn:Htz; cbn [lift]; cycle 1.
  { split; [|done]. split; [done|]. by intros (_ & ? & ? & tz & _ & _ & ? & _). }
  unfold get_self.
  destruct (np_full (tx + 1) (ty + 1) (tz + 1)
              (lit 1 * default (lit 25) (ambient_temperature (config self)))%F)
    as [t|e] eqn:Hfull; cbn [lift].
  - apply np_full_inv in Hfull as (Hx & Hy & Hz & Hsize & Hmem).
    unfold modify. cbn [set_temperature config]. rewrite np_full_ok by done.
    simpl. split; [|done]. split; [|done]. intros _. split; [done|].
    by exists tx, ty, tz.
  - simpl. split; [|done]. split; [done|].
    intros (_ & tx' & ty' & tz' & [= <-] & [= <-] & [= <-] & Hx & Hy & Hz & Hsize & Hmem).
    by rewrite np_full_ok in Hfull by done.
Qed.
End Allocation.

(** ** A simulation without any layer *)

Section WithoutLayers.
Context {F : Type} `{PyFloat F} `{Machine}.
Implicit Types (self : ThermalSimulator (F:=F)).

Lemma replicate_air sh : interior_is_air (NdArray sh (replicate (size_of sh) 0)).
Proof.
  intros i j k Hint. simpl in Hint.
  assert (in_range sh i j k) as Hr by (by apply interior_in_range0).
  rewrite getitem_lookup by done. simpl.
  rewrite lookup_replicate_2 by (by apply pos_lt_size). by exists 0.
Qed.

Lemma any_material_replicate sh n : any_material (NdArray sh (replicate n 0)) = false.
Proof. unfold any_material. simpl. by induction n. Qed.

Lemma simulate_step_air self g T :
  initialized self g T → interior_is_air g → data T ≠ [] →
  ∃ self', simulate_step self = Return tt self' ∧ initialized self' g T ∧
    config self' = config self ∧
    length (history self') =
      if Z.of_nat (length (history self)) mod 10 =? 0
      then S (length (history self))
      else length (history self).
Proof.
  intros (Hg & HT & Hsh & Hgwf & HTwf) Hair Hne.
  rewrite (simulate_step_cases self g T Hg HT). cbn zeta.
  rewrite diffuse_air by done. unfold after_loops.
  destruct (take_sample_ok (time self + dt_of (config self))%F
              (ambient_of (config self)) g T Hne Hsh) as (mx & mn & _ & _ & ->).
  destruct (_ =? _); eexists; (split; [done|]); (split; [by repeat split|]);
    (split; [done|]); simpl; [|done].
  rewrite length_app. simpl. lia.
Qed.

Lemma for_each_steps_air {A} (l : list A) self g T :
  initialized self g T → interior_is_air g → data T ≠ [] →
  ∃ self', for_each l (λ _, simulate_step) self = Return tt self' ∧
    initialized self' g T ∧ config self' = config self ∧
    (Z.of_nat (length (history self)) mod 10 ≠ 0 →
       length (history self') = length (history self)) ∧
    (history self = [] →
       length (history self') = match l with [] => 0%nat | _ => 1%nat end).
Proof.
  intros Hinit Hair Hne. revert self Hinit.
  induction l as [|x l IH]; intros self Hinit.
  - exists self. do 3 (split; [done|]). split; [done|]. by intros ->.
  - destruct (simulate_step_air self g T Hinit Hair Hne)
      as (self1 & Hstep & Hinit1 & Hcfg1 & Hlen1).
    destruct (IH self1 Hinit1) as (self' & Hrun & Hinit' & Hcfg' & Hstall & _).
    exists self'. rewrite (for_each_cons_return _ x l self self1) by done.
    split; [done|]. split; [done|]. split; [congruence|]. split.
    + intros Hmod. destruct (Z.eqb_spec (Z.of_nat (length (history self)) mod 10) 0);
        [done|]. rewrite Hstall; rewrite Hlen1; done.
    + intros Hnil. rewrite Hnil in Hlen1. simpl in Hlen1.
      rewrite Hstall; rewrite Hlen1; done.
Qed.

(** X12. A simulation without any layer. On a new simulator, after
    [initialize_grid] with a non-zero resolution, quotients that [int]
    converts and a shape with at least one cell along each axis that
    passes numpy's check and that the machine grants,
    [run_simulation(n)] returns for every [n] and every
    configuration (no division is reached, so even a zero
    [density * specific_heat] is accepted): the grid and the field are
    what [initialize_grid] made them, the report has [final_max] and
    [final_min] at [1.0 * ambient], [final_avg] at 0.0, both cooling
    rates at 0, and [num_steps] is 10 when [n >= 1] and 0 otherwise. *)
Theorem simulation_without_layers cfg (dx dy dz resolution : F) (tx ty tz n : Z) :
  feqb resolution (lit 0) = false →
  ftrunc (dx / resolution)%F = Ok tx →
  ftrunc (dy / resolution)%F = Ok ty →
  ftrunc (dz / resolution)%F = Ok tz →
  0 < tx + 1 → 0 < ty + 1 → 0 < tz + 1 →
  8 * (tx + 1) * (ty + 1) * (tz + 1) < 2 ^ 63 →
  allocates (tx + 1) (ty + 1) (tz + 1) = true →
  ∃ self1 self2 r,
    initialize_grid (dx, dy, dz) resolution (init cfg) = Return tt self1 ∧
    run_simulation n self1 = Return r self2 ∧
    grid self2 = grid self1 ∧ temperature self2 = temperature self1 ∧
    final_max (temperature_stats r) = (lit 1 * ambient_of cfg)%F ∧
    final_min (temperature_stats r) = (lit 1 * ambient_of cfg)%F ∧
    final_avg (temperature_stats r) = lit 0 ∧
    max_cooling_rate (cooling_stats r) = lit 0 ∧
    avg_cooling_rate (cooling_stats r) = lit 0 ∧
    num_steps r = (if 0 <? n then 10 else 0).
Proof.
  intros Hres Htx Hty Htz Hx Hy Hz Hsize Hmem.
  set (sh := (Z.to_nat (tx + 1), Z.to_nat (ty + 1), Z.to_nat (tz + 1))).
  set (a := (lit 1 * ambient_of cfg)%F).
  set (g := NdArray sh (replicate (size_of sh) 0)).
  set (T := NdArray sh (replicate (size_of sh) a)).
  set (self1 := {| config := cfg; grid := Some g; temperature := Some T;
                   time := lit 0; history := [] |}).
  assert (initialize_grid (dx, dy, dz) resolution (init cfg) = Return tt self1) as Hinit1.
  { unfold initialize_grid, mbind, M_bind, pydiv. rewrite Hres. cbn [lift].
    rewrite Htx, Hty, Htz. cbn [lift].
    unfold get_self. rewrite !np_full_ok by (done || rewrite ?Z.max_r by lia; lia).
    done. }
  assert (initialized self1 g T) as Hinit.
  { repeat split; unfold array_wf; simpl; by rewrite length_replicate. }
  assert (∃ m, size_of sh = S m) as [m Hm].
  { exists (pred (size_of sh)). unfold sh, size_of.
    assert (0 < Z.to_nat (tx + 1))%nat by lia.
    assert (0 < Z.to_nat (ty + 1))%nat by lia.
    assert (0 < Z.to_nat (tz + 1))%nat by lia.
    nia. }
  assert (data T ≠ []) as Hne by (unfold T; cbn [data]; by rewrite Hm).
  destruct (for_each_steps_air (range 0 n) self1 g T Hinit (replicate_air sh) Hne)
    as (self2 & Hrun & Hinit2 & Hcfg2 & _ & Hlen).
  specialize (Hlen eq_refl).
  destruct (analyze_results_with_rates self2 g T [] Hinit2 Hne)
    as (mx & mn & Hmx & Hmn & Hreport).
  { apply cooling_rates_of_short. rewrite Hlen. destruct (range 0 n); lia. }
  exists self1, self2. eexists. split; [done|]. split.
  { unfold run_simulation, run_steps, mbind, M_bind. rewrite Hrun. exact Hreport. }
  destruct Hinit2 as (Hg2 & HT2 & _). split; [done|]. split; [done|].
  cbn [temperature_stats final_max final_min final_avg cooling_stats
       max_cooling_rate avg_cooling_rate num_steps].
  unfold T in Hmx, Hmn. cbn [data] in Hmx, Hmn. rewrite Hm in Hmx, Hmn.
  cbn [replicate np_max np_min] in Hmx, Hmn.
  injection Hmx as <-. injection Hmn as <-.
  split; [apply fold_max_uniform; intros y Hin; by apply elem_of_replicate in Hin as [-> _]|].
  split; [apply fold_min_uniform; intros y Hin; by apply elem_of_replicate in Hin as [-> _]|].
  split; [unfold g; by rewrite any_material_replicate|].
  split; [done|]. split; [done|]. rewrite Hlen.
  destruct (Z.ltb_spec 0 n).
  - by rewrite range_cons by done.
  - by rewrite range_empty by done.
Qed.
End WithoutLayers.

(** In binary64, with [density = 0.0]. *)
Lemma simulation_without_layers_zero_density :
  ∃ self1 self2 r,
    initialize_grid (lit 10, lit 10, lit 10) (lit 1) (init (zero_density_config_in float))
      = Return tt self1 ∧
    run_simulation 37 self1 = Return r self2 ∧
    final_avg (temperature_stats r) = lit 0 ∧ num_steps r = 10.
Proof.
  destruct (simulation_without_layers (zero_density_config_in float)
              (lit 10) (lit 10) (lit 10) (lit 1) 10 10 10 37)
    as (self1 & self2 & r & Hinit & Hrun & _ & _ & _ & _ & Havg & _ & _ & Hnum).
  - vm_compute. reflexivity.
  - vm_compute. reflexivity.
  - vm_compute. reflexivity.
  - vm_compute. reflexivity.
  - lia.
  - lia.
  - lia.
  - vm_compute. reflexivity.
  - reflexivity.
  - exists self1, self2, r. split; [exact Hinit|]. split; [exact Hrun|].
    split; [exact Havg|exact Hnum].
Defined.

(** ** Layers, laid again and in any order *)

Section Layers.
Context {F : Type} `{PyFloat F}.
Implicit Types (self s : ThermalSimulator (F:=F)).

(** The disc keeps five cells away from the border in x and in y. *)
Lemma in_disc_margin sh i j :
  in_disc sh i j = true →
  5 ≤ i ≤ Z.of_nat sh.1.1 - 5 ∧ 5 ≤ j ≤ Z.of_nat sh.1.2 - 5.
Proof.
  unfold in_disc, within_radius, disc_radius.
  intros [Hr Hd]%andb_true_iff. apply Z.leb_le in Hr, Hd.
  set (cx := Z.of_nat sh.1.1 / 2) in *. set (cy := Z.of_nat sh.1.2 / 2) in *.
  assert (2 * cx ≤ Z.of_nat sh.1.1) by (unfold cx; Z.to_euclidean_division_equations; lia).
  assert (2 * cy ≤ Z.of_nat sh.1.2) by (unfold cy; Z.to_euclidean_division_equations; lia).
  set (r := Z.min cx cy - 5) in *.
  assert (r ≤ cx - 5 ∧ r ≤ cy - 5) as [Hrx Hry] by (unfold r; lia).
  assert (- r ≤ i - cx ≤ r) by nia.
  assert (- r ≤ j - cy ≤ r) by nia.
  lia.
Qed.

(** The state after a whole layer, cell by cell. *)
Lemma deposited_cells self g T z s :
  deposited self g T z
    (λ i j, 0 ≤ i < Z.of_nat (shape g).1.1 ∧ 0 ≤ j < Z.of_nat (shape g).1.2) s →
  config s = config self ∧ time s = time self ∧ history s = history self ∧
  ∃ g' T', initialized s g' T' ∧ shape g' = shape g ∧
    ∀ i j k, in_range (shape g) i j k →
      if in_disc (shape g) i j && (k =? z)
      then getitem g' i j k = Ok 1 ∧
           getitem T' i j k = Ok (extrusion_of (config self))
      else getitem g' i j k = getitem g i j k ∧
           getitem T' i j k = getitem T i j k.
Proof.
  intros (Hc & Ht & Hh & g' & T' & Hinit' & Hsh & Hcells).
  do 3 (split; [done|]). exists g', T'. do 2 (split; [done|]).
  intros i j k Hr. destruct (Hcells i j k Hr) as [H1 H2].
  destruct (in_disc (shape g) i j) eqn:Hd; simpl.
  - destruct (Z.eqb_spec k z) as [->|Hk].
    + apply H1; [|done..]. unfold in_range in Hr.
      destruct (shape g) as [[nx ny] nz]. simpl. lia.
    + apply H2. by do 2 right.
  - apply H2. right. by left.
Qed.

Lemma add_layer_cells {L} (layer_data : L) self g T z :
  initialized self g T → 0 ≤ z < Z.of_nat (shape g).2 →
  ∃ self' g' T',
    add_layer layer_data z self = Return tt self' ∧
    initialized self' g' T' ∧ shape g' = shape g ∧
    config self' = config self ∧ time self' = time self ∧
    history self' = history self ∧
    ∀ i j k, in_range (shape g) i j k →
      if in_disc (shape g) i j && (k =? z)
      then getitem g' i j k = Ok 1 ∧
           getitem T' i j k = Ok (extrusion_of (config self))
      else getitem g' i j k = getitem g i j k ∧
           getitem T' i j k = getitem T i j k.
Proof.
  intros Hinit Hz.
  destruct (add_layer_deposited self g T z Hinit Hz layer_data) as (self' & Hrun & Hdep).
  apply deposited_cells in Hdep as (Hc & Ht & Hh & g' & T' & Hinit' & Hsh & Hcells).
  by exists self', g', T'.
Qed.

(** Two initialized simulators with the same cells are the same. *)
Lemma simulator_ext s1 s2 (g1 g2 : ndarray Z) (T1 T2 : ndarray F) :
  initialized s1 g1 T1 → initialized s2 g2 T2 →
  config s1 = config s2 → time s1 = time s2 → history s1 = history s2 →
  shape g1 = shape g2 →
  (∀ i j k, in_range (shape g1) i j k →
     getitem g1 i j k = getitem g2 i j k ∧ getitem T1 i j k = getitem T2 i j k) →
  s1 = s2.
Proof.
  intros (Hg1 & HT1 & Hsh1 & Hgwf1 & HTwf1) (Hg2 & HT2 & Hsh2 & Hgwf2 & HTwf2)
    Hc Ht Hh Hsh Hcells.
  assert (g1 = g2) as <-.
  { apply ndarray_ext; try done. intros i j k Hr. by apply Hcells. }
  assert (T1 = T2) as <-.
  { apply ndarray_ext; try done; [congruence|].
    intros i j k Hr. apply Hcells. by rewrite <- Hsh1. }
  destruct s1, s2. simpl in *. congruence.
Qed.

(** X13. What [add_layer] keeps, whatever the z-index and whether it
    returns or raises: the simulator stays initialized with arrays of the
    same shape, configuration, clock and history are untouched, and every
    cell is either exactly as before or holds material at the extrusion
    temperature; such a cell lies at least five cells from the border
    in x and in y. Material is never removed. *)
Theorem add_layer_invariant {L} (layer_data : L) self g T z :
  initialized self g T →
  let self' := final_state (add_layer layer_data z self) in
  config self' = config self ∧ time self' = time self ∧
  history self' = history self ∧
  ∃ g' T', initialized self' g' T' ∧ shape g' = shape g ∧
    ∀ i j k, in_range (shape g) i j k →
      (getitem g' i j k = getitem g i j k ∧ getitem T' i j k = getitem T i j k)
      ∨ (getitem g' i j k = Ok 1 ∧
         getitem T' i j k = Ok (extrusion_of (config self)) ∧
         5 ≤ i ≤ Z.of_nat (shape g).1.1 - 5 ∧ 5 ≤ j ≤ Z.of_nat (shape g).1.2 - 5).
Proof.
  intros Hinit.
  assert (∀ z', 0 ≤ z' < Z.of_nat (shape g).2 →
            let s := final_state (add_layer layer_data z' self) in
            config s = config self ∧ time s = time self ∧ history s = history self ∧
            ∃ g' T', initialized s g' T' ∧ shape g' = shape g ∧
              ∀ i j k, in_range (shape g) i j k →
                (getitem g' i j k = getitem g i j k ∧ getitem T' i j k = getitem T i j k)
                ∨ (getitem g' i j k = Ok 1 ∧
                   getitem T' i j k = Ok (extrusion_of (config self)) ∧
                   5 ≤ i ≤ Z.of_nat (shape g).1.1 - 5 ∧
                   5 ≤ j ≤ Z.of_nat (shape g).1.2 - 5)) as Hin.
  { intros z' Hz'.
    destruct (add_layer_cells layer_data self g T z' Hinit Hz')
      as (s & g' & T' & -> & Hinit' & Hsh & Hc & Ht & Hh & Hcells).
    simpl. do 3 (split; [done|]). exists g', T'. do 2 (split; [done|]).
    intros i j k Hr. specialize (Hcells i j k Hr).
    destruct (in_disc (shape g) i j) eqn:Hd; simpl in Hcells; [|by left].
    destruct (k =? z'); [|by left]. right.
    destruct Hcells as [? ?]. do 2 (split; [done|]). by apply in_disc_margin. }
  assert (let s := self in
          config s = config self ∧ time s = time self ∧ history s = history self ∧
          ∃ g' T', initialized s g' T' ∧ shape g' = shape g ∧
            ∀ i j k, in_range (shape g) i j k →
              (getitem g' i j k = getitem g i j k ∧ getitem T' i j k = getitem T i j k)
              ∨ (getitem g' i j k = Ok 1 ∧
                 getitem T' i j k = Ok (extrusion_of (config self)) ∧
                 5 ≤ i ≤ Z.of_nat (shape g).1.1 - 5 ∧
                 5 ≤ j ≤ Z.of_nat (shape g).1.2 - 5)) as Hsame.
  { simpl. do 3 (split; [done|]). exists g, T. do 2 (split; [done|]). by left. }
  pose proof Hinit as (Hg & _).
  destruct (decide (0 ≤ z < Z.of_nat (shape g).2)) as [Hz|Hz]; [by apply Hin|].
  destruct (decide (- Z.of_nat (shape g).2 ≤ z < 0)) as [Hneg|Hout].
  { rewrite (add_layer_wrap layer_data self g T z Hinit Hneg). apply Hin. lia. }
  assert (z < - Z.of_nat (shape g).2 ∨ Z.of_nat (shape g).2 ≤ z) as Hz' by lia.
  destruct (decide (0 ≤ disc_radius (shape g))) as [Hr|Hr].
  - by rewrite (add_layer_outside layer_data self g z Hg Hz' Hr).
  - rewrite (add_layer_empty_disc layer_data self g z Hg) by lia. done.
Qed.

(** X14. Laying the same layer twice is laying it once: on an
    initialized simulator and for a z-index within [0, nz), a second
    [add_layer] at the same level returns and leaves the simulator
    exactly as the first call left it. *)
Theorem add_layer_idempotent {L} (layer_data : L) self g T z :
  initialized self g T → 0 ≤ z < Z.of_nat (shape g).2 →
  ∃ self', add_layer layer_data z self = Return tt self' ∧
    add_layer layer_data z self' = Return tt self'.
Proof.
  intros Hinit Hz.
  destruct (add_layer_cells layer_data self g T z Hinit Hz)
    as (s1 & g1 & T1 & Hrun1 & Hinit1 & Hsh1 & Hc1 & Ht1 & Hh1 & Hcells1).
  destruct (add_layer_cells layer_data s1 g1 T1 z Hinit1)
    as (s2 & g2 & T2 & Hrun2 & Hinit2 & Hsh2 & Hc2 & Ht2 & Hh2 & Hcells2);
    [by rewrite Hsh1|].
  exists s1. split; [done|]. rewrite Hrun2. f_equal.
  apply (simulator_ext s2 s1 g2 g1 T2 T1); try done.
  intros i j k Hr. rewrite Hsh2 in Hr. specialize (Hcells2 i j k Hr).
  rewrite Hsh1 in Hr, Hcells2. specialize (Hcells1 i j k Hr).
  destruct (in_disc (shape g) i j && (k =? z)); [|done].
  rewrite Hc1 in Hcells2. destruct Hcells1 as [-> ->]. done.
Qed.

(** X15. Layers may be laid in any order: for two z-indices within
    [0, nz), [add_layer] at one and then at the other ends in the same
    simulator as in the opposite order. *)
Theorem add_layer_commute {L} (layer_data : L) self g T z1 z2 :
  initialized self g T →
  0 ≤ z1 < Z.of_nat (shape g).2 → 0 ≤ z2 < Z.of_nat (shape g).2 →
  ∃ self', (_ ← add_layer layer_data z1; add_layer layer_data z2) self = Return tt self' ∧
           (_ ← add_layer layer_data z2; add_layer layer_data z1) self = Return tt self'.
Proof.
  intros Hinit Hz1 Hz2.
  destruct (add_layer_cells layer_data self g T z1 Hinit Hz1)
    as (s1 & g1 & T1 & Hrun1 & Hinit1 & Hsh1 & Hc1 & Ht1 & Hh1 & Hcells1).
  destruct (add_layer_cells layer_data s1 g1 T1 z2 Hinit1)
    as (s12 & g12 & T12 & Hrun12 & Hinit12 & Hsh12 & Hc12 & Ht12 & Hh12 & Hcells12);
    [by rewrite Hsh1|].
  destruct (add_layer_cells layer_data self g T z2 Hinit Hz2)
    as (s2 & g2 & T2 & Hrun2 & Hinit2 & Hsh2 & Hc2 & Ht2 & Hh2 & Hcells2).
  destruct (add_layer_cells layer_data s2 g2 T2 z1 Hinit2)
    as (s21 & g21 & T21 & Hrun21 & Hinit21 & Hsh21 & Hc21 & Ht21 & Hh21 & Hcells21);
    [by rewrite Hsh2|].
  exists s12. unfold mbind, M_bind. rewrite Hrun1, Hrun2, Hrun12, Hrun21.
  split; [done|]. f_equal.
  apply (simulator_ext s21 s12 g21 g12 T21 T12); try congruence.
  intros i j k Hr. rewrite Hsh21 in Hr. specialize (Hcells21 i j k Hr).
  rewrite Hsh2 in Hr, Hcells21. specialize (Hcells2 i j k Hr).
  specialize (Hcells1 i j k Hr). rewrite <- Hsh1 in Hr. specialize (Hcells12 i j k Hr).
  rewrite Hsh1 in Hcells12. rewrite Hc1 in Hcells12. rewrite Hc2 in Hcells21.
  destruct (in_disc (shape g) i j); simpl in *; [|intuition congruence].
  destruct (k =? z1), (k =? z2); intuition congruence.
Qed.
End Layers.

Lemma add_layer_invariant_with_grid :
  ∃ g' T', initialized (final_state (add_layer tt (-1) with_grid)) g' T' ∧
    shape g' = shape (the_grid with_grid) ∧
    history (final_state (add_layer tt (-1) with_grid)) = history with_grid.
Proof.
  destruct (add_layer_invariant tt with_grid (the_grid with_grid)
              (the_temperature with_grid) (-1))
    as (_ & _ & Hh & g' & T' & Hinit & Hsh & _).
  - exact with_grid_initialized.
  - exists g', T'. split; [exact Hinit|]. split; [exact Hsh|exact Hh].
Defined.

Lemma add_layer_idempotent_with_grid :
  ∃ self', add_layer tt 5 with_grid = Return tt self' ∧
    add_layer tt 5 self' = Return tt self'.
Proof.
  apply (add_layer_idempotent tt with_grid (the_grid with_grid)
           (the_temperature with_grid) 5).
  - exact with_grid_initialized.
  - by_compute.
Defined.

Lemma add_layer_commute_with_grid :
  ∃ self', (_ ← add_layer tt 3; add_layer tt 7) with_grid = Return tt self' ∧
           (_ ← add_layer tt 7; add_layer tt 3) with_grid = Return tt self'.
Proof.
  apply (add_layer_commute tt with_grid (the_grid with_grid)
           (the_temperature with_grid) 3 7).
  - exact with_grid_initialized.
  - by_compute.
  - by_compute.
Defined.

(** ** The steady state *)

Lemma getitem_uniform {A} (a : ndarray A) (v : A) i j k :
  array_wf a → (∀ x, x ∈ data a → x = v) → in_range (shape a) i j k →
  getitem a i j k = Ok v.
Proof.
  intros Hwf Huni Hr. destruct (getitem_in_range a i j k Hwf Hr) as [x Hx].
  rewrite Hx. f_equal. apply Huni. rewrite getitem_lookup in Hx by done.
  destruct (data a !! pos (shape a) i j k) eqn:E; [|done].
  injection Hx as <-. by eapply list_elem_of_lookup_2.
Qed.

Lemma setitem_same {A} (a : ndarray A) (v : A) i j k :
  in_range (shape a) i j k → getitem a i j k = Ok v → setitem a i j k v = Ok a.
Proof.
  intros Hr Hget. rewrite setitem_in_range by done.
  rewrite getitem_lookup in Hget by done.
  destruct (data a !! pos (shape a) i j k) eqn:E; [|done].
  injection Hget as ->. rewrite list_insert_id by done. by destruct a.
Qed.

Section SteadyState.
Context {F : Type} `{PyFloat F}.
Implicit Types (self : ThermalSimulator (F:=F)).

(** The body of the loops on a uniform field at a number that the two
    updates of a cell leave as it is: the cell is stored as it was. *)
Lemma update_cell_uniform (dt cd ht rho amb cv a : F) (g : ndarray Z)
    (T : ndarray F) i j k :
  shape T = shape g → array_wf g → array_wf T →
  feqb (rho * ht)%F (lit 0) = false →
  (∀ x, x ∈ data T → x = a) →
  (a + cd / (rho * ht) * dt * (a + a + a + a + a + a - of_int 6 * a))%F = a →
  (a + cv * (amb - a) * dt / (rho * ht))%F = a →
  interior (shape g) i j k →
  update_cell dt cd ht rho amb cv g T
    (Z.of_nat (shape g).1.1) (Z.of_nat (shape g).1.2) (Z.of_nat (shape g).2) T i j k
  = Ok T.
Proof.
  intros Hsh Hgwf HTwf Hdiv Huni Hdiff Hcool Hint. unfold update_cell.
  destruct (getitem_in_range g i j k Hgwf) as [gv ->]; [by apply interior_in_range0|].
  res_simpl. destruct (is_material gv); [|done].
  assert (∀ di dj dk, -1 ≤ di ≤ 1 → -1 ≤ dj ≤ 1 → -1 ≤ dk ≤ 1 →
          getitem T (i + di) (j + dj) (k + dk) = Ok a) as Hget.
  { intros. apply getitem_uniform; [done..|]. rewrite Hsh.
    by apply interior_in_range. }
  pose proof (Hget 1 0 0) as H1. pose proof (Hget (-1) 0 0) as H2.
  pose proof (Hget 0 1 0) as H3. pose proof (Hget 0 (-1) 0) as H4.
  pose proof (Hget 0 0 1) as H5. pose proof (Hget 0 0 (-1)) as H6.
  pose proof (Hget 0 0 0) as Hc.
  rewrite ?Z.add_0_r in *. change (i + -1) with (i - 1) in H2.
  change (j + -1) with (j - 1) in H4. change (k + -1) with (k - 1) in H6.
  rewrite H1, H2, H3, H4, H5, H6, Hc by lia. res_simpl.
  unfold pydiv. rewrite Hdiv. res_simpl.
  assert (in_range (shape T) i j k) as Hr by (rewrite Hsh; by apply interior_in_range0).
  rewrite Hdiff.
  rewrite (setitem_same T a i j k Hr) by (apply Hc; lia). res_simpl.
  destruct (surface_scan_total g (shape g) eq_refl Hgwf i j k neighbour_offsets)
    as (b & -> & _).
  { intros d Hd. apply interior_in_range; [done|..];
      repeat (apply elem_of_cons in Hd as [->|Hd]; [simpl; lia|]);
      by apply elem_of_nil in Hd. }
  res_simpl. destruct b; [|done]. rewrite Hc by lia. res_simpl.
  rewrite Hcool.
  by apply setitem_same; [|apply Hc; lia].
Qed.

(** X16. The steady state. A uniform temperature field at a number [a]
    that the two updates of a cell leave as it is, the diffusion term of
    six equal neighbours and the convection term towards the ambient
    temperature, is a fixed point of [simulate_step], wherever the
    material is: the step returns and the field is exactly what it was.
    Both conditions are computations on the one number [a]: in binary64
    they hold of 25.0 with the default constants; they fail of 0.1 with a
    large diffusivity, where six times 0.1 is not the sum of six 0.1. *)
Theorem simulate_step_steady_state self g T (a : F) :
  initialized self g T → divisor_ok (config self) → data T ≠ [] →
  (∀ x, x ∈ data T → x = a) →
  let cfg := config self in
  (a + conductivity_of cfg / (rho_of cfg * heat_of cfg) * dt_of cfg
         * (a + a + a + a + a + a - of_int 6 * a))%F = a →
  (a + convection_of cfg * (ambient_of cfg - a) * dt_of cfg
         / (rho_of cfg * heat_of cfg))%F = a →
  ∃ self', simulate_step self = Return tt self' ∧
    temperature self' = Some T ∧ grid self' = Some g ∧
    time self' = (time self + dt_of (config self))%F.
Proof.
  intros (Hg & HT & Hsh & Hgwf & HTwf) Hdiv Hne Huni cfg Hdiff Hcool.
  rewrite (simulate_step_cases self g T Hg HT). cbn zeta. fold cfg.
  assert (diffuse (dt_of cfg) (conductivity_of cfg) (heat_of cfg) (rho_of cfg)
            (ambient_of cfg) (convection_of cfg) g T
            (Z.of_nat (shape g).1.1) (Z.of_nat (shape g).1.2) (Z.of_nat (shape g).2) T
          = Ok T) as ->.
  { unfold diffuse.
    apply foldM_skip. intros i Hi%elem_of_range.
    apply foldM_skip. intros j Hj%elem_of_range.
    apply foldM_skip. intros k Hk%elem_of_range.
    by apply (update_cell_uniform _ _ _ _ _ _ a). }
  unfold after_loops.
  destruct (take_sample_ok (time self + dt_of (config self))%F
              (ambient_of (config self)) g T Hne Hsh) as (mx & mn & _ & _ & ->).
  destruct (_ =? _); eexists; (split; [done|]); by repeat split.
Qed.
End SteadyState.

(** In binary64, on the simulator whose layer was laid at the ambient
    25.0: the cell (5, 5, 5) holds material, and a step leaves the field
    as it is. *)
Lemma simulate_step_steady_state_settled :
  getitem (the_grid (settled_in float)) 5 5 5 = Ok 1 ∧
  ∃ self', simulate_step (settled_in float) = Return tt self' ∧
    temperature self' = temperature (settled_in float).
Proof.
  split; [vm_compute; reflexivity|].
  destruct (simulate_step_steady_state (settled_in float) (the_grid (settled_in float))
              (the_temperature (settled_in float)) (lit 25)) as (self' & Hstep & HT' & _).
  - repeat split; vm_compute; reflexivity.
  - vm_compute. reflexivity.
  - vm_compute. discriminate.
  - assert (data (the_temperature (settled_in float)) = replicate 1331 (lit 25)) as ->
      by (vm_compute; reflexivity).
    intros x Hx. by apply elem_of_replicate in Hx as [-> _].
  - vm_compute. reflexivity.
  - vm_compute. reflexivity.
  - exists self'. split; [exact Hstep|]. rewrite HT'. vm_compute. reflexivity.
Defined.
